(** * Canvas Elements Generator: the asset-generation pipeline

    A shallow embedding of [services/geminiService.ts] (the retry wrapper,
    the variation expander and the white-background filter) and of
    [handleGenerate] in the application component (the batch orchestrator),
    followed by the properties the specification states about them.  The
    rest of the code is embedded after that: the prompt templates and the
    asset fetcher of the service module, the two HTTP endpoints with their
    client, and the daily allowance of the form; their properties come
    last.

    Asynchronous code is modelled in direct style: a promise is the
    [outcome] it settles to, and everything the code observes from the
    outside world (the remote service, [Math.random], [Date.now], the image
    decoder) is an oracle passed as a section variable.  Side effects that
    the properties talk about (invocations, sleeps, React state updates) are
    recorded in an event trace returned next to the result. *)

From Stdlib Require Import ZArith QArith Qround Lqa Floats String Ascii List Bool Lia.
From stdpp Require Import base option list strings gmap.
Import ListNotations.

Local Open Scope string_scope.
Local Open Scope nat_scope.
Local Open Scope list_scope.

(** ** JavaScript values the code inspects *)

Module Js.

(** A thrown value.  The code only ever reads [message] and [status],
    both through optional chaining, so either may be missing. *)
Record Error := mkError {
  message : option string;
  status : option string
}.

Definition Error_of (msg : string) : Error :=
  {| message := Some msg; status := None |}.

(** What an awaited promise gives: a value, or a thrown error. *)
Inductive outcome (T : Type) : Type :=
| Fulfilled (v : T)
| Rejected (error : Error).
Arguments Fulfilled {T} v.
Arguments Rejected {T} error.

(** [s.includes(sub)] *)
Definition includes (s sub : string) : bool :=
  match String.index 0 sub s with
  | Some _ => true
  | None => false
  end.

(** [error?.message?.includes(sub)], [undefined] read as false. *)
Definition message_includes (error : Error) (sub : string) : bool :=
  match message error with
  | Some m => includes m sub
  | None => false
  end.

(** [error?.status === s] *)
Definition status_is (error : Error) (s : string) : bool :=
  match status error with
  | Some st => String.eqb st s
  | None => false
  end.

(** [x || dflt] on an optional string: [undefined] and the empty string
    are falsy. *)
Definition or_default (x : option string) (dflt : string) : string :=
  match x with
  | Some EmptyString | None => dflt
  | Some s => s
  end.

(** A value as [JSON.parse] gives it. *)
#[warnings="-register-all"]
Inductive json :=
| JNull
| JBool (b : bool)
| JNumber (x : float)
| JString (s : string)
| JArray (items : list json)
| JObject (fields : list (string * json)).

(** The prompts of a value that is an array of strings, which is what
    the service declares to return ([string[]]) and what the component
    takes it to be. *)
Fixpoint strings_of (items : list json) : option (list string) :=
  match items with
  | [] => Some []
  | JString s :: items' =>
      match strings_of items' with
      | Some l => Some (s :: l)
      | None => None
      end
  | _ :: _ => None
  end.

Definition string_array (v : json) : option (list string) :=
  match v with
  | JArray items => strings_of items
  | _ => None
  end.

End Js.
Import Js.

(** ** [types.ts] *)

Inductive AssetType :=
| STICKER | PNG_ELEMENT | GRAPHIC | SHAPE_3D | MOCKUP | PHOTO | STAMP | GIF.

Definition AssetType_eqb (a b : AssetType) : bool :=
  match a, b with
  | STICKER, STICKER | PNG_ELEMENT, PNG_ELEMENT | GRAPHIC, GRAPHIC
  | SHAPE_3D, SHAPE_3D | MOCKUP, MOCKUP | PHOTO, PHOTO | STAMP, STAMP
  | GIF, GIF => true
  | _, _ => false
  end.

Record GeneratedAsset := mkAsset {
  id : string;
  url : string;
  type : AssetType;
  prompt : string;
  timestamp : Z;
  isVideo : bool
}.

(** ** [withRetry] *)

(** The two classifications [withRetry] computes in its [catch]. *)
Definition isRateLimit (error : Error) : bool :=
  message_includes error "429" || status_is error "RESOURCE_EXHAUSTED".

Definition isServerError (error : Error) : bool :=
  message_includes error "500" || message_includes error "Rpc failed".

(** What [withRetry] does besides returning: it calls [fn] and it sleeps. *)
Inductive retry_event :=
| Invoke (k : nat)
| Sleep (ms : Q).

Section WithRetry.
Context {T : Type}.

(** [fn k] is what the [k]-th call of the wrapped operation settles to
    (calls are numbered from 0); [random k] is the [k]-th number drawn from
    [Math.random]. *)
Variable fn : nat -> outcome T.
Variable random : nat -> Q.
Variable maxRetries : nat.

(** The [for] loop from iteration [i] on, with [fuel] iterations left
    ([fuel = maxRetries - i]).  When the loop runs out, the statement after
    it makes the final attempt. *)
Fixpoint withRetry_from (fuel i : nat) (delay : Q)
  : outcome T * list retry_event :=
  match fuel with
  | O => (fn i, [Invoke i])
  | S fuel' =>
      match fn i with
      | Fulfilled v => (Fulfilled v, [Invoke i])
      | Rejected error =>
          if (isRateLimit error || isServerError error)
             && (i <? maxRetries - 1)
          then
            let '(r, tr) :=
              withRetry_from fuel' (S i) (delay * 2 + random i * 1000)%Q in
            (r, Invoke i :: Sleep delay :: tr)
          else (Rejected error, [Invoke i])
      end
  end.

Definition withRetry (initialDelay : Q) : outcome T * list retry_event :=
  withRetry_from maxRetries 0 initialDelay.

(** The delay slept after the [k]-th failed call. *)
Fixpoint delay_after (initialDelay : Q) (k : nat) : Q :=
  match k with
  | O => initialDelay
  | S k' => (delay_after initialDelay k' * 2 + random k' * 1000)%Q
  end.

(** The calls made, in order. *)
Definition invocations (tr : list retry_event) : list nat :=
  omap (fun e => match e with Invoke k => Some k | Sleep _ => None end) tr.

End WithRetry.

Definition defaultMaxRetries : nat := 5.
Definition defaultInitialDelay : Q := 4000.

(** ** [generatePromptVariations] *)

Section VariationExpander.

(** [JSON.parse] on the text of the response: the value parsed, or [None]
    for the syntax error it throws.  The request carries a response
    schema (an array of strings), but nothing in the code checks the
    answer against it, so the value may be any JSON value. *)
Variable JSON_parse : string -> option json.

(** [fields.length > 0] for a parsed object: [length] is a property the
    object may or may not have, and the comparison coerces whatever it
    holds to a number.  That evaluation is the runtime's; [None] stands
    for its throwing. *)
Variable object_length_positive : list (string * json) -> option bool.

(** [generateContent k] is what the [k]-th call of
    [ai.models.generateContent] settles to: the [text] of the response
    (which may be missing), or a thrown error. *)
Variable generateContent : nat -> outcome (option string).
Variable random : nat -> Q.

(** [variations.length > 0].  Reading a property of [null] throws; a
    boolean or a number has no [length], and [undefined > 0] is false; a
    string and an array have their length. *)
Definition length_positive (variations : json) : option bool :=
  match variations with
  | JNull => None
  | JBool _ | JNumber _ => Some false
  | JString s => Some (0 <? String.length s)
  | JArray items => Some (0 <? length items)
  | JObject fields => object_length_positive fields
  end.

(** The inner [try]/[catch] (lines 118-124): the parsed value itself when
    its length is positive, the single base prompt when it is not, and
    [count] copies of the base prompt when the [try] block throws. *)
Definition parse_variations (basePrompt : string) (count : nat)
    (text : option string) : json :=
  match JSON_parse (or_default text "[]") with
  | Some variations =>
      match length_positive variations with
      | Some true => variations
      | Some false => JArray [JString basePrompt]
      | None => JArray (repeat (JString basePrompt) count)
      end
  | None => JArray (repeat (JString basePrompt) count)
  end.

(** The operation handed to [withRetry]. *)
Definition variations_attempt (basePrompt : string) (count : nat) (k : nat)
  : outcome json :=
  match generateContent k with
  | Fulfilled text => Fulfilled (parse_variations basePrompt count text)
  | Rejected error => Rejected error
  end.

Definition generatePromptVariations_traced (basePrompt : string)
    (type : AssetType) (count : nat)
  : outcome json * list retry_event :=
  withRetry (variations_attempt basePrompt count) random
    defaultMaxRetries defaultInitialDelay.

Definition generatePromptVariations (basePrompt : string) (type : AssetType)
    (count : nat) : outcome json :=
  fst (generatePromptVariations_traced basePrompt type count).

End VariationExpander.

(** ** [removeWhiteBackground] *)

(** The pixel buffer of an [ImageData]: four bytes (red, green, blue,
    alpha) per pixel, row by row. *)
Record ImageData := {
  width : nat;
  height : nat;
  data : list Z
}.

Definition threshold : Z := 245.

(** [x >= threshold] where [x] was read from the buffer: reading past the
    end gives [undefined], and [undefined >= 245] is false. *)
Definition at_least_threshold (x : option Z) : bool :=
  match x with
  | Some v => (threshold <=? v)%Z
  | None => false
  end.

(** The loop [for (let i = 0; i < data.length; i += 4)], from index [i] on.
    [fuel] bounds the number of iterations left. *)
Fixpoint strip_from (fuel i : nat) (data : list Z) : list Z :=
  match fuel with
  | O => data
  | S fuel' =>
      if i <? length data then
        let r := data !! i in
        let g := data !! (i + 1) in
        let b := data !! (i + 2) in
        let data' :=
          if at_least_threshold r && at_least_threshold g
             && at_least_threshold b
          then <[i + 3 := 0%Z]> data
          else data in
        strip_from fuel' (i + 4) data'
      else data
  end.

Definition strip_white (data : list Z) : list Z :=
  strip_from (length data) 0 data.

(** How the browser answers the attempt to get at the pixels of a data
    URL: the image fails to load ([onerror]), the canvas gives no 2d
    context, or the pixels are read. *)
Inductive decoded :=
| LoadError
| NoContext
| Pixels (img : ImageData).

Section BackgroundStripper.

Variable decode : string -> decoded.
(** [putImageData] followed by [canvas.toDataURL('image/png')]. *)
Variable toDataURL : ImageData -> string.

Definition removeWhiteBackground (dataUrl : string) : string :=
  match decode dataUrl with
  | LoadError => dataUrl
  | NoContext => dataUrl
  | Pixels img =>
      toDataURL {| width := width img; height := height img;
                   data := strip_white (data img) |}
  end.

End BackgroundStripper.

(** The four channels of pixel [p] of a buffer. *)
Definition pixel (data : list Z) (p : nat) : option (Z * Z * Z * Z) :=
  match data !! (4 * p), data !! (4 * p + 1),
        data !! (4 * p + 2), data !! (4 * p + 3) with
  | Some r, Some g, Some b, Some a => Some (r, g, b, a)
  | _, _, _, _ => None
  end.

Definition near_white (r g b : Z) : bool :=
  (245 <=? r)%Z && (245 <=? g)%Z && (245 <=? b)%Z.

(** ** The progress percentage

    [Math.min(100, Math.round(((i + currentBatch.length) / variations.length) * 100))]
    is computed on JavaScript numbers, that is IEEE 754 binary64 values:
    the quotient is rounded to a double before it is multiplied by 100, and
    the product is rounded again.  Rocq's primitive floats are the same
    binary64 arithmetic, so the expression is embedded as it stands. *)

Definition float_of_nat (n : nat) : float :=
  PrimFloat.of_uint63 (Uint63.of_Z (Z.of_nat n)).

(** [Math.round x]: the integer nearest to [x], a tie going up.  A finite
    double is [m * 2^e] exactly, so the result is computed on integers. *)
Definition Math_round (x : float) : option Z :=
  match Prim2SF x with
  | S754_zero _ => Some 0%Z
  | S754_finite s m e =>
      let sm := if s then Z.neg m else Z.pos m in
      if (0 <=? e)%Z then Some (sm * 2 ^ e)%Z
      else
        let d := (2 ^ (- e))%Z in
        Some ((2 * sm + d) / (2 * d))%Z
  | S754_infinity _ | S754_nan => None
  end.

(** [Math.min(100, Math.round x)] as an integer percentage.  The loop body
    runs only on a non-empty list, so the quotient is finite and positive;
    the cases that cannot arise are given a value to keep the function
    total ([+Infinity] is clamped to 100 as in JavaScript). *)
Definition clamp_percent (x : float) : Z :=
  match Math_round x with
  | Some z => Z.min 100 z
  | None =>
      match Prim2SF x with
      | S754_infinity false => 100%Z
      | _ => 0%Z
      end
  end.

Definition js_progress (done total : nat) : Z :=
  clamp_percent
    (PrimFloat.mul (PrimFloat.div (float_of_nat done) (float_of_nat total))
                   (float_of_nat 100)).

Arguments js_progress : simpl never.

(** [round(100 * k / n)] over the rationals, a tie going up, clamped. *)
Definition exact_progress (k n : nat) : Z :=
  Z.min 100 (Qfloor ((100 * inject_Z (Z.of_nat k) / inject_Z (Z.of_nat n))
                     + (1 # 2))%Q).

(** The sign of a double, where it has one. *)
Definition sign_is (s : bool) (x : spec_float) : Prop :=
  match x with
  | S754_zero s' | S754_infinity s' | S754_finite s' _ _ => s' = s
  | S754_nan => True
  end.

(** ** [handleGenerate] *)

(** The component's state ([useState] hooks the run touches). *)
Record AppState := {
  assets : list GeneratedAsset;
  isGenerating : bool;
  progress : Z;
  error : option string
}.

(** What a run does that can be observed: state updates, calls to the
    service, and pauses. *)
Inductive ui_event :=
| SetIsGenerating (b : bool)
| SetProgress (p : Z)
| SetError (e : option string)
| SetAssets (successful : list GeneratedAsset)
| CallVariations
| CallGenerate (i : nat) (prompt : string)
| Pause (ms : Z)
| ConsoleError
| OpenSelectKey.

(** [SetAssets successful] is [setAssets(prev => [...successful, ...prev])]. *)
Definition apply_event (s : AppState) (e : ui_event) : AppState :=
  match e with
  | SetIsGenerating b =>
      {| assets := assets s; isGenerating := b;
         progress := progress s; error := error s |}
  | SetProgress p =>
      {| assets := assets s; isGenerating := isGenerating s;
         progress := p; error := error s |}
  | SetError e =>
      {| assets := assets s; isGenerating := isGenerating s;
         progress := progress s; error := e |}
  | SetAssets successful =>
      {| assets := successful ++ assets s; isGenerating := isGenerating s;
         progress := progress s; error := error s |}
  | CallVariations | CallGenerate _ _ | Pause _ | ConsoleError
  | OpenSelectKey => s
  end.

Definition state_after (s : AppState) (tr : list ui_event) : AppState :=
  fold_left apply_event tr s.

(** The state the component starts in (the arguments of [useState]). *)
Definition initial_state : AppState :=
  {| assets := []; isGenerating := false; progress := 0%Z; error := None |}.

Definition msg_nothing_forged : string :=
  "Could not forge any elements. Service might be busy. Try again in a few moments.".
Definition msg_authentication : string :=
  "API Authentication Error. Re-selecting your API key might help.".
Definition msg_rate_limit : string :=
  "Rate limit exceeded. The API is temporarily blocking requests. Please wait 1-2 minutes before trying again.".
Definition msg_generic : string :=
  "Failed to forge elements. Please try again.".

Definition batchSize : nat := 1.
Definition requestedCount : nat := 20.

(** [xs.slice(from, to)] *)
Definition slice {A} (xs : list A) (from to : nat) : list A :=
  take (to - from) (drop from xs).

(** [Promise.all] over promises given with what they do before they
    settle.  Every promise was started by the [map], so every trace is
    kept; the result is the list of values, or the first rejection.  The
    orchestrator only ever passes a batch of one ([batchSize = 1]), for which
    no interleaving arises. *)
Fixpoint Promise_all {A} (ps : list (outcome A * list ui_event))
  : outcome (list A) * list ui_event :=
  match ps with
  | [] => (Fulfilled [], [])
  | (r, ev) :: ps' =>
      let '(rs, evs) := Promise_all ps' in
      (match r, rs with
       | Rejected e, _ => Rejected e
       | Fulfilled _, Rejected e => Rejected e
       | Fulfilled v, Fulfilled vs => Fulfilled (v :: vs)
       end, ev ++ evs)
  end.

Section Orchestrator.

(** The service module the component imports. *)
Variable generatePromptVariations
  : string -> AssetType -> nat -> outcome (list string).
(** [generateSingleAsset i prompt type]: what the call made for item [i]
    settles to. *)
Variable generateSingleAsset : nat -> string -> AssetType -> outcome string.
(** [Math.random().toString(36).substr(2, 9)] and [Date.now()] as read
    while item [i] is turned into an asset. *)
Variable random_id : nat -> string.
Variable now : nat -> Z.

Variable basePrompt : string.
Variable type : AssetType.

(** The callback mapped over a batch (lines 30-49). *)
Definition fetch_item (i : nat) (prompt : string)
  : outcome (option GeneratedAsset) * list ui_event :=
  match generateSingleAsset i prompt type with
  | Fulfilled url =>
      (Fulfilled (Some (mkAsset (random_id i) url type prompt (now i)
                                (AssetType_eqb type GIF))),
       [CallGenerate i prompt])
  | Rejected err =>
      if message_includes err "429"
      then (Rejected err, [CallGenerate i prompt; ConsoleError])
      else (Fulfilled None, [CallGenerate i prompt; ConsoleError])
  end.

Section Loop.
Variable variations : list string.

Definition pause_after (i : nat) : list ui_event :=
  if i + batchSize <? length variations then [Pause 4000] else [].

(** The [for] loop (lines 27-68) from index [i] on; [fuel] bounds the
    iterations left.  The result is [newAssets] when the loop ends, or
    the error that left it. *)
Fixpoint batches (fuel i : nat) (newAssets : list GeneratedAsset)
  : outcome (list GeneratedAsset) * list ui_event :=
  match fuel with
  | O => (Fulfilled newAssets, [])
  | S fuel' =>
      if i <? length variations then
        let currentBatch := slice variations i (i + batchSize) in
        let '(settled, ev) :=
          Promise_all (imap (fun j p => fetch_item (i + j) p) currentBatch) in
        match settled with
        | Fulfilled results =>
            let successful := omap (fun r => r) results in
            let '(r, rest) :=
              batches fuel' (i + batchSize) (newAssets ++ successful) in
            (r, ev ++ [SetAssets successful;
                       SetProgress (js_progress (i + length currentBatch)
                                                (length variations))]
                   ++ pause_after i ++ rest)
        | Rejected batchErr =>
            if message_includes batchErr "429"
            then (Rejected batchErr, ev)
            else
              let '(r, rest) := batches fuel' (i + batchSize) newAssets in
              (r, ev ++ pause_after i ++ rest)
        end
      else (Fulfilled newAssets, [])
  end.
End Loop.

(** The [try] block (lines 19-72). *)
Definition try_block : outcome (list GeneratedAsset) * list ui_event :=
  match generatePromptVariations basePrompt type requestedCount with
  | Rejected err => (Rejected err, [CallVariations])
  | Fulfilled variations =>
      let '(r, ev) := batches variations (length variations) 0 [] in
      match r with
      | Rejected err => (Rejected err, CallVariations :: ev)
      | Fulfilled newAssets =>
          if length newAssets =? 0
          then (Rejected (Error_of msg_nothing_forged), CallVariations :: ev)
          else (Fulfilled newAssets, CallVariations :: ev)
      end
  end.

(** The [catch] block (lines 73-84). *)
Definition catch_block (err : Error) : list ui_event :=
  ConsoleError ::
  if message_includes err "Requested entity was not found"
  then [SetError (Some msg_authentication); OpenSelectKey]
  else if message_includes err "429" || status_is err "RESOURCE_EXHAUSTED"
  then [SetError (Some msg_rate_limit)]
  else [SetError (Some (or_default (message err) msg_generic))].

(** The [finally] block. *)
Definition finally_block : list ui_event :=
  [SetIsGenerating false; SetProgress 0%Z].

(** The run: the events it produces in order, and the [newAssets] it
    ended with (when it was not left by an error). *)
Definition handleGenerate : outcome (list GeneratedAsset) * list ui_event :=
  let '(r, ev) := try_block in
  (r, [SetIsGenerating true; SetProgress 0%Z; SetError None] ++ ev
      ++ match r with
         | Fulfilled _ => []
         | Rejected err => catch_block err
         end
      ++ finally_block).

End Orchestrator.

(** ** Vocabulary of the properties *)

(** The trace of a [withRetry] that calls the operation [n + 1] times from
    call [i] on: a call, then a sleep and a call for every retry. *)
Fixpoint backoff_trace (random : nat -> Q) (initialDelay : Q) (n i : nat)
  : list retry_event :=
  match n with
  | O => [Invoke i]
  | S n' =>
      Invoke i :: Sleep (delay_after random initialDelay i)
        :: backoff_trace random initialDelay n' (S i)
  end.

(** A call after which [withRetry] does not loop whatever attempts are
    left: it succeeded, or failed with an error that is not retried. *)
Definition settles {T} (r : outcome T) : bool :=
  match r with
  | Fulfilled _ => true
  | Rejected error => negb (isRateLimit error || isServerError error)
  end.

(** Sample oracles used to instantiate the properties: an operation that
    fails twice with a server error and then succeeds, and a jitter source
    that always draws one half. *)
Definition sample_operation (k : nat) : outcome nat :=
  if k <? 2 then Rejected (Error_of "HTTP 500") else Fulfilled k.

Definition sample_random (k : nat) : Q := 1 # 2.

(** The loop's test on pixel [p] of a buffer. *)
Definition keyed (data : list Z) (p : nat) : bool :=
  at_least_threshold (data !! (4 * p))
  && at_least_threshold (data !! (4 * p + 1))
  && at_least_threshold (data !! (4 * p + 2)).

(** *** Reading a run *)

(** The calls to [generateSingleAsset] in a trace, in order. *)
Definition calls (tr : list ui_event) : list (nat * string) :=
  omap (fun e => match e with
                 | CallGenerate i p => Some (i, p)
                 | _ => None
                 end) tr.

(** The assets handed to [setAssets] in a trace, in order of arrival. *)
Definition appended (tr : list ui_event) : list GeneratedAsset :=
  flat_map (fun e => match e with
                     | SetAssets successful => successful
                     | _ => []
                     end) tr.

(** The values handed to [setProgress] in a trace, in order. *)
Definition progress_updates (tr : list ui_event) : list Z :=
  omap (fun e => match e with
                 | SetProgress p => Some p
                 | _ => None
                 end) tr.

Definition is_call (e : ui_event) : bool :=
  match e with CallGenerate _ _ => true | _ => false end.

Definition is_append (e : ui_event) : bool :=
  match e with SetAssets _ => true | _ => false end.

(** The prompts [ps], numbered from [i] on. *)
Fixpoint indexed (i : nat) (ps : list string) : list (nat * string) :=
  match ps with
  | [] => []
  | p :: ps' => (i, p) :: indexed (S i) ps'
  end.

(** *** The loop, one item at a time

    With [batchSize = 1] an iteration handles exactly one prompt, and what
    happens is decided by how the fetch for that prompt settles. *)

Inductive item_result :=
| Got (a : GeneratedAsset)
| Skipped (err : Error)
| Aborted (err : Error).

Section SequentialReading.
Variable generateSingleAsset : nat -> string -> AssetType -> outcome string.
Variable random_id : nat -> string.
Variable now : nat -> Z.
Variable type : AssetType.

Definition settle_item (i : nat) (p : string) : item_result :=
  match generateSingleAsset i p type with
  | Fulfilled url =>
      Got (mkAsset (random_id i) url type p (now i) (AssetType_eqb type GIF))
  | Rejected err =>
      if message_includes err "429" then Aborted err else Skipped err
  end.

(** The events of the iteration for item [i] of [n]. *)
Definition item_events (n i : nat) (p : string) (r : item_result)
  : list ui_event :=
  match r with
  | Got a =>
      [CallGenerate i p; SetAssets [a]; SetProgress (js_progress (S i) n)]
        ++ (if S i <? n then [Pause 4000] else [])
  | Skipped _ =>
      [CallGenerate i p; ConsoleError; SetAssets [];
       SetProgress (js_progress (S i) n)]
        ++ (if S i <? n then [Pause 4000] else [])
  | Aborted _ => [CallGenerate i p; ConsoleError]
  end.

Definition got (r : item_result) : list GeneratedAsset :=
  match r with Got a => [a] | _ => [] end.

(** The loop over the prompts [ps] that remain, the first of them being
    item [i] of [n]. *)
Fixpoint run_items (n i : nat) (ps : list string)
    (newAssets : list GeneratedAsset)
  : outcome (list GeneratedAsset) * list ui_event :=
  match ps with
  | [] => (Fulfilled newAssets, [])
  | p :: ps' =>
      match settle_item i p with
      | Aborted err => (Rejected err, item_events n i p (Aborted err))
      | r =>
          let '(res, rest) := run_items n (S i) ps' (newAssets ++ got r) in
          (res, item_events n i p r ++ rest)
      end
  end.

(** How many of the prompts [ps] the loop gets through without being
    aborted, and how many fetches it makes (one more when it is aborted:
    the fetch that aborted it). *)
Fixpoint processed (i : nat) (ps : list string) : nat :=
  match ps with
  | [] => 0
  | p :: ps' =>
      match settle_item i p with
      | Aborted _ => 0
      | _ => S (processed (S i) ps')
      end
  end.

Fixpoint attempts (i : nat) (ps : list string) : nat :=
  match ps with
  | [] => 0
  | p :: ps' =>
      match settle_item i p with
      | Aborted _ => 1
      | _ => S (attempts (S i) ps')
      end
  end.

(** The assets a sequence of fetches yields, in the order of the
    fetches. *)
Definition arrivals (cs : list (nat * string)) : list GeneratedAsset :=
  flat_map (fun c => got (settle_item (fst c) (snd c))) cs.

(** The fetch for item [i] fails with an error whose message contains
    "429": the iteration rethrows it and the run stops. *)
Definition aborts (i : nat) (p : string) : bool :=
  match settle_item i p with
  | Aborted _ => true
  | _ => false
  end.

(** No item of [variations] numbered from [lo] up to (not including)
    [hi] aborts the run. *)
Definition none_aborts (variations : list string) (lo hi : nat) : Prop :=
  forall k q, lo <= k < hi -> variations !! k = Some q -> aborts k q = false.

End SequentialReading.

(** *** The run around the loop *)

(** What a run does before the loop starts and after it ends. *)
Definition prologue : list ui_event :=
  [SetIsGenerating true; SetProgress 0%Z; SetError None; CallVariations].

Definition epilogue (r : outcome (list GeneratedAsset)) : list ui_event :=
  match r with
  | Fulfilled _ => []
  | Rejected err => catch_block err
  end ++ finally_block.

(** The check after the loop: an empty [newAssets] is an error. *)
Definition check_forged (r : outcome (list GeneratedAsset))
  : outcome (list GeneratedAsset) :=
  match r with
  | Fulfilled newAssets =>
      if length newAssets =? 0 then Rejected (Error_of msg_nothing_forged)
      else Fulfilled newAssets
  | Rejected err => Rejected err
  end.

(** The message the [catch] block shows for an error. *)
Definition shown_message (err : Error) : string :=
  if message_includes err "Requested entity was not found"
  then msg_authentication
  else if message_includes err "429" || status_is err "RESOURCE_EXHAUSTED"
  then msg_rate_limit
  else or_default (message err) msg_generic.

(** Sample oracles for a run over three prompts in which the second fetch
    fails with [second_error] and the others succeed. *)
Definition sample_variations (basePrompt : string) (type : AssetType)
    (count : nat) : outcome (list string) :=
  Fulfilled [(basePrompt ++ " from above")%string;
             (basePrompt ++ " in blue")%string;
             (basePrompt ++ " close up")%string].

Definition sample_fetch (second_error : Error) (i : nat) (prompt : string)
    (type : AssetType) : outcome string :=
  match i with
  | 1 => Rejected second_error
  | _ => Fulfilled ("data:image/png;base64," ++ prompt)%string
  end.

(** A fetcher whose first fetch yields no image and whose second is
    answered "429". *)
Definition skip_then_throttle (i : nat) (prompt : string)
    (type : AssetType) : outcome string :=
  match i with
  | 0 => Rejected (Error_of "Failed to generate image data")
  | 1 => Rejected (Error_of "got status: 429 Too Many Requests")
  | _ => Fulfilled ("data:image/png;base64," ++ prompt)%string
  end.

Definition sample_id (i : nat) : string :=
  match i with 0 => "k3x9q0a1b" | 1 => "p07zzm2c4" | _ => "u5t8w1e6d" end.

Definition sample_now (i : nat) : Z := 1700000000000 + 4000 * Z.of_nat i.

Definition too_many_requests : Error :=
  Error_of "got status: 429 Too Many Requests".

Definition no_image : Error := Error_of "Failed to generate image data".

Definition quota_exhausted : Error :=
  {| message := Some "Quota exceeded for this project";
     status := Some "RESOURCE_EXHAUSTED" |}.

Definition throttled_entity : Error :=
  Error_of "429: Requested entity was not found".

Definition sample_run (second_error : Error)
  : outcome (list GeneratedAsset) * list ui_event :=
  handleGenerate sample_variations (sample_fetch second_error)
    sample_id sample_now "red balloon" STICKER.

(** The double-precision percentage agrees with the exact one for every
    item of every run of at most [N] prompts (a decidable check). *)
Definition progress_agrees_upto (N : nat) : bool :=
  forallb (fun n =>
             forallb (fun k => Z.eqb (js_progress k n) (exact_progress k n))
                     (seq 1 n))
          (seq 1 N).

(** Sample oracles for a run over [n] copies of the base prompt in which
    every fetch succeeds, or in which only the fetches from [first_ok] on
    succeed. *)
Definition copies_variations (n : nat) (basePrompt : string)
    (type : AssetType) (count : nat) : outcome (list string) :=
  Fulfilled (repeat basePrompt n).

Definition fetch_from (first_ok : nat) (i : nat) (prompt : string)
    (type : AssetType) : outcome string :=
  if i <? first_ok then Rejected no_image
  else Fulfilled ("data:image/png;base64," ++ prompt)%string.

(** Every [setAssets] of the trace adds at most one asset. *)
Definition one_at_a_time (tr : list ui_event) : Prop :=
  Forall (fun ev => match ev with
                    | SetAssets successful => length successful <= 1
                    | _ => True
                    end) tr.

(** *** A sample [JSON.parse]

    [JSON.parse] is the runtime's, and the model takes it as an oracle.  To
    run the model on concrete payloads, this is a parser for the texts the
    samples use: an array of strings (the only shape the response schema
    allows), the literal [null] and a single string literal, strings being
    written without escape sequences.  It is applied to such texts and to
    prose only, and takes any other text for a syntax error; [json_text]
    writes an array of strings. *)

Definition dquote : ascii := ascii_of_nat 34.
Definition backslash : ascii := ascii_of_nat 92.

Definition is_space (c : ascii) : bool :=
  match nat_of_ascii c with
  | 9 | 10 | 13 | 32 => true
  | _ => false
  end.

Inductive scan_state :=
| AtStart
| AfterOpen
| InString (chars : string)
| AfterString
| AfterComma
| AtEnd.

Fixpoint scan (st : scan_state) (acc : list string) (s : string)
  : option (list string) :=
  match s with
  | EmptyString =>
      match st with
      | AtEnd => Some (rev acc)
      | _ => None
      end
  | String c s' =>
      match st with
      | InString chars =>
          if Ascii.eqb c dquote then scan AfterString (chars :: acc) s'
          else if Ascii.eqb c backslash then None
          else scan (InString (chars ++ String c EmptyString)%string) acc s'
      | _ =>
          if is_space c then scan st acc s'
          else
            match st with
            | AtStart =>
                if Ascii.eqb c "[" then scan AfterOpen acc s' else None
            | AfterOpen =>
                if Ascii.eqb c dquote then scan (InString EmptyString) acc s'
                else if Ascii.eqb c "]" then scan AtEnd acc s'
                else None
            | AfterString =>
                if Ascii.eqb c "," then scan AfterComma acc s'
                else if Ascii.eqb c "]" then scan AtEnd acc s'
                else None
            | AfterComma =>
                if Ascii.eqb c dquote then scan (InString EmptyString) acc s'
                else None
            | InString _ | AtEnd => None
            end
      end
  end.

(** The text between the quotes of a string literal, the opening quote
    having been read. *)
Fixpoint string_body (s : string) : option string :=
  match s with
  | EmptyString => None
  | String c s' =>
      if Ascii.eqb c dquote
      then match s' with EmptyString => Some EmptyString | _ => None end
      else if Ascii.eqb c backslash then None
      else match string_body s' with
           | Some body => Some (String c body)
           | None => None
           end
  end.

Definition sample_JSON_parse (s : string) : option json :=
  match scan AtStart [] s with
  | Some l => Some (JArray (map JString l))
  | None =>
      if String.eqb s "null" then Some JNull
      else
        match s with
        | String c s' =>
            if Ascii.eqb c dquote
            then match string_body s' with
                 | Some body => Some (JString body)
                 | None => None
                 end
            else None
        | EmptyString => None
        end
  end.

(** The sample parser gives no object. *)
Definition sample_object_length (fields : list (string * json))
  : option bool := Some false.

Definition quoted (s : string) : string :=
  String dquote (s ++ String dquote EmptyString)%string.

Definition json_text (l : list string) : string :=
  ("[" ++ String.concat ", " (map quoted l) ++ "]")%string.

(** A response of the text service carrying [text], at every call. *)
Definition always_text (text : string) (k : nat) : outcome (option string) :=
  Fulfilled (Some text).

(** Twenty-one prompts, one more than is asked for. *)
Definition twenty_one_prompts : list string :=
  map (fun c => ("red balloon " ++ String c EmptyString)%string)
      (list_ascii_of_string "abcdefghijklmnopqrstu").

(** * The rest of the service module *)

(** ** [getSystemPrompt] *)

(** The string values of the [AssetType] enum. *)
Definition AssetType_value (type : AssetType) : string :=
  match type with
  | STICKER => "Sticker"
  | PNG_ELEMENT => "PNG Element"
  | GRAPHIC => "Graphic"
  | SHAPE_3D => "3D Shape"
  | MOCKUP => "Mockup"
  | PHOTO => "Photo"
  | STAMP => "Stamp"
  | GIF => "GIF (Motion)"
  end.

Definition isolationInstruction : string :=
  "isolated on a pure, solid, high-contrast #FFFFFF white background with no shadows, no gradients, and clean sharp edges".

Definition getSystemPrompt (type : AssetType) (userPrompt : string) : string :=
  match type with
  | STICKER =>
      "Die-cut sticker of " ++ userPrompt
        ++ ", bold white border around the shape, high quality illustration, vibrant colors, "
        ++ isolationInstruction ++ ", 4k, vector style."
  | PNG_ELEMENT =>
      "High resolution isolated object of " ++ userPrompt
        ++ ", professional asset, clean edges, studio lighting, "
        ++ isolationInstruction ++ ", stock asset style."
  | GRAPHIC =>
      "Minimalist vector graphic illustration of " ++ userPrompt
        ++ ", modern design aesthetic, clean lines, flat colors, "
        ++ isolationInstruction ++ "."
  | SHAPE_3D =>
      "3D render of " ++ userPrompt
        ++ ", claymation or polished plastic style, soft studio lighting, high detail, volumetric shadows ONLY on the object itself, "
        ++ isolationInstruction ++ ", octane render."
  | MOCKUP =>
      "Professional product mockup of " ++ userPrompt
        ++ ", clean composition, commercial photography style, minimalist surrounding, photorealistic, 4k."
  | PHOTO =>
      "High-quality professional photography of " ++ userPrompt
        ++ ", natural lighting, shallow depth of field, 8k resolution, cinematic composition."
  | STAMP =>
      "Retro postal stamp or rubber stamp design featuring " ++ userPrompt
        ++ ", textured ink effect, vintage aesthetic, "
        ++ isolationInstruction ++ "."
  | GIF =>
      "A looping animation of " ++ userPrompt
        ++ ", high quality motion graphics, smooth transitions, isolated background."
  end%string.

(** The types whose image is passed through [removeWhiteBackground]
    (lines 177-185). *)
Definition transparentTypes : list AssetType :=
  [STICKER; PNG_ELEMENT; GRAPHIC; SHAPE_3D; STAMP].

(** [transparentTypes.includes(type)] *)
Definition is_transparent (type : AssetType) : bool :=
  existsb (AssetType_eqb type) transparentTypes.

(** The characters of a string. *)
Definition has_char (c : ascii) (s : string) : bool :=
  existsb (Ascii.eqb c) (list_ascii_of_string s).

(** ** [generateSingleAsset] *)

(** The parts of the service's answers that the code reads.  Every field
    is read through optional chaining or may be missing, hence the
    options. *)
Module Genai.

Record InlineData := { data : option string }.
Record Part := { inlineData : option InlineData }.
Record Content := { parts : option (list Part) }.
Record Candidate := { content : option Content }.
Record Response := { candidates : option (list Candidate) }.

(** A video operation: [done], and
    [response?.generatedVideos?.[0]?.video?.uri]. *)
Record Operation := { done : bool; uri : option string }.

End Genai.

(** A value that may be [undefined], as a template literal prints it. *)
Definition interpolate (x : option string) : string :=
  match x with
  | Some s => s
  | None => "undefined"
  end.

(** [response.candidates?.[0]?.content?.parts || []] *)
Definition response_parts (response : Genai.Response) : list Genai.Part :=
  match Genai.candidates response with
  | Some (candidate :: _) =>
      match Genai.content candidate with
      | Some c =>
          match Genai.parts c with
          | Some ps => ps
          | None => []
          end
      | None => []
      end
  | Some [] | None => []
  end.

(** The loop over the parts (lines 168-173): the first part that has
    inline data. *)
Fixpoint first_inline (ps : list Genai.Part) : option Genai.InlineData :=
  match ps with
  | [] => None
  | part :: ps' =>
      match Genai.inlineData part with
      | Some d => Some d
      | None => first_inline ps'
      end
  end.

Definition msg_no_image_data : string := "Failed to generate image data".

(** The calls [generateSingleAsset] wraps in [withRetry], and what it does
    that can be observed. *)
Inductive service_call :=
| VideoSubmit
| VideoPoll (j : nat)
| ImageRequest.

Inductive service_event :=
| KeyQuery
| KeySelect
| Retried (c : service_call) (e : retry_event)
| PollWait (ms : Z)
| Download (url : string).

Section AssetFetcher.

(** [window.aistudio] *)
Variable hasSelectedApiKey : outcome bool.
Variable openSelectKey : outcome unit.
(** [process.env.API_KEY] *)
Variable API_KEY : option string.
(** [ai.models.generateVideos], [ai.operations.getVideosOperation] (for
    the [j]-th poll) and [ai.models.generateContent], each at its [k]-th
    call within one use of [withRetry]. *)
Variable generateVideos : string -> nat -> outcome Genai.Operation.
Variable getVideosOperation : nat -> nat -> outcome Genai.Operation.
Variable generateContent : string -> nat -> outcome Genai.Response.
(** The jitter draws of each use of [withRetry]. *)
Variable random : service_call -> nat -> Q.
(** [fetch(url)] followed by [response.blob()] and
    [URL.createObjectURL(blob)]: the object URL, or the error of the fetch
    or of reading the body. *)
Variable fetch_object_url : string -> outcome string.
(** The image decoder and encoder of [removeWhiteBackground]. *)
Variable decode : string -> decoded.
Variable toDataURL : ImageData -> string.

Definition retried {T : Type} (c : service_call) (fn : nat -> outcome T)
  : outcome T * list service_event :=
  let '(r, tr) := withRetry fn (random c) defaultMaxRetries defaultInitialDelay in
  (r, map (Retried c) tr).

(** The polling loop (lines 148-151) from the [j]-th poll on.  The source
    loops for as long as the operation is not done; [fuel] bounds the
    polls, and [None] means the loop is still running when it is used
    up. *)
Fixpoint poll_until_done (fuel j : nat) (operation : Genai.Operation)
  : option (outcome Genai.Operation * list service_event) :=
  if Genai.done operation then Some (Fulfilled operation, [])
  else
    match fuel with
    | O => None
    | S fuel' =>
        let '(r, tr) := retried (VideoPoll j) (getVideosOperation j) in
        match r with
        | Rejected err => Some (Rejected err, PollWait 15000 :: tr)
        | Fulfilled operation' =>
            match poll_until_done fuel' (S j) operation' with
            | Some (r', tr') => Some (r', PollWait 15000 :: tr ++ tr')
            | None => None
            end
        end
    end.

(** The motion branch (lines 131-156), after the key has been dealt
    with. *)
Definition generate_video (fuel : nat) (finalPrompt : string)
  : option (outcome string * list service_event) :=
  let '(r, tr) := retried VideoSubmit (generateVideos finalPrompt) in
  match r with
  | Rejected err => Some (Rejected err, tr)
  | Fulfilled operation =>
      match poll_until_done fuel 0 operation with
      | None => None
      | Some (Rejected err, tr') => Some (Rejected err, tr ++ tr')
      | Some (Fulfilled operation', tr') =>
          let url := (interpolate (Genai.uri operation') ++ "&key="
                        ++ interpolate API_KEY)%string in
          Some (fetch_object_url url, tr ++ tr' ++ [Download url])
      end
  end.

(** The still branch (lines 158-189). *)
Definition generate_image (finalPrompt : string) (type : AssetType)
  : outcome string * list service_event :=
  let '(r, tr) := retried ImageRequest (generateContent finalPrompt) in
  match r with
  | Rejected err => (Rejected err, tr)
  | Fulfilled response =>
      match first_inline (response_parts response) with
      | None => (Rejected (Error_of msg_no_image_data), tr)
      | Some d =>
          let imageUrl :=
            ("data:image/png;base64," ++ interpolate (Genai.data d))%string in
          if is_transparent type
          then (Fulfilled (removeWhiteBackground decode toDataURL imageUrl), tr)
          else (Fulfilled imageUrl, tr)
      end
  end.

Definition generateSingleAsset (fuel : nat) (prompt : string)
    (type : AssetType) : option (outcome string * list service_event) :=
  let finalPrompt := getSystemPrompt type prompt in
  if AssetType_eqb type GIF then
    match hasSelectedApiKey with
    | Rejected err => Some (Rejected err, [KeyQuery])
    | Fulfilled true =>
        match generate_video fuel finalPrompt with
        | Some (r, tr) => Some (r, KeyQuery :: tr)
        | None => None
        end
    | Fulfilled false =>
        match openSelectKey with
        | Rejected err => Some (Rejected err, [KeyQuery; KeySelect])
        | Fulfilled _ =>
            match generate_video fuel finalPrompt with
            | Some (r, tr) => Some (r, KeyQuery :: KeySelect :: tr)
            | None => None
            end
        end
    end
  else Some (generate_image finalPrompt type).

End AssetFetcher.

(** Counting in a service trace: the calls of the image model, the
    status polls, and the waits of the polling loop. *)
Definition is_image_call (e : service_event) : bool :=
  match e with Retried ImageRequest (Invoke _) => true | _ => false end.

Definition is_poll_call (e : service_event) : bool :=
  match e with Retried (VideoPoll _) (Invoke _) => true | _ => false end.

Definition is_poll_wait (e : service_event) : bool :=
  match e with PollWait _ => true | _ => false end.

Definition is_key_select (e : service_event) : bool :=
  match e with KeySelect => true | _ => false end.

Definition is_download (e : service_event) : bool :=
  match e with Download _ => true | _ => false end.

Definition count_events (f : service_event -> bool)
    (tr : list service_event) : nat :=
  length (List.filter f tr).

(** What [n] rounds of the polling loop do, from the [j]-th poll on: each
    round waits 15000 ms and then polls, through [withRetry]. *)
Fixpoint polls_from (getVideosOperation : nat -> nat -> outcome Genai.Operation)
    (random : service_call -> nat -> Q) (j n : nat) : list service_event :=
  match n with
  | O => []
  | S n' =>
      PollWait 15000
        :: snd (retried random (VideoPoll j) (getVideosOperation j))
        ++ polls_from getVideosOperation random (S j) n'
  end.

(** The fetch the orchestrator makes for item [i] of a still type: the
    still branch of [generateSingleAsset], the service and the jitter
    being those met while item [i] is fetched. *)
Definition still_asset
    (generateContent : nat -> string -> nat -> outcome Genai.Response)
    (random : nat -> service_call -> nat -> Q)
    (decode : string -> decoded) (toDataURL : ImageData -> string)
    (i : nat) (prompt : string) (type : AssetType) : outcome string :=
  fst (generate_image (generateContent i) (random i) decode toDataURL
         (getSystemPrompt type prompt) type).

(** Sample answers of the image model: one inline image, and none. *)
Definition image_response (data : string) : Genai.Response :=
  {| Genai.candidates :=
       Some [{| Genai.content :=
                  Some {| Genai.parts :=
                            Some [{| Genai.inlineData := None |};
                                  {| Genai.inlineData :=
                                       Some {| Genai.data := Some data |} |}]
                       |} |}] |}.

Definition text_only_response : Genai.Response :=
  {| Genai.candidates :=
       Some [{| Genai.content :=
                  Some {| Genai.parts :=
                            Some [{| Genai.inlineData := None |}] |} |}] |}.

Definition sample_jitter (c : service_call) (k : nat) : Q := 1 # 4.

Definition no_decoder (dataUrl : string) : decoded := LoadError.

Definition no_encoder (img : ImageData) : string := "data:image/png;base64,".

(** Sample video operations: the status poll reports the job done, with
    its download link, from the second poll on. *)
Definition sample_video_operation (k : nat) : Genai.Operation :=
  {| Genai.done := 2 <=? k;
     Genai.uri := if 2 <=? k then Some "https://video.example/v1"
                  else None |}.

Definition sample_object_url (url : string) : outcome string :=
  Fulfilled ("blob:" ++ url)%string.

(** * The HTTP endpoints and their client *)

Module Http.

(** What an endpoint answers: a status and a JSON object, of which the
    code only ever uses these three fields. *)
Record Payload := {
  error : option string;
  variations : option Js.json;
  image : option string
}.

Record Response := { status : nat; json : Payload }.

Definition error_body (msg : string) : Payload :=
  {| error := Some msg; variations := None; image := None |}.

(** [res.status(code).json(payload)] *)
Definition respond (code : nat) (payload : Payload) : Response :=
  {| status := code; json := payload |}.

(** [response.ok] *)
Definition ok (response : Response) : bool :=
  (200 <=? status response) && (status response <=? 299).

(** The body of a request, as the endpoints destructure it
    ([req.body || {}]): either field may be missing. *)
Record VariationsBody := { prompt : option string; count : option nat }.
Record GenerateBody := { gprompt : option string; gtype : option string }.

Record Request (Body : Type) := { method : string; body : option Body }.
Arguments method {Body} _.
Arguments body {Body} _.

End Http.

(** [!x] for a string that may be missing. *)
Definition falsy (x : option string) : bool :=
  match x with
  | Some EmptyString | None => true
  | Some _ => false
  end.

(** What an endpoint does besides answering. *)
Inductive api_event :=
| UpstreamVariations (count : nat) (prompt : string)
| UpstreamImage (prompt : string)
| Logged.

Section Endpoints.

(** [JSON.parse]: the value parsed, or [None] for the syntax error it
    throws. *)
Variable JSON_parse : string -> option json.
(** The text model asked for [count] variations of [prompt], and the
    image model asked for [prompt]. *)
Variable generateVariations : nat -> string -> outcome (option string).
Variable generateImage : string -> outcome Genai.Response.

(** [api/variations.js] *)
Definition variations_handler (req : Http.Request Http.VariationsBody)
  : Http.Response * list api_event :=
  if negb (String.eqb (Http.method req) "POST")
  then (Http.respond 405 (Http.error_body "Method not allowed"), [])
  else
    let prompt := Http.body req ≫= Http.prompt in
    let count := default 10 (Http.body req ≫= Http.count) in
    if falsy prompt
    then (Http.respond 400 (Http.error_body "Missing prompt"), [])
    else
      match generateVariations count (or_default prompt EmptyString) with
      | Rejected err =>
          (Http.respond 500 (Http.error_body "Variation generation failed"),
           [UpstreamVariations count (or_default prompt EmptyString); Logged])
      | Fulfilled text =>
          match JSON_parse (or_default text "[]") with
          | None =>
              (Http.respond 500
                 (Http.error_body "Variation generation failed"),
               [UpstreamVariations count (or_default prompt EmptyString); Logged])
          | Some variations =>
              (Http.respond 200
                 {| Http.error := None; Http.variations := Some variations;
                    Http.image := None |},
               [UpstreamVariations count (or_default prompt EmptyString)])
          end
      end.

(** The loop over the parts in the image endpoint: [imageBase64] starts
    as the empty string and takes the [data] of the first part that has
    inline data, whatever that [data] is. *)
Definition first_inline_data (ps : list Genai.Part) : option string :=
  match first_inline ps with
  | Some d => Genai.data d
  | None => Some EmptyString
  end.

(** The image endpoint ([api/generate]). *)
Definition generate_handler (req : Http.Request Http.GenerateBody)
  : Http.Response * list api_event :=
  if negb (String.eqb (Http.method req) "POST")
  then (Http.respond 405 (Http.error_body "Method not allowed"), [])
  else
    let prompt := Http.body req ≫= Http.gprompt in
    let type := Http.body req ≫= Http.gtype in
    if falsy prompt || falsy type
    then (Http.respond 400 (Http.error_body "Missing prompt or type"), [])
    else
      match generateImage (or_default prompt EmptyString) with
      | Rejected err =>
          (Http.respond 500 (Http.error_body "Generation failed"),
           [UpstreamImage (or_default prompt EmptyString); Logged])
      | Fulfilled response =>
          let imageBase64 := first_inline_data (response_parts response) in
          if falsy imageBase64
          then (Http.respond 500 (Http.error_body "No image generated"),
                [UpstreamImage (or_default prompt EmptyString)])
          else (Http.respond 200
                  {| Http.error := None; Http.variations := None;
                     Http.image :=
                       Some ("data:image/png;base64,"
                               ++ or_default imageBase64 EmptyString)%string |},
                [UpstreamImage (or_default prompt EmptyString)])
      end.

End Endpoints.

(** The client of the endpoints.  [post_generate] and [post_variations]
    stand for [fetch] with method POST and the JSON body shown, followed
    by [response.json()]: they give the endpoint's answer, or fail when
    the request cannot be made. *)
Section Client.

Variable post_generate
  : Http.Request Http.GenerateBody -> outcome Http.Response.
Variable post_variations
  : Http.Request Http.VariationsBody -> outcome Http.Response.

Definition client_generateSingleAsset (prompt : string) (type : AssetType)
  : outcome (option string) :=
  match post_generate
          {| Http.method := "POST";
             Http.body := Some {| Http.gprompt := Some prompt;
                                  Http.gtype := Some (AssetType_value type) |} |}
  with
  | Rejected err => Rejected err
  | Fulfilled response =>
      if Http.ok response then Fulfilled (Http.image (Http.json response))
      else Rejected (Error_of "Failed to generate asset")
  end.

Definition client_generatePromptVariations (prompt : string)
    (type : AssetType) (count : option nat) : outcome (option json) :=
  match post_variations
          {| Http.method := "POST";
             Http.body := Some {| Http.prompt := Some prompt;
                                  Http.count := Some (default 10 count) |} |}
  with
  | Rejected err => Rejected err
  | Fulfilled response =>
      if Http.ok response then Fulfilled (Http.variations (Http.json response))
      else Rejected (Error_of "Failed to generate variations")
  end.

End Client.

(** A value after [res.json] has written it with [JSON.stringify] and
    [response.json()] has read it back: a number that is not finite is
    written [null], a negative zero is written [0], and every other value
    comes back as it was. *)
Fixpoint on_the_wire (v : json) : json :=
  match v with
  | JNumber x =>
      match Prim2SF x with
      | S754_zero _ => JNumber 0%float
      | S754_finite _ _ _ => JNumber x
      | S754_infinity _ | S754_nan => JNull
      end
  | JArray items => JArray (map on_the_wire items)
  | JObject fields =>
      JObject (map (fun field => (fst field, on_the_wire (snd field))) fields)
  | JNull | JBool _ | JString _ => v
  end.

Definition payload_on_the_wire (payload : Http.Payload) : Http.Payload :=
  {| Http.error := Http.error payload;
     Http.variations := on_the_wire <$> Http.variations payload;
     Http.image := Http.image payload |}.

(** The client talking to an endpoint that runs in the same process: the
    request always gets through, and the answer is the endpoint's, its
    payload having gone over the wire. *)
Definition in_process {Body : Type}
    (handler : Http.Request Body -> Http.Response * list api_event)
    (req : Http.Request Body) : outcome Http.Response :=
  Fulfilled
    (Http.respond (Http.status (fst (handler req)))
       (payload_on_the_wire (Http.json (fst (handler req))))).

Definition is_upstream (e : api_event) : bool :=
  match e with
  | UpstreamVariations _ _ | UpstreamImage _ => true
  | Logged => false
  end.

(** * Reading the rest of a run *)


(** The events that set the busy flag or the error message. *)
Definition is_flag (e : ui_event) : bool :=
  match e with
  | SetIsGenerating _ | SetError _ => true
  | _ => false
  end.

(** The component shows a run in progress and no error. *)
Definition busy (s : AppState) : bool :=
  isGenerating s && match error s with None => true | Some _ => false end.

(** [P] holds of the state in which each fetch of the trace is made. *)
Fixpoint at_calls (P : AppState -> bool) (s : AppState)
    (tr : list ui_event) : bool :=
  match tr with
  | [] => true
  | e :: tr' =>
      (if is_call e then P s else true) && at_calls P (apply_event s e) tr'
  end.

(** * The form and its daily allowance ([GeneratorForm]) *)

(** What a submission of the form does besides updating the form. *)
Inductive form_effect :=
| Alert (msg : string)
| OnGenerate (prompt : string) (type : AssetType).

Definition msg_allowance : string :=
  "You have reached your 3 free generations for today. Come back tomorrow!".

(** The [clicks] state of the form (a JavaScript number) and the browser's
    [localStorage]. *)
Record FormState := {
  clicks : float;
  localStorage : gmap string string
}.

(** A submission: the prompt typed, the type selected, and the
    [isGenerating] flag the form is rendered with. *)
Record Submission := {
  typed : string;
  selected : AssetType;
  rendered_busy : bool
}.

Section GeneratorForm.

(** [parseInt], [Number.prototype.toString] and [String.prototype.trim]
    are the runtime's. *)
Variable parseInt : string -> float.
Variable toString : float -> string.
Variable trim : string -> string.

(** The effect run once when the form is mounted; [today] is
    [new Date().toDateString()]. *)
Definition mount (today : string) (storage : gmap string string)
  : FormState :=
  if decide (storage !! "last_date" = Some today)
  then {| clicks := parseInt (or_default (storage !! "daily_clicks") "0");
          localStorage := storage |}
  else {| clicks := 0%float;
          localStorage :=
            <["last_date" := today]> (<["daily_clicks" := "0"]> storage) |}.

(** [handleSubmit], for a form rendered with the state [st]. *)
Definition handleSubmit (sub : Submission) (st : FormState)
  : FormState * list form_effect :=
  if String.eqb (trim (typed sub)) EmptyString || rendered_busy sub then (st, [])
  else if PrimFloat.leb 3%float (clicks st)
  then (st, [Alert msg_allowance])
  else
    let newClicks := PrimFloat.add (clicks st) 1%float in
    ({| clicks := newClicks;
        localStorage :=
          <["daily_clicks" := toString newClicks]> (localStorage st) |},
     [OnGenerate (typed sub) (selected sub)]).

(** Submissions one after the other, the form being rendered again after
    each. *)
Fixpoint submit_all (subs : list Submission) (st : FormState)
  : FormState * list form_effect :=
  match subs with
  | [] => (st, [])
  | sub :: subs' =>
      let '(st', effects) := handleSubmit sub st in
      let '(st'', rest) := submit_all subs' st' in
      (st'', effects ++ rest)
  end.

(** The submissions that pass the first test of [handleSubmit]: a prompt
    that is not blank, in a form that is not busy. *)
Definition passes (sub : Submission) : bool :=
  negb (String.eqb (trim (typed sub)) EmptyString || rendered_busy sub).

Definition requests (subs : list Submission) : list (string * AssetType) :=
  map (fun sub => (typed sub, selected sub)) (List.filter passes subs).

End GeneratorForm.

(** The calls of [onGenerate] among the effects, in order. *)
Definition generations (effects : list form_effect)
  : list (string * AssetType) :=
  omap (fun e => match e with
                 | OnGenerate prompt type => Some (prompt, type)
                 | Alert _ => None
                 end) effects.

Definition alerts (effects : list form_effect) : list string :=
  omap (fun e => match e with
                 | Alert msg => Some msg
                 | OnGenerate _ _ => None
                 end) effects.

(** Sample number conversions, right on the counts the form can reach
    from zero, and a [trim] for prompts without outer blanks. *)
Definition sample_parseInt (s : string) : float :=
  if String.eqb s "1" then 1%float
  else if String.eqb s "2" then 2%float
  else if String.eqb s "3" then 3%float
  else if String.eqb s "0" then 0%float
  else PrimFloat.nan.

Definition sample_toString (x : float) : string :=
  if PrimFloat.eqb x 1%float then "1"
  else if PrimFloat.eqb x 2%float then "2"
  else if PrimFloat.eqb x 3%float then "3"
  else if PrimFloat.eqb x 0%float then "0"
  else "NaN".

Definition sample_trim (s : string) : string := s.

Definition sample_submissions : list Submission :=
  [ {| typed := "cats"; selected := STICKER; rendered_busy := false |};
    {| typed := EmptyString; selected := STICKER; rendered_busy := false |};
    {| typed := "dogs"; selected := PHOTO; rendered_busy := false |};
    {| typed := "owls"; selected := PHOTO; rendered_busy := true |};
    {| typed := "bees"; selected := GIF; rendered_busy := false |};
    {| typed := "ants"; selected := STAMP; rendered_busy := false |} ].

(** * Properties *)

(** ** The retry wrapper *)

Section WithRetryFacts.
Context {T : Type}.
Variable fn : nat -> outcome T.
Variable random : nat -> Q.
Variable maxRetries : nat.
Variable initialDelay : Q.

Lemma withRetry_from_shape (fuel : nat) :
  forall i,
    fuel + i = maxRetries -> 0 < fuel ->
    exists m,
      i <= m < maxRetries /\
      fst (withRetry_from fn random maxRetries fuel i
             (delay_after random initialDelay i)) = fn m /\
      snd (withRetry_from fn random maxRetries fuel i
             (delay_after random initialDelay i))
        = backoff_trace random initialDelay (m - i) i /\
      (forall k, i <= k < m ->
                 exists e, fn k = Rejected e /\
                           (isRateLimit e || isServerError e) = true) /\
      (m < maxRetries - 1 -> settles (fn m) = true).
Proof.
  induction fuel as [|fuel IH]; intros i Hsum Hpos; [lia|].
  assert (Hhere : forall r : outcome T,
             fn i = r -> (i < maxRetries - 1 -> settles r = true) ->
             exists m,
               i <= m < maxRetries /\ r = fn m /\
               [Invoke i] = backoff_trace random initialDelay (m - i) i /\
               (forall k, i <= k < m ->
                          exists e, fn k = Rejected e /\
                                    (isRateLimit e || isServerError e) = true) /\
               (m < maxRetries - 1 -> settles (fn m) = true)).
  { intros r Hr Hs. exists i. rewrite Nat.sub_diag, Hr.
    split; [lia|]. split; [done|]. split; [done|]. split; [|done].
    intros k Hk. lia. }
  cbn [withRetry_from].
  destruct (fn i) as [v|e] eqn:Hfn.
  - cbn [fst snd]. by apply Hhere.
  - destruct (isRateLimit e || isServerError e) eqn:Hretry;
      destruct (i <? maxRetries - 1) eqn:Hlt; cbn [andb fst snd].
    + apply Nat.ltb_lt in Hlt.
      destruct (IH (S i)) as (m & Hm & Hres & Htr & Hprev & Hstop);
        [lia | lia |].
      cbn [delay_after] in Hres, Htr.
      destruct (withRetry_from fn random maxRetries fuel (S i) _) as [r tr].
      cbn [fst snd] in *.
      exists m. split; [lia|]. split; [exact Hres|]. split.
      * replace (m - i) with (S (m - S i)) by lia.
        cbn [backoff_trace]. by rewrite Htr.
      * split; [|exact Hstop].
        intros k Hk. destruct (decide (k = i)) as [->|Hne].
        -- exists e. by split.
        -- apply Hprev. lia.
    + apply Nat.ltb_ge in Hlt. apply Hhere; [done|lia].
    + apply Hhere; [done|]. intros _. cbn. by rewrite Hretry.
    + apply Hhere; [done|]. intros _. cbn. by rewrite Hretry.
Qed.

Lemma invocations_backoff_trace (n i : nat) :
  invocations (backoff_trace random initialDelay n i) = seq i (S n).
Proof.
  revert i. induction n as [|n IH]; intros i; [done|].
  cbn [backoff_trace seq]. unfold invocations in *. cbn.
  f_equal. apply IH.
Qed.

Lemma delay_after_step (k : nat) :
  (0 <= random k < 1)%Q ->
  (delay_after random initialDelay k * 2
     <= delay_after random initialDelay (S k)
     <= delay_after random initialDelay k * 2 + 1000)%Q.
Proof. intros [Hlo Hhi]. cbn [delay_after]. split; lra. Qed.

End WithRetryFacts.

(** C9 (as amended).  [withRetry] with its default arguments (5 attempts,
    4000 ms).  Let [m] be the number of the last call made.  Then [m < 5],
    so the operation is called at most five times; the calls are numbered
    [0 .. m] and, between two of them, exactly one sleep of
    [delay_after k] happens, where the first delay is 4000 and each delay
    is twice the one before plus a jitter of at most 1000.  A call is
    followed by another exactly when it is not the fifth and it failed
    with an error that passes one of the wrapper's four tests: its message
    contains "429", its status is "RESOURCE_EXHAUSTED", its message
    contains "500", or its message contains "Rpc failed".  These tests on
    the text are the whole classification.  The result is that of the last
    call, so a failure that passes none of the tests propagates at once,
    and so does the fifth failure. *)
Theorem withRetry_contract {T : Type}
    (fn : nat -> outcome T) (random : nat -> Q) :
  (forall k, 0 <= random k < 1)%Q ->
  exists m,
    m < defaultMaxRetries /\
    fst (withRetry fn random defaultMaxRetries defaultInitialDelay) = fn m /\
    snd (withRetry fn random defaultMaxRetries defaultInitialDelay)
      = backoff_trace random defaultInitialDelay m 0 /\
    invocations (snd (withRetry fn random defaultMaxRetries defaultInitialDelay))
      = seq 0 (S m) /\
    (forall k, k < m ->
               exists e,
                 fn k = Rejected e /\
                 (message_includes e "429"
                  || status_is e "RESOURCE_EXHAUSTED"
                  || message_includes e "500"
                  || message_includes e "Rpc failed") = true) /\
    (forall k e, k <= m -> fn k = Rejected e ->
                 (message_includes e "429"
                  || status_is e "RESOURCE_EXHAUSTED"
                  || message_includes e "500"
                  || message_includes e "Rpc failed") = false ->
                 k = m) /\
    (forall e, fn m = Rejected e ->
               (message_includes e "429"
                || status_is e "RESOURCE_EXHAUSTED"
                || message_includes e "500"
                || message_includes e "Rpc failed") = true ->
               S m = defaultMaxRetries) /\
    delay_after random defaultInitialDelay 0 = 4000%Q /\
    (forall k,
        (delay_after random defaultInitialDelay k * 2
           <= delay_after random defaultInitialDelay (S k)
           <= delay_after random defaultInitialDelay k * 2 + 1000)%Q).
Proof.
  intros Hrandom.
  assert (Htests : forall e,
             (message_includes e "429" || status_is e "RESOURCE_EXHAUSTED"
              || message_includes e "500" || message_includes e "Rpc failed")
             = (isRateLimit e || isServerError e)).
  { intros e. unfold isRateLimit, isServerError. by rewrite orb_assoc. }
  destruct (withRetry_from_shape fn random defaultMaxRetries
              defaultInitialDelay defaultMaxRetries 0)
    as (m & Hm & Hres & Htr & Hprev & Hstop); [done | unfold defaultMaxRetries; lia |].
  cbn [delay_after] in Hres, Htr. rewrite Nat.sub_0_r in Htr.
  exists m. unfold withRetry.
  split; [lia|]. split; [exact Hres|]. split; [exact Htr|].
  split; [rewrite Htr; apply invocations_backoff_trace|].
  split.
  { intros k Hk. destruct (Hprev k) as (e & He & Hyes); [lia|].
    exists e. by rewrite Htests. }
  split.
  { intros k e Hk Hfn Hno. rewrite Htests in Hno.
    destruct (decide (k = m)) as [|Hne]; [done|].
    destruct (Hprev k) as (e' & He' & Hyes); [lia|].
    congruence. }
  split.
  { intros e He Hyes. rewrite Htests in Hyes.
    destruct (decide (S m = defaultMaxRetries)) as [|Hne]; [done|].
    exfalso. unfold defaultMaxRetries in *.
    specialize (Hstop ltac:(lia)). rewrite He in Hstop.
    cbn [settles] in Hstop. by rewrite Hyes in Hstop. }
  split; [done|].
  intros k. apply delay_after_step, Hrandom.
Qed.

(** The contract at a concrete operation: two failures whose message
    contains "500", then a value; every jitter draw is one half.  The
    operation is called three times, after waits of 4000 and 8500 ms. *)
Lemma withRetry_contract_witness :
  withRetry sample_operation sample_random
    defaultMaxRetries defaultInitialDelay
  = (Fulfilled 2,
     [Invoke 0; Sleep 4000; Invoke 1; Sleep (4000 * 2 + (1 # 2) * 1000);
      Invoke 2]).
Proof.
  assert (Hrandom : forall k : nat, (0 <= sample_random k < 1)%Q).
  { intros k. split; [discriminate | reflexivity]. }
  destruct (withRetry_contract sample_operation sample_random Hrandom)
    as (m & Hm & Hres & Htr & _).
  assert (Hvalue : fst (withRetry sample_operation sample_random
                          defaultMaxRetries defaultInitialDelay)
                   = Fulfilled 2) by (vm_compute; reflexivity).
  assert (m = 2) as ->.
  { rewrite Hvalue in Hres. unfold defaultMaxRetries in Hm.
    assert (Hcases : m = 0 \/ m = 1 \/ m = 2 \/ m = 3 \/ m = 4) by lia.
    destruct Hcases as [->|[->|[->|[->| ->]]]]; (done || discriminate Hres). }
  destruct (withRetry sample_operation sample_random
              defaultMaxRetries defaultInitialDelay) as [r tr].
  cbn [fst snd] in Hres, Htr. by rewrite Hres, Htr.
Defined.

(** C9 as stated fails on both sides of "transient server error (5xx /
    transport failure)".  A failure with another 5xx code, and a failure
    of the transport, pass none of the wrapper's tests: the operation is
    called once and the error propagates.  And a failure that is neither,
    but whose message happens to contain "500", is retried until the five
    attempts are used up. *)
Lemma server_error_claim_counterexample :
  withRetry (fun _ => @Rejected nat (Error_of "503 Service Unavailable"))
    sample_random defaultMaxRetries defaultInitialDelay
  = (Rejected (Error_of "503 Service Unavailable"), [Invoke 0])
  /\ withRetry (fun _ => @Rejected nat (Error_of "TypeError: Failed to fetch"))
       sample_random defaultMaxRetries defaultInitialDelay
     = (Rejected (Error_of "TypeError: Failed to fetch"), [Invoke 0])
  /\ invocations
       (snd (withRetry
               (fun _ => @Rejected nat
                           (Error_of "400 Bad Request: prompt exceeds 1500 characters"))
               sample_random defaultMaxRetries defaultInitialDelay))
     = [0; 1; 2; 3; 4].
Proof.
  split; [vm_compute; reflexivity|].
  split; vm_compute; reflexivity.
Qed.

(** ** The background stripper *)

Lemma strip_from_length (fuel : nat) :
  forall i (data : list Z), length (strip_from fuel i data) = length data.
Proof.
  induction fuel as [|fuel IH]; intros i data; [done|].
  cbn [strip_from]. destruct (i <? length data); [|done].
  rewrite IH. destruct (_ && _); [apply length_insert | done].
Qed.

(** Writing an alpha byte does not change what the test reads. *)
Lemma keyed_insert_alpha (data : list Z) (q p : nat) (v : Z) :
  keyed (<[4 * q + 3 := v]> data) p = keyed data p.
Proof.
  unfold keyed. by rewrite !list_lookup_insert_ne by lia.
Qed.

(** Channel [c] of pixel [p] after the loop has run from pixel [q] on:
    only the alpha bytes of the tested pixels are overwritten. *)
Lemma strip_from_lookup (fuel : nat) :
  forall q (data : list Z),
    length data <= 4 * q + 4 * fuel ->
    forall p c, c < 4 ->
      strip_from fuel (4 * q) data !! (4 * p + c)
      = if (c =? 3) && (q <=? p) && keyed data p
        then (fun _ => 0%Z) <$> data !! (4 * p + c)
        else data !! (4 * p + c).
Proof.
  assert (Hdone : forall q (data : list Z) p c,
             length data <= 4 * q ->
             data !! (4 * p + c)
             = if (c =? 3) && (q <=? p) && keyed data p
               then (fun _ => 0%Z) <$> data !! (4 * p + c)
               else data !! (4 * p + c)).
  { intros q data p c Hlen.
    destruct (c =? 3); [|done]. destruct (q <=? p) eqn:Hqp; [|done].
    destruct (keyed data p); [|done]. apply Nat.leb_le in Hqp.
    by rewrite lookup_ge_None_2 by lia. }
  induction fuel as [|fuel IH]; intros q data Hlen p c Hc.
  - cbn [strip_from]. apply Hdone. lia.
  - cbn [strip_from]. destruct (4 * q <? length data) eqn:Hin.
    2:{ apply Nat.ltb_ge in Hin. by apply Hdone. }
    fold (keyed data q).
    replace (4 * q + 4) with (4 * S q) by lia.
    destruct (keyed data q) eqn:Hkey.
    + rewrite IH by (rewrite ?length_insert; lia).
      rewrite keyed_insert_alpha.
      destruct (decide (p = q)) as [->|Hne].
      * replace (S q <=? q) with false by (symmetry; apply Nat.leb_gt; lia).
        rewrite Nat.leb_refl, Hkey, andb_false_r. cbn [andb].
        destruct (c =? 3) eqn:Hc3.
        -- apply Nat.eqb_eq in Hc3 as ->. cbn [andb].
           destruct (data !! (4 * q + 3)) as [a|] eqn:Ha.
           ++ apply list_lookup_insert_eq. by eapply lookup_lt_Some.
           ++ rewrite list_insert_ge; [done|]. by apply lookup_ge_None.
        -- apply Nat.eqb_neq in Hc3. apply list_lookup_insert_ne. lia.
      * rewrite list_lookup_insert_ne by lia.
        destruct (c =? 3); [|done]. cbn [andb].
        destruct (S q <=? p) eqn:H1; destruct (q <=? p) eqn:H2; try done.
        -- apply Nat.leb_le in H1. apply Nat.leb_gt in H2. lia.
        -- apply Nat.leb_gt in H1. apply Nat.leb_le in H2. lia.
    + rewrite IH by lia.
      destruct (c =? 3); [|done]. cbn [andb].
      destruct (S q <=? p) eqn:H1; destruct (q <=? p) eqn:H2; try done.
      * apply Nat.leb_le in H1. apply Nat.leb_gt in H2. lia.
      * apply Nat.leb_gt in H1. apply Nat.leb_le in H2.
        assert (p = q) as -> by lia. by rewrite Hkey.
Qed.

Lemma strip_white_lookup (data : list Z) (p c : nat) :
  c < 4 ->
  strip_white data !! (4 * p + c)
  = if (c =? 3) && keyed data p
    then (fun _ => 0%Z) <$> data !! (4 * p + c)
    else data !! (4 * p + c).
Proof.
  intros Hc. unfold strip_white.
  pose proof (strip_from_lookup (length data) 0 data) as H.
  rewrite Nat.mul_0_r in H. rewrite H by lia.
  by rewrite andb_true_r.
Qed.

Lemma strip_white_pixel (data : list Z) (p : nat) (r g b a : Z) :
  pixel data p = Some (r, g, b, a) ->
  pixel (strip_white data) p
  = Some (r, g, b, if near_white r g b then 0%Z else a).
Proof.
  unfold pixel. intros Hpx.
  pose proof (strip_white_lookup data p 0) as H0.
  pose proof (strip_white_lookup data p 1) as H1.
  pose proof (strip_white_lookup data p 2) as H2.
  pose proof (strip_white_lookup data p 3) as H3.
  rewrite Nat.add_0_r in H0.
  rewrite H0, H1, H2, H3 by lia. cbn [Nat.eqb andb].
  unfold keyed.
  destruct (data !! (4 * p)) as [r'|]; [|done].
  destruct (data !! (4 * p + 1)) as [g'|]; [|done].
  destruct (data !! (4 * p + 2)) as [b'|]; [|done].
  destruct (data !! (4 * p + 3)) as [a'|]; [|done].
  injection Hpx as -> -> -> ->.
  cbn [at_least_threshold]. unfold near_white, threshold.
  by destruct ((245 <=? r)%Z && (245 <=? g)%Z && (245 <=? b)%Z).
Qed.

(** C4.  When the pixels of the input can be read, the result is the
    re-encoding of a buffer of the same size in which every pixel keeps its
    red, green and blue bytes, and its alpha byte is 0 when all three are at
    least 245 and is unchanged otherwise; so a black pixel keeps its alpha
    and a white pixel becomes transparent.  When they cannot be read (the
    image fails to load, or no drawing context is given), the input string
    itself is returned. *)
Theorem removeWhiteBackground_contract
    (decode : string -> decoded) (toDataURL : ImageData -> string)
    (dataUrl : string) :
  match decode dataUrl with
  | Pixels img =>
      removeWhiteBackground decode toDataURL dataUrl
      = toDataURL {| width := width img; height := height img;
                     data := strip_white (data img) |} /\
      length (strip_white (data img)) = length (data img) /\
      (forall p r g b a,
          pixel (data img) p = Some (r, g, b, a) ->
          pixel (strip_white (data img)) p
          = Some (r, g, b,
                  if (245 <=? r)%Z && (245 <=? g)%Z && (245 <=? b)%Z
                  then 0%Z else a)) /\
      (forall p a,
          pixel (data img) p = Some (0, 0, 0, a)%Z ->
          pixel (strip_white (data img)) p = Some (0, 0, 0, a)%Z) /\
      (forall p a,
          pixel (data img) p = Some (255, 255, 255, a)%Z ->
          pixel (strip_white (data img)) p = Some (255, 255, 255, 0)%Z)
  | LoadError | NoContext =>
      removeWhiteBackground decode toDataURL dataUrl = dataUrl
  end.
Proof.
  unfold removeWhiteBackground.
  destruct (decode dataUrl) as [| |img]; [done | done |].
  split; [done|]. split; [apply strip_from_length|].
  split; [intros p r g b a; apply strip_white_pixel|].
  split; intros p a Hpx; by rewrite (strip_white_pixel _ _ _ _ _ _ Hpx).
Qed.

Example strip_white_sample :
  strip_white [255; 255; 255; 255;  0; 0; 0; 255;  245; 245; 245; 7;
               245; 244; 255; 9]%Z
  = [255; 255; 255; 0;  0; 0; 0; 255;  245; 245; 245; 0;
     245; 244; 255; 9]%Z.
Proof. reflexivity. Qed.

(** ** The orchestrator's loop *)

(** Instantiate the induction hypothesis at the recursive call in the
    goal and name the call's result. *)
Ltac at_recursive_call IH :=
  match goal with
  | |- context [run_items ?g ?r ?nw ?t ?n ?i ?ps ?acc0] =>
      specialize (IH i acc0);
      destruct (run_items g r nw t n i ps acc0) as [res rest];
      cbn [fst snd] in *
  end.

Section LoopFacts.
Variable generateSingleAsset : nat -> string -> AssetType -> outcome string.
Variable random_id : nat -> string.
Variable now : nat -> Z.
Variable type : AssetType.

Abbreviation settle := (settle_item generateSingleAsset random_id now type).
Abbreviation items := (run_items generateSingleAsset random_id now type).
Abbreviation loop := (batches generateSingleAsset random_id now type).

Lemma fetch_item_settle (i : nat) (p : string) :
  fetch_item generateSingleAsset random_id now type i p
  = match settle i p with
    | Got a => (Fulfilled (Some a), [CallGenerate i p])
    | Skipped _ => (Fulfilled None, [CallGenerate i p; ConsoleError])
    | Aborted err => (Rejected err, [CallGenerate i p; ConsoleError])
    end.
Proof.
  unfold fetch_item, settle_item.
  destruct (generateSingleAsset i p type) as [u|err]; [done|].
  by destruct (message_includes err "429").
Qed.

Lemma settle_aborted (i : nat) (p : string) (err : Error) :
  settle i p = Aborted err <->
  generateSingleAsset i p type = Rejected err
  /\ message_includes err "429" = true.
Proof.
  unfold settle_item.
  destruct (generateSingleAsset i p type) as [u|e].
  - split; [discriminate | intros [? _]; discriminate].
  - destruct (message_includes e "429") eqn:H.
    + split; [intros [= ->]; done | intros [[= ->] _]; done].
    + split; [discriminate | intros [[= ->] H']; congruence].
Qed.

Lemma settle_skipped (i : nat) (p : string) (err : Error) :
  settle i p = Skipped err <->
  generateSingleAsset i p type = Rejected err
  /\ message_includes err "429" = false.
Proof.
  unfold settle_item.
  destruct (generateSingleAsset i p type) as [u|e].
  - split; [discriminate | intros [? _]; discriminate].
  - destruct (message_includes e "429") eqn:H.
    + split; [discriminate | intros [[= ->] H']; congruence].
    + split; [intros [= ->]; done | intros [[= ->] _]; done].
Qed.

Lemma slice_one (variations : list string) (i : nat) (p : string) :
  variations !! i = Some p ->
  slice variations i (i + batchSize) = [p].
Proof.
  intros Hp. unfold slice, batchSize.
  replace (i + 1 - i) with 1 by lia.
  by rewrite (drop_S _ _ _ Hp).
Qed.

(** The loop of the source is the sequential reading of it. *)
Lemma batches_run_items (variations : list string) (fuel : nat) :
  forall i newAssets,
    length variations <= i + fuel ->
    loop variations fuel i newAssets
    = items (length variations) i (drop i variations) newAssets.
Proof.
  induction fuel as [|fuel IH]; intros i acc Hfuel.
  - rewrite drop_ge by lia. done.
  - cbn [batches]. destruct (i <? length variations) eqn:Hin.
    2:{ apply Nat.ltb_ge in Hin. by rewrite drop_ge by lia. }
    apply Nat.ltb_lt in Hin.
    destruct (lookup_lt_is_Some_2 variations i Hin) as [p Hp].
    rewrite (drop_S _ _ _ Hp), (slice_one _ _ _ Hp).
    unfold batchSize, pause_after.
    cbn [imap Promise_all run_items length].
    rewrite Nat.add_0_r, fetch_item_settle, !Nat.add_1_r.
    destruct (settle i p) as [a|err|err] eqn:Hs.
    + cbn [omap]. rewrite IH by lia. cbn [got item_events].
      destruct (items _ _ _ _) as [res rest].
      by rewrite <- !app_assoc.
    + cbn [omap]. rewrite IH by lia. cbn [got item_events].
      destruct (items _ _ _ _) as [res rest].
      by rewrite <- !app_assoc.
    + apply settle_aborted in Hs as [_ ->]. done.
Qed.

(** *** What one iteration contributes to a trace *)

Lemma calls_app (a b : list ui_event) : calls (a ++ b) = calls a ++ calls b.
Proof. apply omap_app. Qed.

Lemma appended_app (a b : list ui_event) :
  appended (a ++ b) = appended a ++ appended b.
Proof. apply flat_map_app. Qed.

Lemma progress_updates_app (a b : list ui_event) :
  progress_updates (a ++ b) = progress_updates a ++ progress_updates b.
Proof. apply omap_app. Qed.

Lemma calls_item_events (n i : nat) (p : string) (r : item_result) :
  calls (item_events n i p r) = [(i, p)].
Proof. by destruct r; cbn [item_events]; destruct (S i <? n). Qed.

Lemma appended_item_events (n i : nat) (p : string) (r : item_result) :
  appended (item_events n i p r) = got r.
Proof. by destruct r; cbn [item_events]; destruct (S i <? n). Qed.

Lemma progress_item_events (n i : nat) (p : string) (r : item_result) :
  progress_updates (item_events n i p r)
  = match r with
    | Aborted _ => []
    | _ => [js_progress (S i) n]
    end.
Proof. by destruct r; cbn [item_events]; destruct (S i <? n). Qed.

(** *** The trace of the loop *)

Abbreviation done_items := (processed generateSingleAsset random_id now type).
Abbreviation tried := (attempts generateSingleAsset random_id now type).
Abbreviation arriving := (arrivals generateSingleAsset random_id now type).
Abbreviation stops := (aborts generateSingleAsset random_id now type).

Lemma items_calls (n : nat) (ps : list string) :
  forall i acc,
    calls (snd (items n i ps acc)) = indexed i (take (tried i ps) ps).
Proof.
  induction ps as [|p ps IH]; intros i acc; [done|].
  cbn [run_items attempts].
  destruct (settle i p) as [a|err|err]; [| |done];
    (at_recursive_call IH;
     by rewrite calls_app, calls_item_events, IH).
Qed.

Lemma items_progress (n : nat) (ps : list string) :
  forall i acc,
    progress_updates (snd (items n i ps acc))
    = map (fun k => js_progress k n) (seq (S i) (done_items i ps)).
Proof.
  induction ps as [|p ps IH]; intros i acc; [done|].
  cbn [run_items processed].
  destruct (settle i p) as [a|err|err]; [| |done];
    (at_recursive_call IH;
     by rewrite progress_updates_app, progress_item_events, IH).
Qed.

(** Assets arrive in the order of the fetches. *)
Lemma items_appended (n : nat) (ps : list string) :
  forall i acc,
    appended (snd (items n i ps acc))
    = arriving (calls (snd (items n i ps acc))).
Proof.
  induction ps as [|p ps IH]; intros i acc; [done|].
  cbn [run_items].
  destruct (settle i p) as [a|err|err] eqn:Hs.
  3:{ cbn. by rewrite Hs. }
  all: at_recursive_call IH;
    rewrite appended_app, calls_app, appended_item_events,
      calls_item_events, IH;
    unfold arrivals; cbn [flat_map fst snd app]; by rewrite Hs.
Qed.

Lemma processed_le (ps : list string) :
  forall i, done_items i ps <= length ps.
Proof.
  induction ps as [|p ps IH]; intros i; [done|].
  cbn [processed length]. destruct (settle i p); try lia;
    specialize (IH (S i)); lia.
Qed.

Lemma attempts_le (ps : list string) :
  forall i, tried i ps <= length ps.
Proof.
  induction ps as [|p ps IH]; intros i; [done|].
  cbn [attempts length]. destruct (settle i p); try lia;
    specialize (IH (S i)); lia.
Qed.

(** A run that is not aborted ends with the assets it appended, having
    fetched for every prompt. *)
Lemma items_fulfilled (n : nat) (ps : list string) :
  forall i acc acc',
    fst (items n i ps acc) = Fulfilled acc' ->
    acc' = acc ++ appended (snd (items n i ps acc))
    /\ done_items i ps = length ps /\ tried i ps = length ps.
Proof.
  induction ps as [|p ps IH]; intros i acc acc'.
  - cbn. intros [= <-]. by rewrite app_nil_r.
  - cbn [run_items processed attempts length].
    destruct (settle i p) as [a|err|err]; [| |done];
      (at_recursive_call IH;
       intros Hres; destruct (IH _ Hres) as (-> & -> & ->);
       by rewrite appended_app, appended_item_events, app_assoc).
Qed.

(** An aborted run ends right after the fetch that aborted it. *)
Lemma items_rejected (n : nat) (ps : list string) :
  forall i acc e,
    fst (items n i ps acc) = Rejected e ->
    exists p before,
      ps !! done_items i ps = Some p
      /\ settle (i + done_items i ps) p = Aborted e
      /\ tried i ps = S (done_items i ps)
      /\ snd (items n i ps acc)
         = before ++ [CallGenerate (i + done_items i ps) p; ConsoleError].
Proof.
  induction ps as [|p ps IH]; intros i acc e; [done|].
  cbn [run_items processed attempts].
  destruct (settle i p) as [a|err|err] eqn:Hs.
  3:{ cbn. intros [= ->]. exists p, []. by rewrite Nat.add_0_r. }
  all: at_recursive_call IH;
    intros Hres; destruct (IH _ Hres) as (q & before & Hq & Hab & Htr & ->);
    exists q, (item_events n i p (settle i p) ++ before);
    rewrite Hs, <- app_assoc, <- Nat.add_succ_comm; by rewrite Htr.
Qed.

(** Item [k] of the prompts is fetched exactly when no earlier item
    aborted the run. *)
Lemma attempts_spec (ps : list string) :
  forall i k,
    k < tried i ps <->
    k < length ps
    /\ (forall k' q, k' < k -> ps !! k' = Some q -> stops (i + k') q = false).
Proof.
  induction ps as [|p ps IH]; intros i k.
  - cbn. split; [lia | intros [? _]; lia].
  - cbn [attempts length]. destruct k as [|k].
    + split.
      * intros _. split; [lia | intros; lia].
      * intros _. destruct (settle i p); lia.
    + unfold aborts. destruct (settle i p) as [a|err|err] eqn:Hs.
      3:{ split; [lia|]. intros [_ H].
          specialize (H 0 p ltac:(lia) eq_refl).
          rewrite Nat.add_0_r, Hs in H. done. }
      all: rewrite <- Nat.succ_lt_mono, IH; split; intros [Hk H];
        (split; [lia|]); intros k' q Hk' Hq.
      * destruct k' as [|k']; [injection Hq as <-; by rewrite Nat.add_0_r, Hs|].
        rewrite <- Nat.add_succ_comm. apply H; [lia | done].
      * rewrite Nat.add_succ_comm. apply H; [lia | done].
      * destruct k' as [|k']; [injection Hq as <-; by rewrite Nat.add_0_r, Hs|].
        rewrite <- Nat.add_succ_comm. apply H; [lia | done].
      * rewrite Nat.add_succ_comm. apply H; [lia | done].
Qed.

Lemma elem_of_calls (tr : list ui_event) (j : nat) (q : string) :
  (j, q) ∈ calls tr <-> CallGenerate j q ∈ tr.
Proof.
  unfold calls. rewrite list_elem_of_omap. split.
  - intros (ev & Hin & Hev). destruct ev; try discriminate.
    by injection Hev as -> ->.
  - intros Hin. by exists (CallGenerate j q).
Qed.

Lemma elem_of_indexed (ps : list string) :
  forall i j q,
    (j, q) ∈ indexed i ps <-> exists k, j = i + k /\ ps !! k = Some q.
Proof.
  induction ps as [|p ps IH]; intros i j q.
  - cbn. rewrite elem_of_nil. split; [done | by intros (k & _ & ?)].
  - cbn [indexed]. rewrite elem_of_cons, IH. split.
    + intros [[= -> ->] | (k & -> & Hk)].
      * exists 0. by rewrite Nat.add_0_r.
      * exists (S k). split; [lia | done].
    + intros ([|k] & -> & Hk).
      * left. rewrite Nat.add_0_r. by injection Hk as ->.
      * right. exists k. split; [lia | done].
Qed.

(** The fetches the loop makes: item [k] is fetched exactly when no item
    before it aborted the run. *)
Lemma items_call_iff (n : nat) (ps : list string) (i : nat)
    (acc : list GeneratedAsset) (j : nat) (q : string) :
  CallGenerate j q ∈ snd (items n i ps acc) <->
  exists k, j = i + k /\ ps !! k = Some q
            /\ (forall k' q', k' < k -> ps !! k' = Some q' ->
                              stops (i + k') q' = false).
Proof.
  rewrite <- elem_of_calls, items_calls, elem_of_indexed. split.
  - intros (k & -> & Hk). apply lookup_take_Some in Hk as [Hk Hlt].
    exists k. split; [done|]. split; [done|].
    by apply attempts_spec in Hlt as [_ ?].
  - intros (k & -> & Hk & Hnone). exists k. split; [done|].
    apply lookup_take_Some. split; [done|].
    apply attempts_spec. split; [by eapply lookup_lt_Some | done].
Qed.

Lemma call_in_item_events (n i : nat) (p : string) (r : item_result)
    (ev : ui_event) :
  ev ∈ item_events n i p r -> is_call ev = true -> ev = CallGenerate i p.
Proof.
  intros Hin Hcall. apply list_elem_of_In in Hin.
  destruct r; cbn [item_events app] in Hin; destruct (S i <? n);
    cbn [In app] in Hin;
    repeat (destruct Hin as [<-|Hin]; [done || discriminate|]); done.
Qed.

(** A fetch that aborts the run is the last thing the loop does. *)
Lemma items_abort_last (n : nat) (ps : list string) :
  forall i acc j q e,
    CallGenerate j q ∈ snd (items n i ps acc) ->
    settle j q = Aborted e ->
    fst (items n i ps acc) = Rejected e
    /\ exists before,
        snd (items n i ps acc) = before ++ [CallGenerate j q; ConsoleError].
Proof.
  induction ps as [|p ps IH]; intros i acc j q e.
  - cbn. intros Hin. by apply elem_of_nil in Hin.
  - cbn [run_items]. destruct (settle i p) as [a|err|err] eqn:Hs.
    3:{ cbn [fst snd item_events]. intros Hin Hj.
        apply (call_in_item_events n i p (Aborted err)) in Hin as [= -> ->];
          [|done].
        rewrite Hs in Hj. injection Hj as ->. split; [done|]. by exists []. }
    all: at_recursive_call IH; intros Hin Hj;
      apply elem_of_app in Hin as [Hin|Hin];
      [ apply call_in_item_events in Hin as [= -> ->]; [congruence | done]
      | destruct (IH _ _ _ Hin Hj) as (-> & before & ->);
        split; [done|]; eexists (_ ++ before); by rewrite <- app_assoc ].
Qed.

(** A fetch that is skipped is followed by the rest of the loop. *)
Lemma items_skip_block (n : nat) (ps : list string) :
  forall i acc j q err,
    CallGenerate j q ∈ snd (items n i ps acc) ->
    settle j q = Skipped err ->
    exists before after,
      snd (items n i ps acc)
      = before ++ item_events n j q (Skipped err) ++ after.
Proof.
  induction ps as [|p ps IH]; intros i acc j q e.
  - cbn. intros Hin. by apply elem_of_nil in Hin.
  - cbn [run_items]. destruct (settle i p) as [a|err|err] eqn:Hs.
    3:{ cbn [fst snd]. intros Hin Hj.
        apply (call_in_item_events n i p (Aborted err)) in Hin as [= -> ->];
          [congruence | done]. }
    all: at_recursive_call IH; intros Hin Hj;
      apply elem_of_app in Hin as [Hin|Hin];
      [ apply call_in_item_events in Hin as [= -> ->]; [|done];
        rewrite Hs in Hj; try discriminate
      | destruct (IH _ _ _ Hin Hj) as (before & after & ->);
        eexists (_ ++ before), after; by rewrite <- app_assoc ].
    injection Hj as ->. by exists [], rest.
Qed.

(** A fetch that succeeds is followed at once by the update that shows
    its asset. *)
Lemma items_got_block (n : nat) (ps : list string) :
  forall i acc j q a,
    CallGenerate j q ∈ snd (items n i ps acc) ->
    settle j q = Got a ->
    exists before after,
      snd (items n i ps acc)
      = before ++ item_events n j q (Got a) ++ after
      /\ i <= j
      /\ length (calls before) = j - i
      /\ length (appended before) <= j - i.
Proof.
  induction ps as [|p ps IH]; intros i acc j q b.
  - cbn. intros Hin. by apply elem_of_nil in Hin.
  - cbn [run_items]. destruct (settle i p) as [a|err|err] eqn:Hs.
    3:{ cbn [fst snd]. intros Hin Hj.
        apply (call_in_item_events n i p (Aborted err)) in Hin as [= -> ->];
          [congruence | done]. }
    all: at_recursive_call IH; intros Hin Hj;
      apply elem_of_app in Hin as [Hin|Hin];
      [ apply call_in_item_events in Hin as [= -> ->]; [|done];
        rewrite Hs in Hj; try discriminate
      | destruct (IH _ _ _ Hin Hj) as (before & after & -> & Hge & Hc & Ha);
        eexists (_ ++ before), after; rewrite <- app_assoc;
        split; [done|];
        rewrite calls_app, appended_app, calls_item_events,
          appended_item_events, !length_app; cbn [length got]; lia ].
    injection Hj as ->. exists [], rest.
    split; [done|]. split; [lia|]. split; cbn; lia.
Qed.

End LoopFacts.

(** ** The run *)

Section RunFacts.
Variable generatePromptVariations
  : string -> AssetType -> nat -> outcome (list string).
Variable generateSingleAsset : nat -> string -> AssetType -> outcome string.
Variable random_id : nat -> string.
Variable now : nat -> Z.
Variable basePrompt : string.
Variable type : AssetType.

Abbreviation run :=
  (handleGenerate generatePromptVariations generateSingleAsset random_id now
     basePrompt type).
Abbreviation items := (run_items generateSingleAsset random_id now type).
Abbreviation settle := (settle_item generateSingleAsset random_id now type).

Lemma run_with_variations (vs : list string) :
  generatePromptVariations basePrompt type requestedCount = Fulfilled vs ->
  run = (check_forged (fst (items (length vs) 0 vs [])),
         prologue ++ snd (items (length vs) 0 vs [])
           ++ epilogue (check_forged (fst (items (length vs) 0 vs [])))).
Proof.
  intros Hvs. unfold handleGenerate, try_block. rewrite Hvs.
  rewrite batches_run_items by lia. rewrite drop_0.
  destruct (items (length vs) 0 vs []) as [[newAssets|err] ev];
    cbn [fst snd check_forged]; [destruct (length newAssets =? 0)|];
    unfold epilogue, prologue; cbn [app]; by rewrite ?app_nil_l.
Qed.

Lemma run_without_variations (err : Error) :
  generatePromptVariations basePrompt type requestedCount = Rejected err ->
  run = (Rejected err, prologue ++ epilogue (Rejected err)).
Proof.
  intros Hvs. unfold handleGenerate, try_block. by rewrite Hvs.
Qed.

(** *** Events outside the loop *)

Lemma prologue_quiet (ev : ui_event) :
  ev ∈ prologue -> is_call ev = false /\ is_append ev = false.
Proof.
  intros Hin. apply list_elem_of_In in Hin. cbn in Hin.
  repeat (destruct Hin as [<-|Hin]; [done|]). done.
Qed.

Lemma epilogue_quiet (r : outcome (list GeneratedAsset)) (ev : ui_event) :
  ev ∈ epilogue r -> is_call ev = false /\ is_append ev = false.
Proof.
  intros Hin. apply list_elem_of_In in Hin.
  unfold epilogue, catch_block, finally_block in Hin.
  destruct r as [?|err]; [|destruct (message_includes err _);
                            [|destruct (_ || _)]];
    cbn in Hin; repeat (destruct Hin as [<-|Hin]; [done|]); done.
Qed.

Lemma appended_quiet (tr : list ui_event) :
  (forall ev, ev ∈ tr -> is_append ev = false) -> appended tr = [].
Proof.
  induction tr as [|ev tr IH]; intros Hq; [done|].
  assert (Hev : is_append ev = false) by (apply Hq; left).
  assert (IH' : appended tr = []).
  { apply IH. intros ev' Hin. apply Hq. by right. }
  destruct ev; try discriminate; exact IH'.
Qed.

Lemma calls_quiet (tr : list ui_event) :
  (forall ev, ev ∈ tr -> is_call ev = false) -> calls tr = [].
Proof.
  induction tr as [|ev tr IH]; intros Hq; [done|].
  assert (Hev : is_call ev = false) by (apply Hq; left).
  assert (IH' : calls tr = []).
  { apply IH. intros ev' Hin. apply Hq. by right. }
  destruct ev; try discriminate; exact IH'.
Qed.

Lemma state_after_app (s : AppState) (a b : list ui_event) :
  state_after s (a ++ b) = state_after (state_after s a) b.
Proof. apply fold_left_app. Qed.

Lemma error_after_epilogue (s : AppState) (err : Error) :
  error (state_after s (epilogue (Rejected err))) = Some (shown_message err).
Proof.
  unfold epilogue, catch_block, shown_message.
  destruct (message_includes err "Requested entity was not found"); [done|].
  by destruct (_ || _).
Qed.

(** A fetch can only be found in the trace of the loop. *)
Lemma call_in_run (i : nat) (p : string) :
  CallGenerate i p ∈ snd run ->
  exists vs,
    generatePromptVariations basePrompt type requestedCount = Fulfilled vs
    /\ CallGenerate i p ∈ snd (items (length vs) 0 vs []).
Proof.
  destruct (generatePromptVariations basePrompt type requestedCount)
    as [vs|err] eqn:Hvs.
  - rewrite (run_with_variations vs Hvs). cbn [snd].
    rewrite !elem_of_app. intros [Hin|[Hin|Hin]].
    + by apply prologue_quiet in Hin as [? _].
    + by exists vs.
    + by apply epilogue_quiet in Hin as [? _].
  - rewrite (run_without_variations err Hvs). cbn [snd].
    rewrite elem_of_app. intros [Hin|Hin].
    + by apply prologue_quiet in Hin as [? _].
    + by apply epilogue_quiet in Hin as [? _].
Qed.

(** C2 (as amended).  If the fetch for item [i] fails with an error whose
    message contains "429", that fetch is the last one of the run, no
    asset is appended after it, and the run ends showing the rate-limit
    message -- or the authentication message, when the error's message
    also contains "Requested entity was not found", which the [catch]
    block tests first. *)
Theorem rate_limit_aborts_run (s0 : AppState) (i : nat) (p : string)
    (e : Error) :
  CallGenerate i p ∈ snd run ->
  generateSingleAsset i p type = Rejected e ->
  message_includes e "429" = true ->
  exists before after,
    snd run = before ++ CallGenerate i p :: after
    /\ (forall ev, ev ∈ after -> is_call ev = false /\ is_append ev = false)
    /\ appended (snd run) = appended before
    /\ assets (state_after s0 (snd run)) = assets (state_after s0 before)
    /\ error (state_after s0 (snd run))
       = Some (if message_includes e "Requested entity was not found"
               then msg_authentication else msg_rate_limit).
Proof.
  intros Hin Hfail H429.
  destruct (call_in_run i p Hin) as (vs & Hvs & Hloop).
  assert (Hs : settle i p = Aborted e) by by apply settle_aborted.
  destruct (items_abort_last _ _ _ _ _ _ _ _ _ _ _ Hloop Hs)
    as (Hres & before & Htr).
  rewrite (run_with_variations vs Hvs). cbn [snd].
  rewrite Hres, Htr. cbn [check_forged].
  exists (prologue ++ before), (ConsoleError :: epilogue (Rejected e)).
  assert (Hquiet : forall ev, ev ∈ ConsoleError :: epilogue (Rejected e) ->
                              is_call ev = false /\ is_append ev = false).
  { intros ev [->|Hev]%elem_of_cons; [done|]. by eapply epilogue_quiet. }
  assert (Hshape : prologue ++ (before ++ [CallGenerate i p; ConsoleError])
                     ++ epilogue (Rejected e)
                   = (prologue ++ before)
                       ++ CallGenerate i p :: ConsoleError
                       :: epilogue (Rejected e)).
  { by rewrite <- !app_assoc. }
  rewrite Hshape. split; [done|]. split; [exact Hquiet|].
  split.
  { rewrite appended_app,
      (appended_quiet (CallGenerate i p :: ConsoleError :: _)).
    - by rewrite app_nil_r.
    - intros ev [->|Hev]%elem_of_cons; [done|]. by apply Hquiet. }
  split.
  { rewrite state_after_app.
    generalize (state_after s0 (prologue ++ before)). intros s.
    cbn [state_after fold_left apply_event].
    unfold epilogue, catch_block, finally_block.
    destruct (message_includes e "Requested entity was not found"); [done|].
    by destruct (_ || _). }
  rewrite state_after_app. cbn [state_after fold_left apply_event].
  fold (state_after (state_after s0 (prologue ++ before))
          (epilogue (Rejected e))).
  rewrite error_after_epilogue. unfold shown_message. by rewrite H429.
Qed.

End RunFacts.

(** The aborted run at a concrete input: the second of three fetches
    fails with a "429" message. *)
Lemma rate_limit_aborts_run_witness :
  CallGenerate 1 "red balloon in blue" ∈ snd (sample_run too_many_requests)
  /\ sample_fetch too_many_requests 1 "red balloon in blue" STICKER
     = Rejected too_many_requests
  /\ message_includes too_many_requests "429" = true
  /\ calls (snd (sample_run too_many_requests))
     = [(0, "red balloon from above"); (1, "red balloon in blue")]
  /\ error (state_after initial_state (snd (sample_run too_many_requests)))
     = Some msg_rate_limit.
Proof.
  assert (Hin : CallGenerate 1 "red balloon in blue"
                  ∈ snd (sample_run too_many_requests)).
  { apply list_elem_of_In. vm_compute. tauto. }
  assert (Hfail : sample_fetch too_many_requests 1 "red balloon in blue" STICKER
                  = Rejected too_many_requests) by reflexivity.
  assert (H429 : message_includes too_many_requests "429" = true)
    by reflexivity.
  split; [exact Hin|]. split; [exact Hfail|]. split; [exact H429|].
  split; [reflexivity|].
  destruct (rate_limit_aborts_run sample_variations
              (sample_fetch too_many_requests) sample_id sample_now
              "red balloon" STICKER initial_state 1 "red balloon in blue"
              too_many_requests Hin Hfail H429)
    as (before & after & _ & _ & _ & _ & Herr).
  exact Herr.
Defined.

(** C2 as stated fails in two ways.  A failure that [withRetry] and the
    [catch] block classify as rate-limit through its status
    ([RESOURCE_EXHAUSTED]) but whose message has no "429" is skipped like
    any other: the third fetch is made and the run ends without an error.
    And a failure whose message has both "429" and "Requested entity was
    not found" stops the run with the authentication message. *)
Lemma rate_limit_claim_counterexample :
  (isRateLimit quota_exhausted = true
   /\ sample_fetch quota_exhausted 1 "red balloon in blue" STICKER
      = Rejected quota_exhausted
   /\ calls (snd (sample_run quota_exhausted))
      = [(0, "red balloon from above"); (1, "red balloon in blue");
         (2, "red balloon close up")]
   /\ length (appended (snd (sample_run quota_exhausted))) = 2
   /\ error (state_after initial_state (snd (sample_run quota_exhausted)))
      = None)
  /\
  (isRateLimit throttled_entity = true
   /\ sample_fetch throttled_entity 1 "red balloon in blue" STICKER
      = Rejected throttled_entity
   /\ calls (snd (sample_run throttled_entity))
      = [(0, "red balloon from above"); (1, "red balloon in blue")]
   /\ error (state_after initial_state (snd (sample_run throttled_entity)))
      = Some msg_authentication
   /\ msg_authentication <> msg_rate_limit).
Proof.
  split; repeat split; try reflexivity. discriminate.
Qed.

Section SkipFacts.
Variable generatePromptVariations
  : string -> AssetType -> nat -> outcome (list string).
Variable generateSingleAsset : nat -> string -> AssetType -> outcome string.
Variable random_id : nat -> string.
Variable now : nat -> Z.
Variable basePrompt : string.
Variable type : AssetType.

Abbreviation run :=
  (handleGenerate generatePromptVariations generateSingleAsset random_id now
     basePrompt type).
Abbreviation items := (run_items generateSingleAsset random_id now type).
Abbreviation settle := (settle_item generateSingleAsset random_id now type).
Abbreviation stops := (aborts generateSingleAsset random_id now type).
Abbreviation unaborted :=
  (none_aborts generateSingleAsset random_id now type).

(** The fetches of a run: item [j] is fetched exactly when no item before
    it failed with a "429" message. *)
Lemma run_call_iff (vs : list string) (j : nat) (q : string) :
  generatePromptVariations basePrompt type requestedCount = Fulfilled vs ->
  CallGenerate j q ∈ snd run <-> vs !! j = Some q /\ unaborted vs 0 j.
Proof.
  intros Hvs. split.
  - intros Hin.
    destruct (call_in_run _ _ _ _ _ _ _ _ Hin) as (vs' & Hvs' & Hloop).
    rewrite Hvs in Hvs'. injection Hvs' as <-.
    apply items_call_iff in Hloop as (k & -> & Hk & Hnone).
    split; [done|]. intros k' q' [_ Hlt] Hq'. by apply (Hnone k' q').
  - intros [Hq Hnone].
    rewrite (run_with_variations _ _ _ _ _ _ vs Hvs). cbn [snd].
    apply elem_of_app. right. apply elem_of_app. left.
    apply items_call_iff. exists j. split; [done|]. split; [done|].
    intros k' q' Hlt Hq'. apply (Hnone k' q'); [lia | done].
Qed.

(** C3 (as amended).  If the fetch for item [i] fails with an error whose
    message has no "429", the item is skipped: the failure is logged,
    nothing is appended for it (the update that follows its fetch appends
    the empty list) and progress moves on.  The run goes on with the next
    prompt, whose fetch is made; and a later item [j] is fetched exactly
    when no fetch after [i] and before [j] aborted the run.  So the failure
    of item [i] stops nothing, but not every later item need be
    fetched. *)
Theorem other_failure_skips_item (vs : list string) (i : nat) (p : string)
    (e : Error) :
  generatePromptVariations basePrompt type requestedCount = Fulfilled vs ->
  CallGenerate i p ∈ snd run ->
  generateSingleAsset i p type = Rejected e ->
  message_includes e "429" = false ->
  (exists before after,
      snd run
      = before ++ [CallGenerate i p; ConsoleError; SetAssets [];
                   SetProgress (js_progress (S i) (length vs))] ++ after)
  /\ (forall q, vs !! S i = Some q -> CallGenerate (S i) q ∈ snd run)
  /\ (forall j q, i < j -> vs !! j = Some q ->
                  (CallGenerate j q ∈ snd run <-> unaborted vs (S i) j)).
Proof.
  intros Hvs Hin Hfail Hno.
  assert (Hs : settle i p = Skipped e) by by apply settle_skipped.
  assert (Hlater : forall j q, i < j -> vs !! j = Some q ->
             (CallGenerate j q ∈ snd run <-> unaborted vs (S i) j)).
  { intros j q Hij Hq. rewrite (run_call_iff vs j q Hvs).
    apply (run_call_iff vs i p Hvs) in Hin as [Hp Hbefore].
    split.
    - intros [_ Hnone] k q' Hk Hq'. apply (Hnone k q'); [lia | done].
    - intros Hnone. split; [done|]. intros k q' Hk Hq'.
      destruct (decide (k < i)) as [Hlt|Hge];
        [by apply (Hbefore k q'); [lia|] |].
      destruct (decide (k = i)) as [->|Hne].
      + rewrite Hp in Hq'. injection Hq' as <-.
        unfold aborts. by rewrite Hs.
      + apply (Hnone k q'); [lia | done]. }
  split; [|split; [|exact Hlater]].
  - destruct (call_in_run _ _ _ _ _ _ _ _ Hin) as (vs' & Hvs' & Hloop).
    rewrite Hvs in Hvs'. injection Hvs' as <-.
    destruct (items_skip_block _ _ _ _ _ _ _ _ _ _ _ Hloop Hs)
      as (before & after & Htr).
    rewrite (run_with_variations _ _ _ _ _ _ vs Hvs). cbn [snd].
    rewrite Htr. cbn [item_events].
    exists (prologue ++ before),
      ((if S i <? length vs then [Pause 4000] else []) ++ after
         ++ epilogue (check_forged (fst (items (length vs) 0 vs [])))).
    by rewrite <- !app_assoc.
  - intros q Hq. apply (Hlater (S i) q); [lia | done |].
    intros k q' Hk. lia.
Qed.

End SkipFacts.

(** The skipped item at a concrete input: the second of three fetches
    yields no image, and the third is made all the same. *)
Lemma other_failure_skips_item_witness :
  sample_variations "red balloon" STICKER requestedCount
  = Fulfilled ["red balloon from above"; "red balloon in blue";
               "red balloon close up"]
  /\ CallGenerate 1 "red balloon in blue" ∈ snd (sample_run no_image)
  /\ sample_fetch no_image 1 "red balloon in blue" STICKER = Rejected no_image
  /\ message_includes no_image "429" = false
  /\ CallGenerate 2 "red balloon close up" ∈ snd (sample_run no_image).
Proof.
  assert (Hvs : sample_variations "red balloon" STICKER requestedCount
                = Fulfilled ["red balloon from above"; "red balloon in blue";
                             "red balloon close up"]) by reflexivity.
  assert (Hin : CallGenerate 1 "red balloon in blue"
                  ∈ snd (sample_run no_image)).
  { apply list_elem_of_In. vm_compute. tauto. }
  assert (Hfail : sample_fetch no_image 1 "red balloon in blue" STICKER
                  = Rejected no_image) by reflexivity.
  assert (Hno : message_includes no_image "429" = false) by reflexivity.
  split; [exact Hvs|]. split; [exact Hin|]. split; [exact Hfail|].
  split; [exact Hno|].
  destruct (other_failure_skips_item sample_variations (sample_fetch no_image)
              sample_id sample_now "red balloon" STICKER _ 1
              "red balloon in blue" no_image Hvs Hin Hfail Hno)
    as (_ & Hnext & _).
  apply Hnext. reflexivity.
Defined.

(** C3 as stated fails when a later fetch aborts the run.  Here the first
    fetch fails without "429" in its message and is skipped, the second is
    answered "429", and the third prompt is never fetched, although it
    comes after the skipped one. *)
Lemma later_items_claim_counterexample :
  sample_variations "red balloon" STICKER requestedCount
  = Fulfilled ["red balloon from above"; "red balloon in blue";
               "red balloon close up"]
  /\ skip_then_throttle 0 "red balloon from above" STICKER
     = Rejected (Error_of "Failed to generate image data")
  /\ message_includes (Error_of "Failed to generate image data") "429"
     = false
  /\ isRateLimit (Error_of "Failed to generate image data") = false
  /\ calls (snd (handleGenerate sample_variations skip_then_throttle
                   sample_id sample_now "red balloon" STICKER))
     = [(0, "red balloon from above"); (1, "red balloon in blue")].
Proof.
  split; [reflexivity|]. split; [reflexivity|]. split; [reflexivity|].
  split; [reflexivity|]. vm_compute; reflexivity.
Qed.

(** ** Progress *)

Lemma js_progress_exact (n k : nat) :
  n <= 39 -> 1 <= k <= n -> js_progress k n = exact_progress k n.
Proof.
  intros Hn Hk.
  assert (Hall : progress_agrees_upto 39 = true) by (vm_compute; reflexivity).
  unfold progress_agrees_upto in Hall.
  rewrite forallb_forall in Hall.
  specialize (Hall n). rewrite forallb_forall in Hall.
  apply Z.eqb_eq, Hall; apply in_seq; lia.
Qed.

Lemma exact_progress_mono (n k k' : nat) :
  k <= k' -> (exact_progress k n <= exact_progress k' n)%Z.
Proof.
  intros Hk. unfold exact_progress.
  apply Z.min_le_compat_l, Qfloor_resp_le.
  apply Qplus_le_compat; [|apply Qle_refl].
  unfold Qdiv. apply Qmult_le_compat_r.
  - apply Qmult_le_l; [reflexivity|]. rewrite <- Zle_Qle. lia.
  - apply Qinv_le_0_compat. change 0%Q with (inject_Z 0).
    rewrite <- Zle_Qle. lia.
Qed.

Lemma exact_progress_range (n k : nat) :
  (0 <= exact_progress k n <= 100)%Z.
Proof.
  unfold exact_progress. split; [|apply Z.le_min_l].
  apply Z.min_glb; [lia|].
  change 0%Z with (Qfloor 0). apply Qfloor_resp_le.
  assert (0 <= 100 * inject_Z (Z.of_nat k) / inject_Z (Z.of_nat n))%Q; [|lra].
  unfold Qdiv. apply Qmult_le_0_compat.
  - apply Qmult_le_0_compat; [discriminate|].
    change 0%Q with (inject_Z 0). rewrite <- Zle_Qle. lia.
  - apply Qinv_le_0_compat. change 0%Q with (inject_Z 0).
    rewrite <- Zle_Qle. lia.
Qed.

(** *** The arithmetic of doubles

    [js_progress] is built from the primitive division and multiplication
    of doubles.  Their specification reduces them to functions on
    mantissas and exponents; what follows reads off those functions how
    far a result can lie from the exact value. *)

Lemma digits2_pos_size (p : positive) : digits2_pos p = Pos.size p.
Proof. induction p as [p IH|p IH|]; cbn; by rewrite ?IH. Qed.

Lemma digits2_pos_bounds (p : positive) :
  (2 ^ (Z.pos (digits2_pos p) - 1) <= Z.pos p < 2 ^ Z.pos (digits2_pos p))%Z.
Proof.
  rewrite digits2_pos_size. split.
  - pose proof (Pos.size_le p) as H.
    assert (H2 : (2 ^ Z.pos (Pos.size p) <= 2 * Z.pos p)%Z).
    { rewrite <- Pos2Z.inj_pow. change (2 * Z.pos p)%Z with (Z.pos p~0). lia. }
    replace (Z.pos (Pos.size p)) with (Z.succ (Z.pos (Pos.size p) - 1)) in H2
      by lia.
    rewrite Z.pow_succ_r in H2 by lia. lia.
  - pose proof (Pos.size_gt p) as H.
    rewrite <- Pos2Z.inj_pow. lia.
Qed.

Lemma digits2_pos_unique (p : positive) (d : Z) :
  (2 ^ (d - 1) <= Z.pos p < 2 ^ d)%Z -> Z.pos (digits2_pos p) = d.
Proof.
  intros [Hlo Hhi]. pose proof (digits2_pos_bounds p) as [Hlo' Hhi'].
  assert (Hd : (0 < d)%Z).
  { destruct (Z.le_gt_cases d 0) as [Hle|]; [|done].
    assert (2 ^ d <= 2 ^ 0)%Z by (apply Z.pow_le_mono_r; lia).
    change (2 ^ 0)%Z with 1%Z in *. lia. }
  assert (H1 : (d - 1 < Z.pos (digits2_pos p))%Z).
  { apply (Z.pow_lt_mono_r_iff 2); lia. }
  assert (H2 : (Z.pos (digits2_pos p) - 1 < d)%Z).
  { apply (Z.pow_lt_mono_r_iff 2); lia. }
  lia.
Qed.

(** Shifting a mantissa to the right. *)
Lemma shr_1_m (r : shr_record) :
  (0 <= shr_m r)%Z -> shr_m (shr_1 r) = (shr_m r / 2)%Z.
Proof.
  destruct r as [m rb sb]. cbn [shr_m]. intros Hm.
  destruct m as [|[p|p|]|p]; cbn [shr_1 shr_m];
    first [ lia | by rewrite <- Z.div2_div ].
Qed.

Lemma shr_1_nonneg (r : shr_record) :
  (0 <= shr_m r)%Z -> (0 <= shr_m (shr_1 r))%Z.
Proof.
  intros Hm. rewrite shr_1_m by done. apply Z.div_pos; lia.
Qed.

Lemma iter_pos_shr_m (p : positive) :
  forall r, (0 <= shr_m r)%Z ->
            shr_m (SpecFloat.iter_pos shr_1 p r) = (shr_m r / 2 ^ Z.pos p)%Z.
Proof.
  induction p as [p IH|p IH|]; intros r Hr; cbn [SpecFloat.iter_pos].
  - assert (H1 : (0 <= shr_m (shr_1 r))%Z) by by apply shr_1_nonneg.
    assert (H2 : (0 <= shr_m (SpecFloat.iter_pos shr_1 p (shr_1 r)))%Z).
    { rewrite IH by done. apply Z.div_pos; lia. }
    rewrite IH, IH, shr_1_m by done.
    rewrite !Z.div_div by lia. f_equal.
    assert (Hx : Z.pos p~1 = (1 + Z.pos p + Z.pos p)%Z) by lia.
    rewrite Hx, !Z.pow_add_r by lia. lia.
  - assert (H2 : (0 <= shr_m (SpecFloat.iter_pos shr_1 p r))%Z).
    { rewrite IH by done. apply Z.div_pos; lia. }
    rewrite IH, IH by done.
    rewrite !Z.div_div by lia. f_equal.
    assert (Hx : Z.pos p~0 = (Z.pos p + Z.pos p)%Z) by lia.
    rewrite Hx, !Z.pow_add_r by lia. lia.
  - by rewrite shr_1_m.
Qed.

Lemma shr_record_of_loc_m (m : Z) (l : location) :
  shr_m (shr_record_of_loc m l) = m.
Proof. by destruct l as [|[| |]]. Qed.

Lemma round_nearest_even_choice (m : Z) (l : location) :
  round_nearest_even m l = m \/ round_nearest_even m l = (m + 1)%Z.
Proof.
  destruct l as [|[| |]]; cbn [round_nearest_even]; auto.
  destruct (Z.even m); auto.
Qed.

(** [shr_fexp] on a mantissa of at least 53 digits, in the normal range:
    the mantissa is cut down to its 53 leading digits. *)
Lemma shr_fexp_normal (m e : Z) (l : location) (d : Z) :
  (2 ^ (d - 1) <= m < 2 ^ d)%Z -> (53 <= d)%Z -> (-1074 <= e + (d - 53))%Z ->
  exists r,
    shr_fexp prec emax m e l = (r, (e + (d - 53))%Z)
    /\ shr_m r = (m / 2 ^ (d - 53))%Z.
Proof.
  intros Hm Hd He.
  assert (Hpos : (0 < m)%Z).
  { assert (0 < 2 ^ (d - 1))%Z by (apply Z.pow_pos_nonneg; lia). lia. }
  destruct m as [|p|p]; [lia| |lia].
  unfold shr_fexp. cbn [Zdigits2].
  rewrite (digits2_pos_unique p d Hm).
  assert (Hfexp : fexp prec emax (d + e) = (e + (d - 53))%Z).
  { unfold fexp, emin, prec, emax. lia. }
  rewrite Hfexp.
  replace (e + (d - 53) - e)%Z with (d - 53)%Z by lia.
  unfold shr.
  destruct (d - 53)%Z as [|n|n] eqn:Hn; [| |lia].
  - eexists. split; [by rewrite Z.add_0_r|].
    rewrite shr_record_of_loc_m. change (2 ^ 0)%Z with 1%Z.
    by rewrite Z.div_1_r.
  - eexists. split; [done|].
    rewrite iter_pos_shr_m by (rewrite shr_record_of_loc_m; lia).
    by rewrite shr_record_of_loc_m.
Qed.

(** What [binary_round_aux] makes of a mantissa [q] of [d >= 53] digits
    in the normal range: a mantissa of 53 digits whose value is one of
    the two neighbours of [q] at that precision, hence within a factor
    [1 + 2^-52] of [q] and of [q + 1]. *)
Lemma binary_round_aux_faithful (s : bool) (q e : Z) (l : location) (d : Z) :
  (2 ^ (d - 1) <= q < 2 ^ d)%Z -> (53 <= d)%Z ->
  (-1074 <= e + (d - 53))%Z -> (e + (d - 53) + 1 <= 971)%Z ->
  exists (m : positive) (g : Z),
    binary_round_aux prec emax s q e l = S754_finite s m (e + g)
    /\ (2 ^ 52 <= Z.pos m < 2 ^ 53)%Z
    /\ (d - 53 <= g <= d - 52)%Z
    /\ (2 ^ 52 * (Z.pos m * 2 ^ g) <= (2 ^ 52 + 1) * q)%Z
    /\ ((q + 1) * 2 ^ 52 <= (2 ^ 52 + 1) * (Z.pos m * 2 ^ g))%Z.
Proof.
  intros Hq Hd Hlo Hhi.
  unfold binary_round_aux.
  destruct (shr_fexp_normal q e l d Hq Hd Hlo) as (r1 & -> & Hm1).
  set (w := (2 ^ (d - 53))%Z) in *.
  assert (Hw : (0 < w)%Z) by (apply Z.pow_pos_nonneg; lia).
  assert (Hpow : (2 ^ d = w * 2 ^ 53)%Z).
  { unfold w. rewrite <- Z.pow_add_r by lia. f_equal. lia. }
  assert (Hpow' : (2 ^ (d - 1) = w * 2 ^ 52)%Z).
  { unfold w. rewrite <- Z.pow_add_r by lia. f_equal. lia. }
  set (m1 := shr_m r1) in *.
  assert (Hm1lo : (2 ^ 52 <= m1)%Z).
  { rewrite Hm1. apply Z.div_le_lower_bound; lia. }
  assert (Hm1hi : (m1 < 2 ^ 53)%Z).
  { rewrite Hm1. apply Z.div_lt_upper_bound; lia. }
  assert (Hdiv : exists r0, (q = m1 * w + r0 /\ 0 <= r0 < w)%Z).
  { exists (q mod w)%Z. split.
    - rewrite Hm1. rewrite Z.mul_comm. apply Z.div_mod. lia.
    - apply Z.mod_pos_bound. lia. }
  destruct Hdiv as (r0 & Hqr & Hr0).
  assert (HP : (2 ^ 52 * w <= m1 * w)%Z) by (apply Z.mul_le_mono_nonneg_r; lia).
  set (e1 := (e + (d - 53))%Z) in *.
  assert (Hfinal : forall m2 : Z,
             (m2 = m1 \/ m2 = m1 + 1)%Z ->
             exists (m : positive) (g : Z),
               (let '(mrs'', e'') := shr_fexp prec emax m2 e1 loc_Exact in
                match shr_m mrs'' with
                | 0%Z => S754_zero s
                | Z.pos m0 =>
                    if (e'' <=? emax - prec)%Z then S754_finite s m0 e''
                    else S754_infinity s
                | Z.neg _ => S754_nan
                end) = S754_finite s m (e + g)
               /\ (2 ^ 52 <= Z.pos m < 2 ^ 53)%Z
               /\ (d - 53 <= g <= d - 52)%Z
               /\ (Z.pos m * 2 ^ g = m2 * w)%Z).
  { intros m2 Hm2.
    destruct (Z.lt_ge_cases m2 (2 ^ 53)) as [Hlt|Hge].
    - destruct (shr_fexp_normal m2 e1 loc_Exact 53) as (r2 & -> & Hm2');
        [change (2 ^ (53 - 1))%Z with (2 ^ 52)%Z; lia | lia | lia |].
      change (2 ^ (53 - 53))%Z with 1%Z in Hm2'. rewrite Z.div_1_r in Hm2'.
      rewrite Hm2'. destruct m2 as [|m|m]; [lia| |lia].
      replace (e1 + (53 - 53) <=? emax - prec)%Z with true
        by (symmetry; apply Z.leb_le; unfold emax, prec; lia).
      exists m, (d - 53)%Z.
      replace (e1 + (53 - 53))%Z with (e + (d - 53))%Z by lia.
      split; [done|]. split; [lia|]. split; [lia|]. done.
    - assert (m2 = 2 ^ 53)%Z as -> by lia.
      destruct (shr_fexp_normal (2 ^ 53) e1 loc_Exact 54) as (r2 & -> & Hm2');
        [change (2 ^ (54 - 1))%Z with (2 ^ 53)%Z; lia | lia | lia |].
      change (2 ^ 53 / 2 ^ (54 - 53))%Z with (2 ^ 52)%Z in Hm2'.
      rewrite Hm2'.
      replace (e1 + (54 - 53) <=? emax - prec)%Z with true
        by (symmetry; apply Z.leb_le; unfold emax, prec; lia).
      exists (4503599627370496)%positive, (d - 52)%Z.
      replace (e1 + (54 - 53))%Z with (e + (d - 52))%Z by lia.
      split; [done|]. split; [lia|]. split; [lia|].
      replace (d - 52)%Z with (1 + (d - 53))%Z by lia.
      rewrite Z.pow_add_r by lia. fold w. lia. }
  destruct (round_nearest_even_choice m1 (loc_of_shr_record r1)) as [H2|H2];
    rewrite H2.
  - destruct (Hfinal m1) as (m & g & Hres & Hm & Hg & HW); [by left|].
    exists m, g. split; [done|]. split; [done|]. split; [done|].
    rewrite HW. lia.
  - destruct (Hfinal (m1 + 1)%Z) as (m & g & Hres & Hm & Hg & HW); [by right|].
    exists m, g. split; [done|]. split; [done|]. split; [done|].
    rewrite HW. lia.
Qed.

Lemma shr_fexp_53 (q e : Z) (l : location) :
  (2 ^ 52 <= q < 2 ^ 53)%Z -> (-1074 <= e)%Z ->
  shr_fexp prec emax q e l = (shr_record_of_loc q l, e).
Proof.
  intros Hq He. destruct q as [|p|p]; [lia| |lia].
  unfold shr_fexp. cbn [Zdigits2].
  rewrite (digits2_pos_unique p 53) by (change (2 ^ (53 - 1))%Z with (2 ^ 52)%Z; lia).
  assert (Hfexp : fexp prec emax (53 + e) = e).
  { unfold fexp, emin, prec, emax. lia. }
  rewrite Hfexp, Z.sub_diag. done.
Qed.

(** A mantissa of 53 digits that is exact is left as it is. *)
Lemma binary_round_aux_exact (s : bool) (p : positive) (e : Z) :
  (2 ^ 52 <= Z.pos p < 2 ^ 53)%Z -> (-1074 <= e <= 971)%Z ->
  binary_round_aux prec emax s (Z.pos p) e loc_Exact = S754_finite s p e.
Proof.
  intros Hp He. unfold binary_round_aux.
  rewrite shr_fexp_53 by lia. cbn [shr_record_of_loc shr_m loc_of_shr_record
                                   round_nearest_even].
  rewrite shr_fexp_53 by lia. cbn [shr_record_of_loc shr_m].
  replace (e <=? emax - prec)%Z with true
    by (symmetry; apply Z.leb_le; unfold emax, prec; lia).
  done.
Qed.

Lemma pos_iter_xO (n p : positive) :
  Z.pos (Pos.iter xO p n) = (Z.pos p * 2 ^ Z.pos n)%Z.
Proof.
  induction n as [|n IH] using Pos.peano_ind.
  - cbn [Pos.iter]. lia.
  - rewrite Pos.iter_succ, Pos2Z.inj_xO, IH, Pos2Z.inj_succ.
    rewrite Z.pow_succ_r by lia. lia.
Qed.

(** The double of a natural number below [2^53]: the number itself, with
    a mantissa of 53 digits. *)
Lemma float_of_nat_spec (k : nat) :
  1 <= k -> (Z.of_nat k < 2 ^ 53)%Z ->
  exists (m : positive) (e : Z),
    Prim2SF (float_of_nat k) = S754_finite false m e
    /\ (2 ^ 52 <= Z.pos m < 2 ^ 53)%Z
    /\ (-52 <= e <= 0)%Z
    /\ Z.pos m = (Z.of_nat k * 2 ^ (- e))%Z.
Proof.
  intros Hk1 Hk.
  unfold float_of_nat. rewrite of_uint63_spec, Uint63.of_Z_spec.
  rewrite Z.mod_small
    by (split; [lia|]; apply Z.lt_trans with (2 ^ 53)%Z; [done|reflexivity]).
  destruct (Z.of_nat k) as [|p|p] eqn:Hp; [lia| |lia].
  cbn [binary_normalize]. unfold binary_round.
  pose proof (digits2_pos_bounds p) as [Hlo Hhi].
  set (d := Z.pos (digits2_pos p)) in *.
  assert (Hd : (1 <= d <= 53)%Z).
  { split; [unfold d; lia|].
    destruct (Z.le_gt_cases d 53) as [|Hgt]; [done|].
    assert (2 ^ 53 <= 2 ^ (d - 1))%Z by (apply Z.pow_le_mono_r; lia). lia. }
  assert (Hfexp : fexp prec emax (d + 0) = (d - 53)%Z).
  { unfold fexp, emin, prec, emax. lia. }
  rewrite Hfexp. unfold shl_align.
  destruct (d - 53 - 0)%Z as [|n|n] eqn:Hn; [|lia|].
  - assert (d = 53)%Z as Hd53 by lia. rewrite Hd53 in *.
    change (2 ^ (53 - 1))%Z with (2 ^ 52)%Z in Hlo.
    rewrite binary_round_aux_exact by lia.
    exists p, 0%Z. split; [done|]. split; [lia|]. split; [lia|].
    change (2 ^ (- 0))%Z with 1%Z. lia.
  - assert (Hpow : (2 ^ (d - 1) * 2 ^ Z.pos n = 2 ^ 52)%Z).
    { rewrite <- Z.pow_add_r by lia. f_equal. lia. }
    assert (Hpow' : (2 ^ d * 2 ^ Z.pos n = 2 ^ 53)%Z).
    { rewrite <- Z.pow_add_r by lia. f_equal. lia. }
    assert (Hn0 : (0 < 2 ^ Z.pos n)%Z) by (apply Z.pow_pos_nonneg; lia).
    assert (Hm : (2 ^ 52 <= Z.pos (Pos.iter xO p n) < 2 ^ 53)%Z).
    { rewrite pos_iter_xO. rewrite <- Hpow, <- Hpow'. split.
      - apply Z.mul_le_mono_nonneg_r; lia.
      - apply Z.mul_lt_mono_pos_r; lia. }
    rewrite binary_round_aux_exact by lia.
    exists (Pos.iter xO p n), (d - 53)%Z.
    split; [done|]. split; [done|]. split; [lia|].
    rewrite pos_iter_xO. f_equal. f_equal. lia.
Qed.

(** The quotient of two positive doubles with mantissas of 53 digits and
    small exponents: a double of the same kind whose value is within a
    factor [1 + 2^-52] of the exact quotient. *)
Lemma SFdiv_faithful (mx my : positive) (ex ey : Z) :
  (2 ^ 52 <= Z.pos mx < 2 ^ 53)%Z -> (2 ^ 52 <= Z.pos my < 2 ^ 53)%Z ->
  (-400 <= ex <= 400)%Z -> (-400 <= ey <= 400)%Z ->
  exists (m : positive) (g : Z),
    SFdiv prec emax (S754_finite false mx ex) (S754_finite false my ey)
    = S754_finite false m (ex - ey - 53 + g)
    /\ (2 ^ 52 <= Z.pos m < 2 ^ 53)%Z
    /\ (0 <= g <= 2)%Z
    /\ (2 ^ 52 * (Z.pos m * 2 ^ g) * Z.pos my
        <= (2 ^ 52 + 1) * (Z.pos mx * 2 ^ 53))%Z
    /\ (Z.pos mx * 2 ^ 53 * 2 ^ 52
        <= (2 ^ 52 + 1) * (Z.pos m * 2 ^ g) * Z.pos my)%Z.
Proof.
  intros Hmx Hmy Hex Hey.
  cbn [SFdiv xorb]. unfold SFdiv_core_binary. cbn [Zdigits2].
  rewrite (digits2_pos_unique mx 53), (digits2_pos_unique my 53)
    by (change (2 ^ (53 - 1))%Z with (2 ^ 52)%Z; lia).
  assert (He' : Z.min (fexp prec emax (53 + ex - (53 + ey))) (ex - ey)
                = (ex - ey - 53)%Z).
  { unfold fexp, emin, prec, emax. lia. }
  rewrite He'.
  replace (ex - ey - (ex - ey - 53))%Z with 53%Z by lia.
  rewrite Z.shiftl_mul_pow2 by lia.
  set (a := (Z.pos mx * 2 ^ 53)%Z).
  pose proof (Z.div_eucl_eq a (Z.pos my) ltac:(lia)) as Heq.
  pose proof (Z.mod_pos_bound a (Z.pos my) ltac:(lia)) as Hmod.
  unfold Z.modulo in Hmod.
  destruct (Z.div_eucl a (Z.pos my)) as [q r]. cbn [fst snd] in *.
  assert (Hq : (2 ^ 52 <= q < 2 ^ 54)%Z).
  { unfold a in Heq. split; nia. }
  set (e' := (ex - ey - 53)%Z).
  destruct (Z.lt_ge_cases q (2 ^ 53)) as [Hlt|Hge].
  - destruct (binary_round_aux_faithful false q e'
                (new_location (Z.pos my) r) 53)
      as (m & g & Hres & Hm & Hg & HU & HL);
      [change (2 ^ (53 - 1))%Z with (2 ^ 52)%Z; lia | lia
      | unfold e'; lia | unfold e'; lia |].
    exists m, g. split; [done|]. split; [done|]. split; [lia|].
    set (W := (Z.pos m * 2 ^ g)%Z) in *. split; nia.
  - destruct (binary_round_aux_faithful false q e'
                (new_location (Z.pos my) r) 54)
      as (m & g & Hres & Hm & Hg & HU & HL);
      [change (2 ^ (54 - 1))%Z with (2 ^ 53)%Z; lia | lia
      | unfold e'; lia | unfold e'; lia |].
    exists m, g. split; [done|]. split; [done|]. split; [lia|].
    set (W := (Z.pos m * 2 ^ g)%Z) in *. split; nia.
Qed.

(** The product of two such doubles, likewise. *)
Lemma SFmul_faithful (mx my : positive) (ex ey : Z) :
  (2 ^ 52 <= Z.pos mx < 2 ^ 53)%Z -> (2 ^ 52 <= Z.pos my < 2 ^ 53)%Z ->
  (-400 <= ex <= 400)%Z -> (-400 <= ey <= 400)%Z ->
  exists (m : positive) (g : Z),
    SFmul prec emax (S754_finite false mx ex) (S754_finite false my ey)
    = S754_finite false m (ex + ey + g)
    /\ (2 ^ 52 <= Z.pos m < 2 ^ 53)%Z
    /\ (52 <= g <= 54)%Z
    /\ (2 ^ 52 * (Z.pos m * 2 ^ g) <= (2 ^ 52 + 1) * (Z.pos mx * Z.pos my))%Z
    /\ (Z.pos mx * Z.pos my * 2 ^ 52 <= (2 ^ 52 + 1) * (Z.pos m * 2 ^ g))%Z.
Proof.
  intros Hmx Hmy Hex Hey.
  cbn [SFmul xorb]. rewrite Pos2Z.inj_mul.
  set (q := (Z.pos mx * Z.pos my)%Z).
  assert (Hq : (2 ^ 104 <= q < 2 ^ 106)%Z).
  { unfold q. change (2 ^ 104)%Z with (2 ^ 52 * 2 ^ 52)%Z.
    change (2 ^ 106)%Z with (2 ^ 53 * 2 ^ 53)%Z. split; nia. }
  destruct (Z.lt_ge_cases q (2 ^ 105)) as [Hlt|Hge].
  - destruct (binary_round_aux_faithful false q (ex + ey) loc_Exact 105)
      as (m & g & Hres & Hm & Hg & HU & HL);
      [change (2 ^ (105 - 1))%Z with (2 ^ 104)%Z; lia | lia | lia | lia |].
    exists m, g. split; [done|]. split; [done|]. split; [lia|].
    split; lia.
  - destruct (binary_round_aux_faithful false q (ex + ey) loc_Exact 106)
      as (m & g & Hres & Hm & Hg & HU & HL);
      [change (2 ^ (106 - 1))%Z with (2 ^ 105)%Z; lia | lia | lia | lia |].
    exists m, g. split; [done|]. split; [done|]. split; [lia|].
    split; lia.
Qed.

(** [Math.round] of a positive double [m * 2^(G - E)]: the floor of its
    value plus one half, as a quotient of integers. *)
Lemma Math_round_quotient (x : float) (m : positive) (G E : Z) :
  Prim2SF x = S754_finite false m (G - E) -> (0 <= G)%Z -> (0 <= E)%Z ->
  Math_round x = Some ((2 * (Z.pos m * 2 ^ G) + 2 ^ E) / 2 ^ (E + 1))%Z.
Proof.
  intros Hx HG HE. unfold Math_round. rewrite Hx.
  assert (H2E : (0 < 2 ^ E)%Z) by (apply Z.pow_pos_nonneg; lia).
  assert (H2G : (0 < 2 ^ G)%Z) by (apply Z.pow_pos_nonneg; lia).
  rewrite (Z.pow_add_r 2 E 1) by lia. change (2 ^ 1)%Z with 2%Z.
  destruct (0 <=? G - E)%Z eqn:Hsign.
  - apply Z.leb_le in Hsign.
    assert (HG' : (2 ^ G = 2 ^ (G - E) * 2 ^ E)%Z).
    { rewrite <- Z.pow_add_r by lia. f_equal. lia. }
    rewrite HG'.
    replace (2 * (Z.pos m * (2 ^ (G - E) * 2 ^ E)) + 2 ^ E)%Z
      with (Z.pos m * 2 ^ (G - E) * (2 ^ E * 2) + 2 ^ E)%Z by lia.
    rewrite Z.div_add_l by lia.
    rewrite (Z.div_small (2 ^ E)) by lia. f_equal. lia.
  - apply Z.leb_gt in Hsign.
    assert (HE' : (2 ^ E = 2 ^ (- (G - E)) * 2 ^ G)%Z).
    { rewrite <- Z.pow_add_r by lia. f_equal. lia. }
    set (D := (2 ^ (- (G - E)))%Z) in *.
    assert (HD : (0 < D)%Z) by (apply Z.pow_pos_nonneg; lia).
    rewrite HE'.
    replace (2 * (Z.pos m * 2 ^ G) + D * 2 ^ G)%Z
      with ((2 * Z.pos m + D) * 2 ^ G)%Z by lia.
    replace (D * 2 ^ G * 2)%Z with (2 * D * 2 ^ G)%Z by lia.
    rewrite Z.div_mul_cancel_r by lia. done.
Qed.

Lemma div_le_cross (a b c d : Z) :
  (0 < b)%Z -> (0 < d)%Z -> (a * d <= c * b)%Z -> (a / b <= c / d)%Z.
Proof.
  intros Hb Hd H.
  rewrite <- (Z.div_mul_cancel_r a b d), <- (Z.div_mul_cancel_r c d b) by lia.
  rewrite (Z.mul_comm d b). apply Z.div_le_mono; lia.
Qed.

(** The percentage computed for [k] of [n]: [Math.round] of a double
    [N / 2^E] that is within a factor [(1 + 2^-52)^2] of [100 * k / n]. *)
Lemma js_progress_spec (k n : nat) :
  1 <= k -> 1 <= n -> (Z.of_nat k < 2 ^ 53)%Z -> (Z.of_nat n < 2 ^ 53)%Z ->
  exists N E : Z,
    (0 <= E)%Z /\ (0 < N)%Z
    /\ js_progress k n = Z.min 100 ((2 * N + 2 ^ E) / 2 ^ (E + 1))
    /\ (2 ^ 104 * N * Z.of_nat n
        <= 100 * (2 ^ 52 + 1) * (2 ^ 52 + 1) * Z.of_nat k * 2 ^ E)%Z
    /\ (100 * 2 ^ 104 * Z.of_nat k * 2 ^ E
        <= (2 ^ 52 + 1) * (2 ^ 52 + 1) * N * Z.of_nat n)%Z.
Proof.
  intros Hk1 Hn1 Hk Hn.
  destruct (float_of_nat_spec k Hk1 Hk) as (mk & ek & Hfk & Hmk & Hek & Hvk).
  destruct (float_of_nat_spec n Hn1 Hn) as (mn & en & Hfn & Hmn & Hen & Hvn).
  assert (Hf100 : Prim2SF (float_of_nat 100)
                  = S754_finite false 7036874417766400 (-46))
    by (vm_compute; reflexivity).
  destruct (SFdiv_faithful mk mn ek en Hmk Hmn) as
    (md & g1 & Hdiv & Hmd & Hg1 & HU1 & HL1); [lia | lia |].
  destruct (SFmul_faithful md 7036874417766400 (ek - en - 53 + g1) (-46) Hmd)
    as (mp & g2 & Hmul & Hmp & Hg2 & HU2 & HL2); [lia | lia | lia |].
  set (x := PrimFloat.mul (PrimFloat.div (float_of_nat k) (float_of_nat n))
                          (float_of_nat 100)).
  assert (Hx : Prim2SF x
               = S754_finite false mp ((g1 + g2) - (99 - ek + en))).
  { unfold x. rewrite mul_spec, div_spec, Hfk, Hfn, Hf100.
    unfold SF64mul, SF64div. rewrite Hdiv, Hmul. f_equal. lia. }
  set (E := (99 - ek + en)%Z) in *.
  set (a := (2 ^ (- ek))%Z) in *. set (b := (2 ^ (- en))%Z) in *.
  assert (Ha : (0 < a)%Z) by (apply Z.pow_pos_nonneg; lia).
  assert (Hb : (0 < b)%Z) by (apply Z.pow_pos_nonneg; lia).
  assert (HEab : (2 ^ E * b = 2 ^ 99 * a)%Z).
  { unfold a, b, E. rewrite <- !Z.pow_add_r by lia. f_equal. lia. }
  assert (Hg12 : (2 ^ (g1 + g2) = 2 ^ g1 * 2 ^ g2)%Z)
    by (apply Z.pow_add_r; lia).
  set (N := (Z.pos mp * 2 ^ (g1 + g2))%Z).
  exists N, E.
  assert (H2g1 : (0 < 2 ^ g1)%Z) by (apply Z.pow_pos_nonneg; lia).
  assert (H2g2 : (0 < 2 ^ g2)%Z) by (apply Z.pow_pos_nonneg; lia).
  assert (H2E : (0 < 2 ^ E)%Z) by (apply Z.pow_pos_nonneg; unfold E; lia).
  split; [unfold E; lia|]. split; [unfold N; rewrite Hg12; nia|].
  split.
  { unfold js_progress, clamp_percent. fold x.
    by rewrite (Math_round_quotient x mp (g1 + g2) E Hx)
      by (unfold E; lia). }
  set (W1 := (Z.pos md * 2 ^ g1)%Z) in *.
  set (W2 := (Z.pos mp * 2 ^ g2)%Z) in *.
  assert (HN : (N = W2 * 2 ^ g1)%Z) by (unfold N, W2; rewrite Hg12; lia).
  change (Z.pos 7036874417766400) with (100 * 2 ^ 46)%Z in *.
  set (c := (2 ^ 52 + 1)%Z) in *.
  assert (Hc : (0 < c)%Z) by (unfold c; lia).
  split.
  - (* upper bound *)
    assert (H1 : (2 ^ 52 * N <= c * (100 * 2 ^ 46) * W1)%Z).
    { rewrite HN. unfold W1.
      replace (2 ^ 52 * (W2 * 2 ^ g1))%Z with (2 ^ 52 * W2 * 2 ^ g1)%Z by lia.
      replace (c * (100 * 2 ^ 46) * (Z.pos md * 2 ^ g1))%Z
        with (c * (Z.pos md * (100 * 2 ^ 46)) * 2 ^ g1)%Z by lia.
      apply Z.mul_le_mono_nonneg_r; lia. }
    assert (H2 : (2 ^ 52 * (2 ^ 52 * N) * Z.pos mn
                  <= c * (100 * 2 ^ 46) * (c * (Z.pos mk * 2 ^ 53)))%Z).
    { replace (2 ^ 52 * (2 ^ 52 * N) * Z.pos mn)%Z
        with ((2 ^ 52 * N) * (2 ^ 52 * Z.pos mn))%Z by lia.
      apply Z.le_trans with (c * (100 * 2 ^ 46) * W1 * (2 ^ 52 * Z.pos mn))%Z.
      - apply Z.mul_le_mono_nonneg_r; lia.
      - replace (c * (100 * 2 ^ 46) * W1 * (2 ^ 52 * Z.pos mn))%Z
          with (c * (100 * 2 ^ 46) * (2 ^ 52 * W1 * Z.pos mn))%Z by lia.
        apply Z.mul_le_mono_nonneg_l; lia. }
    rewrite Hvk, Hvn in H2. fold a b in H2.
    apply (Z.mul_le_mono_pos_r _ _ b Hb).
    replace (100 * c * c * Z.of_nat k * 2 ^ E * b)%Z
      with (100 * c * c * Z.of_nat k * (2 ^ E * b))%Z by lia.
    rewrite HEab.
    change (2 ^ 104)%Z with (2 ^ 52 * 2 ^ 52)%Z.
    change (2 ^ 99)%Z with (2 ^ 46 * 2 ^ 53)%Z. lia.
  - (* lower bound *)
    assert (H1 : (Z.pos md * (100 * 2 ^ 46) * 2 ^ 52 * 2 ^ g1 <= c * N)%Z).
    { rewrite HN.
      replace (c * (W2 * 2 ^ g1))%Z with (c * W2 * 2 ^ g1)%Z by lia.
      apply Z.mul_le_mono_nonneg_r; lia. }
    assert (H2 : (Z.pos mk * 2 ^ 53 * 2 ^ 52 * (100 * 2 ^ 46 * 2 ^ 52)
                  <= c * (c * N) * Z.pos mn)%Z).
    { apply Z.le_trans
        with (c * W1 * Z.pos mn * (100 * 2 ^ 46 * 2 ^ 52))%Z.
      - apply Z.mul_le_mono_nonneg_r; lia.
      - replace (c * W1 * Z.pos mn * (100 * 2 ^ 46 * 2 ^ 52))%Z
          with (c * Z.pos mn * (Z.pos md * (100 * 2 ^ 46) * 2 ^ 52 * 2 ^ g1))%Z
          by (unfold W1; lia).
        replace (c * (c * N) * Z.pos mn)%Z with (c * Z.pos mn * (c * N))%Z
          by lia.
        apply Z.mul_le_mono_nonneg_l; lia. }
    rewrite Hvk, Hvn in H2. fold a b in H2.
    apply (Z.mul_le_mono_pos_r _ _ b Hb).
    replace (100 * 2 ^ 104 * Z.of_nat k * 2 ^ E * b)%Z
      with (100 * 2 ^ 104 * Z.of_nat k * (2 ^ E * b))%Z by lia.
    rewrite HEab.
    change (2 ^ 104)%Z with (2 ^ 52 * 2 ^ 52)%Z.
    change (2 ^ 99)%Z with (2 ^ 46 * 2 ^ 53)%Z. lia.
Qed.

(** The percentage never goes down from one item to a later one.  The
    two roundings of the computation move a value by less than one part in
    [2^51], and two consecutive quotients differ by one part in [n]; [n]
    is below [2^32], as the length of every JavaScript array is. *)
Lemma js_progress_mono (n k k' : nat) :
  1 <= k -> k <= k' -> k' <= n -> (Z.of_nat n < 2 ^ 32)%Z ->
  (js_progress k n <= js_progress k' n)%Z.
Proof.
  intros Hk1 Hkk' Hk'n Hn.
  destruct (decide (k = k')) as [->|Hne]; [done|].
  assert (H32 : (2 ^ 32 < 2 ^ 53)%Z) by done.
  destruct (js_progress_spec k n) as (N & E & HE & HN & -> & HU & _);
    [lia..|].
  destruct (js_progress_spec k' n) as (N' & E' & HE' & HN' & -> & _ & HL);
    [lia..|].
  apply Z.min_le_compat_l.
  set (X := (2 ^ E)%Z) in *. set (X' := (2 ^ E')%Z) in *.
  assert (HX : (0 < X)%Z) by (apply Z.pow_pos_nonneg; lia).
  assert (HX' : (0 < X')%Z) by (apply Z.pow_pos_nonneg; lia).
  rewrite !Z.pow_add_r by lia. change (2 ^ 1)%Z with 2%Z. fold X X'.
  set (c := (2 ^ 52 + 1)%Z) in *.
  set (kz := Z.of_nat k) in *. set (kz' := Z.of_nat k') in *.
  set (nz := Z.of_nat n) in *.
  assert (Hcross : (N * X' <= N' * X)%Z).
  { assert (HC : (kz * (c * c * c * c) <= kz' * (2 ^ 104 * 2 ^ 104))%Z).
    { unfold c, kz, kz'. lia. }
    assert (S1 : (2 ^ 104 * N * nz * (X' * (c * c * 2 ^ 104))
                  <= 100 * c * c * kz * X * (X' * (c * c * 2 ^ 104)))%Z).
    { apply Z.mul_le_mono_nonneg_r; [unfold c; lia | done]. }
    assert (S2 : (kz * (c * c * c * c) * (100 * X * X' * 2 ^ 104)
                  <= kz' * (2 ^ 104 * 2 ^ 104) * (100 * X * X' * 2 ^ 104))%Z).
    { apply Z.mul_le_mono_nonneg_r; [lia | done]. }
    assert (S3 : (100 * 2 ^ 104 * kz' * X' * (X * (2 ^ 104 * 2 ^ 104))
                  <= c * c * N' * nz * (X * (2 ^ 104 * 2 ^ 104)))%Z).
    { apply Z.mul_le_mono_nonneg_r; [lia | done]. }
    assert (S4 : (N * X' * (2 ^ 104 * 2 ^ 104 * c * c * nz)
                  <= N' * X * (2 ^ 104 * 2 ^ 104 * c * c * nz))%Z).
    { set (P := (2 ^ 104)%Z) in *.
      apply Z.le_trans with (100 * c * c * kz * X * (X' * (c * c * P)))%Z;
        [by replace (N * X' * (P * P * c * c * nz))%Z
            with (P * N * nz * (X' * (c * c * P)))%Z by ring|].
      apply Z.le_trans with (kz' * (P * P) * (100 * X * X' * P))%Z;
        [by replace (100 * c * c * kz * X * (X' * (c * c * P)))%Z
            with (kz * (c * c * c * c) * (100 * X * X' * P))%Z by ring|].
      by replace (kz' * (P * P) * (100 * X * X' * P))%Z
           with (100 * P * kz' * X' * (X * (P * P)))%Z by ring;
         replace (N' * X * (P * P * c * c * nz))%Z
           with (c * c * N' * nz * (X * (P * P)))%Z by ring. }
    apply (Z.mul_le_mono_pos_r _ _ (2 ^ 104 * 2 ^ 104 * c * c * nz));
      [unfold c, nz; lia | done]. }
  apply div_le_cross; [lia | lia |]. nia.
Qed.

(** *** The sign of the percentage *)

Lemma binary_round_aux_sign (s : bool) (q e : Z) (l : location) :
  sign_is s (binary_round_aux prec emax s q e l).
Proof.
  unfold binary_round_aux.
  destruct (shr_fexp prec emax q e l) as [r1 e1].
  destruct (shr_fexp prec emax _ e1 loc_Exact) as [r2 e2].
  destruct (shr_m r2); [done| |done].
  by destruct (e2 <=? emax - prec)%Z.
Qed.

Lemma float_of_nat_sign (k : nat) : sign_is false (Prim2SF (float_of_nat k)).
Proof.
  unfold float_of_nat. rewrite of_uint63_spec.
  pose proof (Uint63.to_Z_bounded (Uint63.of_Z (Z.of_nat k))) as [Hlo _].
  destruct (Uint63.to_Z _) as [|p|p]; [done| |lia].
  cbn [binary_normalize]. unfold binary_round.
  destruct (shl_align _ _ _) as [mz ez]. apply binary_round_aux_sign.
Qed.

Lemma SFdiv_sign (x y : spec_float) :
  sign_is false x -> sign_is false y -> sign_is false (SFdiv prec emax x y).
Proof.
  destruct x as [sx|sx| |sx mx ex], y as [sy|sy| |sy my ey];
    cbn [sign_is SFdiv]; try done; try (by intros -> ->).
  intros -> ->.
  destruct (SFdiv_core_binary _ _ _ _ _ _) as [[mz ez] lz].
  apply binary_round_aux_sign.
Qed.

Lemma SFmul_sign (x y : spec_float) :
  sign_is false x -> sign_is false y -> sign_is false (SFmul prec emax x y).
Proof.
  destruct x as [sx|sx| |sx mx ex], y as [sy|sy| |sy my ey];
    cbn [sign_is SFmul]; try done; try (by intros -> ->).
  intros -> ->. apply binary_round_aux_sign.
Qed.

Lemma clamp_percent_range (x : float) :
  sign_is false (Prim2SF x) -> (0 <= clamp_percent x <= 100)%Z.
Proof.
  unfold clamp_percent, Math_round.
  destruct (Prim2SF x) as [s|s| |s m e]; cbn [sign_is]; intros Hs;
    try subst s; try lia.
  destruct (0 <=? e)%Z eqn:He.
  - apply Z.leb_le in He.
    assert (0 < 2 ^ e)%Z by (apply Z.pow_pos_nonneg; lia). nia.
  - apply Z.leb_gt in He.
    assert (Hd : (0 < 2 ^ (- e))%Z) by (apply Z.pow_pos_nonneg; lia).
    assert (0 <= (2 * Z.pos m + 2 ^ (- e)) / (2 * 2 ^ (- e)))%Z
      by (apply Z.div_pos; lia).
    lia.
Qed.

(** Whatever the two numbers, the percentage lies between 0 and 100. *)
Lemma js_progress_range (k n : nat) : (0 <= js_progress k n <= 100)%Z.
Proof.
  unfold js_progress. apply clamp_percent_range.
  rewrite mul_spec, div_spec.
  apply SFmul_sign; [apply SFdiv_sign|]; apply float_of_nat_sign.
Qed.

(** *** The progress values of a run *)

Lemma progress_updates_epilogue (r : outcome (list GeneratedAsset)) :
  progress_updates (epilogue r) = [0%Z].
Proof.
  unfold epilogue, catch_block, finally_block.
  destruct r as [?|err]; [done|].
  destruct (message_includes err _); [done|]. by destruct (_ || _).
Qed.

Lemma progress_after_epilogue (s : AppState)
    (r : outcome (list GeneratedAsset)) :
  progress (state_after s (epilogue r)) = 0%Z.
Proof.
  unfold epilogue, catch_block, finally_block.
  destruct r as [?|err]; [done|].
  destruct (message_includes err _); [done|]. by destruct (_ || _).
Qed.

Section ProgressFacts.
Variable generatePromptVariations
  : string -> AssetType -> nat -> outcome (list string).
Variable generateSingleAsset : nat -> string -> AssetType -> outcome string.
Variable random_id : nat -> string.
Variable now : nat -> Z.
Variable basePrompt : string.
Variable type : AssetType.

Abbreviation run :=
  (handleGenerate generatePromptVariations generateSingleAsset random_id now
     basePrompt type).
Abbreviation items := (run_items generateSingleAsset random_id now type).
Abbreviation settle := (settle_item generateSingleAsset random_id now type).
Abbreviation done_items :=
  (processed generateSingleAsset random_id now type).

(** The progress values of a run, whatever the number of prompts: the
    reset, one value per item the loop got through, the reset. *)
Lemma run_progress_updates (vs : list string) :
  generatePromptVariations basePrompt type requestedCount = Fulfilled vs ->
  progress_updates (snd run)
  = 0%Z :: map (fun k => js_progress k (length vs))
               (seq 1 (done_items 0 vs)) ++ [0%Z].
Proof.
  intros Hvs. rewrite (run_with_variations _ _ _ _ _ _ vs Hvs). cbn [snd].
  by rewrite !progress_updates_app, progress_updates_epilogue, items_progress.
Qed.

(** C5 (as amended).  In a run over [n] prompts, the progress values
    are: 0 at the start; after the [k]-th item the loop got through
    (fetched or skipped), [Math.min(100, Math.round((k / n) * 100))] as
    computed on doubles; and 0 again at the end, the state being left with
    progress 0.  Whatever [n], the values between the two resets stay
    within 0..100 and never decrease (for the latter [n] is taken below
    [2^32], as the length of a JavaScript array is).  For [n <= 39] each
    of them is [round(100 * k / n)], a tie going up, clamped to 100; from
    [n = 40] on the two roundings of the computation can make it one
    less. *)
Theorem progress_tracks_items (s0 : AppState) (vs : list string) :
  generatePromptVariations basePrompt type requestedCount = Fulfilled vs ->
  done_items 0 vs <= length vs
  /\ progress_updates (snd run)
     = 0%Z :: map (fun k => js_progress k (length vs))
                  (seq 1 (done_items 0 vs)) ++ [0%Z]
  /\ (length vs <= 39 ->
      forall k, 1 <= k <= length vs ->
                js_progress k (length vs) = exact_progress k (length vs))
  /\ ((Z.of_nat (length vs) < 2 ^ 32)%Z ->
      forall k k', 1 <= k -> k <= k' -> k' <= length vs ->
                   (js_progress k (length vs)
                      <= js_progress k' (length vs))%Z)
  /\ (forall k, (0 <= js_progress k (length vs) <= 100)%Z)
  /\ progress (state_after s0 (snd run)) = 0%Z.
Proof.
  intros Hvs.
  pose proof (processed_le generateSingleAsset random_id now type vs 0) as Hm.
  split; [exact Hm|]. split; [exact (run_progress_updates vs Hvs)|].
  split; [intros Hn k Hk; by apply js_progress_exact|].
  split; [intros Hn k k' Hk Hkk' Hk'; by apply js_progress_mono|].
  split; [intros k; apply js_progress_range|].
  rewrite (run_with_variations _ _ _ _ _ _ vs Hvs). cbn [snd].
  rewrite app_assoc, state_after_app. apply progress_after_epilogue.
Qed.

(** C6 (as amended).  When the fetch for item [i] (counted from 0)
    succeeds, its asset is appended and progress is set to
    [Math.min(100, Math.round(((i + 1) / n) * 100))]: the share of the [n]
    prompts fetched so far, [i + 1] being the number of fetches made, which
    the number of assets completed never exceeds.  For [n <= 39] this is
    [round(100 * (i + 1) / n)]. *)
Theorem progress_after_success (vs : list string) (i : nat) (p : string)
    (u : string) :
  generatePromptVariations basePrompt type requestedCount = Fulfilled vs ->
  CallGenerate i p ∈ snd run ->
  generateSingleAsset i p type = Fulfilled u ->
  exists before after,
    snd run
    = before ++ [CallGenerate i p;
                 SetAssets [mkAsset (random_id i) u type p (now i)
                                    (AssetType_eqb type GIF)];
                 SetProgress (js_progress (S i) (length vs))] ++ after
    /\ length (calls before) = i
    /\ S (length (appended before)) <= S i
    /\ (length vs <= 39 ->
        js_progress (S i) (length vs) = exact_progress (S i) (length vs)).
Proof.
  intros Hvs Hin Hok.
  assert (Hp : vs !! i = Some p).
  { by apply (run_call_iff _ _ _ _ _ _ vs i p Hvs) in Hin as [? _]. }
  destruct (call_in_run _ _ _ _ _ _ _ _ Hin) as (vs' & Hvs' & Hloop).
  rewrite Hvs in Hvs'. injection Hvs' as <-.
  assert (Hs : settle i p
               = Got (mkAsset (random_id i) u type p (now i)
                              (AssetType_eqb type GIF))).
  { unfold settle_item. by rewrite Hok. }
  destruct (items_got_block _ _ _ _ _ _ _ _ _ _ _ Hloop Hs)
    as (before & after & Htr & _ & Hcalls & Happ).
  rewrite (run_with_variations _ _ _ _ _ _ vs Hvs). cbn [snd].
  rewrite Htr. cbn [item_events].
  exists (prologue ++ before),
    ((if S i <? length vs then [Pause 4000] else []) ++ after
       ++ epilogue (check_forged (fst (items (length vs) 0 vs [])))).
  split; [by rewrite <- !app_assoc|].
  rewrite calls_app, appended_app, length_app.
  split; [cbn; lia|]. split; [cbn; lia|].
  intros Hn. apply js_progress_exact; [done|].
  apply lookup_lt_Some in Hp. lia.
Qed.

End ProgressFacts.

(** The progress of a concrete run over three prompts, the second of
    which is skipped. *)
Lemma progress_tracks_items_witness :
  progress_updates (snd (sample_run no_image)) = [0; 33; 67; 100; 0]%Z
  /\ (forall k k', 1 <= k -> k <= k' -> k' <= 3 ->
                   (js_progress k 3 <= js_progress k' 3)%Z).
Proof.
  assert (Hvs : sample_variations "red balloon" STICKER requestedCount
                = Fulfilled ["red balloon from above"; "red balloon in blue";
                             "red balloon close up"]) by reflexivity.
  destruct (progress_tracks_items sample_variations (sample_fetch no_image)
              sample_id sample_now "red balloon" STICKER initial_state _
              Hvs) as (_ & Hupdates & _ & Hmono & _).
  split.
  - unfold sample_run. rewrite Hupdates. reflexivity.
  - apply Hmono. reflexivity.
Defined.

(** C5 as stated fails on a run over 40 prompts: after the 23rd item the
    progress is 57, not [round(100 * 23 / 40) = round(57.5) = 58].  The
    expression divides first: [23 / 40] is rounded to the double
    [5179139571476070 * 2^-53], a little below 0.575, and its product with
    100 is rounded to the double [8092405580431359 * 2^-47], the one just
    below 57.5 (printed 57.49999999999999), which [Math.round] takes to
    57. *)
Lemma progress_claim_counterexample :
  copies_variations 40 "red balloon" STICKER requestedCount
  = Fulfilled (repeat "red balloon" 40)
  /\ length (calls (snd (handleGenerate (copies_variations 40) (fetch_from 0)
                          sample_id sample_now "red balloon" STICKER))) = 40
  /\ progress_updates
       (snd (handleGenerate (copies_variations 40) (fetch_from 0)
               sample_id sample_now "red balloon" STICKER)) !! 23
     = Some 57%Z
  /\ exact_progress 23 40 = 58%Z
  /\ Prim2SF (PrimFloat.div (float_of_nat 23) (float_of_nat 40))
     = S754_finite false 5179139571476070 (-53)
  /\ Prim2SF (PrimFloat.mul (PrimFloat.div (float_of_nat 23) (float_of_nat 40))
                            (float_of_nat 100))
     = S754_finite false 8092405580431359 (-47).
Proof.
  repeat split; vm_compute; reflexivity.
Qed.

(** The progress after a successful fetch in a concrete run: the third
    fetch of three, the second having been skipped. *)
Lemma progress_after_success_witness :
  sample_variations "red balloon" STICKER requestedCount
  = Fulfilled ["red balloon from above"; "red balloon in blue";
               "red balloon close up"]
  /\ CallGenerate 2 "red balloon close up" ∈ snd (sample_run no_image)
  /\ sample_fetch no_image 2 "red balloon close up" STICKER
     = Fulfilled "data:image/png;base64,red balloon close up"
  /\ exists before after,
      snd (sample_run no_image)
      = before ++ [CallGenerate 2 "red balloon close up";
                   SetAssets [mkAsset "u5t8w1e6d"
                                "data:image/png;base64,red balloon close up"
                                STICKER "red balloon close up"
                                1700000008000 false];
                   SetProgress 100] ++ after
      /\ length (calls before) = 2.
Proof.
  assert (Hvs : sample_variations "red balloon" STICKER requestedCount
                = Fulfilled ["red balloon from above"; "red balloon in blue";
                             "red balloon close up"]) by reflexivity.
  assert (Hin : CallGenerate 2 "red balloon close up"
                  ∈ snd (sample_run no_image)).
  { apply list_elem_of_In. vm_compute. tauto. }
  assert (Hok : sample_fetch no_image 2 "red balloon close up" STICKER
                = Fulfilled "data:image/png;base64,red balloon close up")
    by reflexivity.
  split; [exact Hvs|]. split; [exact Hin|]. split; [exact Hok|].
  destruct (progress_after_success sample_variations (sample_fetch no_image)
              sample_id sample_now "red balloon" STICKER _ 2
              "red balloon close up" _ Hvs Hin Hok)
    as (before & after & Htr & Hcalls & _).
  exists before, after. split; [exact Htr | exact Hcalls].
Defined.

(** C6 as stated fails when an earlier item was skipped.  In this run the
    second fetch fails; when the third succeeds two assets are complete
    out of three prompts, [round(100 * 2 / 3) = 67], yet progress is set
    to 100. *)
Lemma completed_count_claim_counterexample :
  snd (sample_run no_image)
  = [SetIsGenerating true; SetProgress 0; SetError None; CallVariations;
     CallGenerate 0 "red balloon from above";
     SetAssets [mkAsset "k3x9q0a1b"
                  "data:image/png;base64,red balloon from above"
                  STICKER "red balloon from above" 1700000000000 false];
     SetProgress 33; Pause 4000;
     CallGenerate 1 "red balloon in blue"; ConsoleError;
     SetAssets []; SetProgress 67; Pause 4000;
     CallGenerate 2 "red balloon close up";
     SetAssets [mkAsset "u5t8w1e6d"
                  "data:image/png;base64,red balloon close up"
                  STICKER "red balloon close up" 1700000008000 false];
     SetProgress 100;
     SetIsGenerating false; SetProgress 0]%Z
  /\ length (appended (snd (sample_run no_image))) = 2
  /\ exact_progress 2 3 = 67%Z.
Proof.
  repeat split; vm_compute; reflexivity.
Qed.

(** ** Visibility of the assets *)

Lemma length_indexed (ps : list string) :
  forall i, length (indexed i ps) = length ps.
Proof.
  induction ps as [|p ps IH]; intros i; [done|].
  cbn [indexed length]. by rewrite IH.
Qed.

(** With at most one asset per update, the collection on screen is what
    arrived so far, latest first, before what was there. *)
Lemma assets_state_after (tr : list ui_event) :
  one_at_a_time tr ->
  forall s, assets (state_after s tr) = rev (appended tr) ++ assets s.
Proof.
  unfold one_at_a_time.
  induction 1 as [|ev tr Hev _ IH]; intros s; [done|].
  cbn [state_after fold_left]. fold (state_after (apply_event s ev) tr).
  rewrite IH.
  destruct ev as [| | |successful| | | | |]; try done.
  cbn [appended flat_map apply_event assets]. fold (appended tr).
  rewrite rev_app_distr, <- app_assoc. do 2 f_equal.
  destruct successful as [|a [|b l]]; [done | done | cbn in Hev; lia].
Qed.

Section VisibilityFacts.
Variable generatePromptVariations
  : string -> AssetType -> nat -> outcome (list string).
Variable generateSingleAsset : nat -> string -> AssetType -> outcome string.
Variable random_id : nat -> string.
Variable now : nat -> Z.
Variable basePrompt : string.
Variable type : AssetType.

Abbreviation run :=
  (handleGenerate generatePromptVariations generateSingleAsset random_id now
     basePrompt type).
Abbreviation items := (run_items generateSingleAsset random_id now type).
Abbreviation settle := (settle_item generateSingleAsset random_id now type).
Abbreviation tried := (attempts generateSingleAsset random_id now type).
Abbreviation arriving := (arrivals generateSingleAsset random_id now type).

Lemma items_one_at_a_time (n : nat) (ps : list string) :
  forall i acc, one_at_a_time (snd (items n i ps acc)).
Proof.
  unfold one_at_a_time.
  induction ps as [|p ps IH]; intros i acc; [by constructor|].
  cbn [run_items]. destruct (settle i p) as [a|err|err].
  3:{ cbn. by repeat constructor. }
  all: at_recursive_call IH; apply Forall_app; split; [|done];
    cbn [item_events]; destruct (S i <? n); cbn; repeat constructor; cbn; lia.
Qed.

Lemma run_one_at_a_time : one_at_a_time (snd run).
Proof.
  assert (Hpro : one_at_a_time prologue) by (by repeat constructor).
  assert (Hepi : forall r, one_at_a_time (epilogue r)).
  { intros r. unfold epilogue, catch_block, finally_block.
    destruct r as [?|err]; [by repeat constructor|].
    destruct (message_includes err _); [by repeat constructor|].
    destruct (_ || _); by repeat constructor. }
  unfold one_at_a_time in *.
  destruct (generatePromptVariations basePrompt type requestedCount)
    as [vs|err] eqn:Hvs.
  - rewrite (run_with_variations _ _ _ _ _ _ vs Hvs). cbn [snd].
    rewrite !Forall_app. split; [done|]. split; [|done].
    apply items_one_at_a_time.
  - rewrite (run_without_variations _ _ _ _ _ _ err Hvs). cbn [snd].
    rewrite Forall_app. by split.
Qed.

(** The fetches and the arrivals of a run are those of its loop. *)
Lemma run_calls_appended :
  match generatePromptVariations basePrompt type requestedCount with
  | Fulfilled vs =>
      calls (snd run) = indexed 0 (take (tried 0 vs) vs)
      /\ appended (snd run) = appended (snd (items (length vs) 0 vs []))
  | Rejected _ => calls (snd run) = [] /\ appended (snd run) = []
  end.
Proof.
  assert (Hpro : calls prologue = [] /\ appended prologue = []) by done.
  assert (Hepi : forall r, calls (epilogue r) = [] /\ appended (epilogue r) = []).
  { intros r. split; [apply calls_quiet | apply appended_quiet];
      intros ev Hev; by apply epilogue_quiet in Hev as [? ?]. }
  destruct (generatePromptVariations basePrompt type requestedCount)
    as [vs|err] eqn:Hvs.
  - rewrite (run_with_variations _ _ _ _ _ _ vs Hvs). cbn [snd].
    rewrite !calls_app, !appended_app.
    destruct (Hepi (check_forged (fst (items (length vs) 0 vs []))))
      as [-> ->].
    destruct Hpro as [-> ->]. rewrite !app_nil_r, !app_nil_l.
    split; [apply items_calls | done].
  - rewrite (run_without_variations _ _ _ _ _ _ err Hvs). cbn [snd].
    rewrite !calls_app, !appended_app.
    destruct (Hepi (Rejected err)) as [-> ->]. by destruct Hpro as [-> ->].
Qed.

(** C8.  Every asset is shown as soon as its fetch completes: the update
    that adds it is the event right after its fetch, before any pause or
    later fetch.  The assets arrive in the order of the fetches, and the
    fetches are made in the order of the prompts.  At every moment of the
    run the collection on screen holds exactly the assets that arrived so
    far, on top of those that were there before the run: each new asset
    goes to the front and the ones already shown keep their order. *)
Theorem assets_shown_on_arrival (s0 : AppState) :
  (forall i p u,
      CallGenerate i p ∈ snd run ->
      generateSingleAsset i p type = Fulfilled u ->
      exists before after,
        snd run
        = before ++ CallGenerate i p
            :: SetAssets [mkAsset (random_id i) u type p (now i)
                                  (AssetType_eqb type GIF)]
            :: after)
  /\ appended (snd run) = arriving (calls (snd run))
  /\ (forall vs,
        generatePromptVariations basePrompt type requestedCount = Fulfilled vs ->
        calls (snd run) = indexed 0 (take (length (calls (snd run))) vs))
  /\ (forall before after,
        snd run = before ++ after ->
        assets (state_after s0 before) = rev (appended before) ++ assets s0).
Proof.
  split; [|split; [|split]].
  - intros i p u Hin Hok.
    destruct (call_in_run _ _ _ _ _ _ _ _ Hin) as (vs & Hvs & Hloop).
    assert (Hs : settle i p
                 = Got (mkAsset (random_id i) u type p (now i)
                                (AssetType_eqb type GIF))).
    { unfold settle_item. by rewrite Hok. }
    destruct (items_got_block _ _ _ _ _ _ _ _ _ _ _ Hloop Hs)
      as (before & after & Htr & _).
    rewrite (run_with_variations _ _ _ _ _ _ vs Hvs). cbn [snd].
    rewrite Htr. cbn [item_events].
    exists (prologue ++ before),
      ([SetProgress (js_progress (S i) (length vs))]
         ++ (if S i <? length vs then [Pause 4000] else []) ++ after
         ++ epilogue (check_forged (fst (items (length vs) 0 vs [])))).
    by rewrite <- !app_assoc.
  - pose proof run_calls_appended as H.
    destruct (generatePromptVariations basePrompt type requestedCount)
      as [vs|err]; destruct H as [Hc Ha]; rewrite Hc, Ha; [|done].
    by rewrite items_appended, items_calls.
  - intros vs Hvs. pose proof run_calls_appended as H.
    rewrite Hvs in H. destruct H as [Hc _]. rewrite Hc at 1.
    rewrite Hc, length_indexed, length_take.
    by rewrite Nat.min_l by apply attempts_le.
  - intros before after Htr.
    apply assets_state_after.
    pose proof run_one_at_a_time as H. rewrite Htr in H.
    unfold one_at_a_time in *. by apply Forall_app in H as [? _].
Qed.

(** The loop never touches the error message. *)
Lemma items_error (n : nat) (ps : list string) :
  forall i acc s,
    error (state_after s (snd (items n i ps acc))) = error s.
Proof.
  assert (Hone : forall i p r s,
             error (state_after s (item_events n i p r)) = error s).
  { intros i p r s. by destruct r; cbn [item_events]; destruct (S i <? n). }
  induction ps as [|p ps IH]; intros i acc s; [done|].
  cbn [run_items]. destruct (settle i p) as [a|err|err]; [| |apply Hone];
    at_recursive_call IH; by rewrite state_after_app, IH, Hone.
Qed.

(** A fetched asset carries the prompt it was fetched for. *)
Lemma settle_got_prompt (i : nat) (p : string) (a : GeneratedAsset) :
  settle i p = Got a -> prompt a = p.
Proof.
  unfold settle_item. destruct (generateSingleAsset i p type) as [u|err].
  - by intros [= <-].
  - by destruct (message_includes err "429").
Qed.

Lemma arrivals_facts (cs : list (nat * string)) :
  length (arriving cs) <= length cs
  /\ forall a, a ∈ arriving cs -> exists i, (i, prompt a) ∈ cs.
Proof.
  induction cs as [|[i p] cs [IHlen IHin]]; [split; [done|]|].
  { intros a Ha. by apply elem_of_nil in Ha. }
  unfold arrivals in *. cbn [flat_map fst snd].
  rewrite length_app. cbn [length].
  destruct (settle i p) as [a0|err|err] eqn:Hs; cbn [got length app].
  1:{ split; [lia|]. intros a [->|Ha]%elem_of_cons.
      - exists i. rewrite (settle_got_prompt _ _ _ Hs). by left.
      - destruct (IHin a Ha) as [j Hj]. exists j. by right. }
  all: split; [lia|]; intros a Ha; destruct (IHin a Ha) as [j Hj];
    exists j; by right.
Qed.

(** C7 (as amended).  A run that ends without an error has between one
    and [length vs] completed assets, where [vs] is the sequence the
    Variation Expander returned (nothing cuts it down to the 20 that were
    asked for); each of them carries a prompt of [vs]; they are exactly the
    assets handed to [setAssets], in order, and no error is shown. *)
Theorem completed_assets_bounded (s0 : AppState)
    (newAssets : list GeneratedAsset) :
  fst run = Fulfilled newAssets ->
  exists vs,
    generatePromptVariations basePrompt type requestedCount = Fulfilled vs
    /\ 0 < length newAssets <= length vs
    /\ (forall a, a ∈ newAssets -> prompt a ∈ vs)
    /\ newAssets = appended (snd run)
    /\ error (state_after s0 (snd run)) = None.
Proof.
  intros Hrun.
  destruct (generatePromptVariations basePrompt type requestedCount)
    as [vs|err] eqn:Hvs.
  2:{ by rewrite (run_without_variations _ _ _ _ _ _ err Hvs) in Hrun. }
  exists vs. split; [done|].
  pose proof run_calls_appended as H. rewrite Hvs in H.
  destruct H as [Hcalls Happ].
  rewrite (run_with_variations _ _ _ _ _ _ vs Hvs) in Hrun |- *.
  cbn [fst snd] in *.
  destruct (fst (items (length vs) 0 vs [])) as [acc|err] eqn:Hres;
    cbn [check_forged] in *; [|done].
  destruct (length acc =? 0) eqn:Hlen; [done|].
  injection Hrun as ->. apply Nat.eqb_neq in Hlen.
  apply items_fulfilled in Hres as (Hacc & _ & _). cbn [app] in Hacc.
  pose proof (arrivals_facts (calls (snd (items (length vs) 0 vs []))))
    as [Hbound Hin].
  rewrite <- items_appended, <- Hacc in Hbound, Hin.
  rewrite items_calls, length_indexed, length_take in Hbound.
  split; [lia|]. split.
  { intros a Ha. destruct (Hin a Ha) as [i Hi].
    rewrite items_calls in Hi.
    apply elem_of_indexed in Hi as (k & _ & Hk).
    apply lookup_take_Some in Hk as [Hk _].
    by eapply list_elem_of_lookup_2. }
  split.
  { rewrite !appended_app, <- Hacc.
    rewrite (appended_quiet prologue), (appended_quiet (epilogue _)).
    - by rewrite app_nil_r.
    - intros ev Hev. by apply epilogue_quiet in Hev as [_ ?].
    - intros ev Hev. by apply prologue_quiet in Hev as [_ ?]. }
  rewrite !state_after_app. unfold epilogue, finally_block.
  cbn [app state_after fold_left apply_event error].
  fold (state_after (state_after s0 prologue) (snd (items (length vs) 0 vs []))).
  by rewrite items_error.
Qed.

End VisibilityFacts.

(** A run that completes, at a concrete input: two of three fetches
    succeed. *)
Lemma completed_assets_bounded_witness :
  fst (sample_run no_image)
  = Fulfilled [mkAsset "k3x9q0a1b"
                 "data:image/png;base64,red balloon from above"
                 STICKER "red balloon from above" 1700000000000 false;
               mkAsset "u5t8w1e6d"
                 "data:image/png;base64,red balloon close up"
                 STICKER "red balloon close up" 1700000008000 false]
  /\ exists vs,
      sample_variations "red balloon" STICKER requestedCount = Fulfilled vs
      /\ 0 < 2 <= length vs.
Proof.
  assert (Hrun : fst (sample_run no_image)
                 = Fulfilled [mkAsset "k3x9q0a1b"
                                "data:image/png;base64,red balloon from above"
                                STICKER "red balloon from above"
                                1700000000000 false;
                              mkAsset "u5t8w1e6d"
                                "data:image/png;base64,red balloon close up"
                                STICKER "red balloon close up"
                                1700000008000 false])
    by (vm_compute; reflexivity).
  split; [exact Hrun|].
  destruct (completed_assets_bounded sample_variations (sample_fetch no_image)
              sample_id sample_now "red balloon" STICKER initial_state _ Hrun)
    as (vs & Hvs & Hlen & _).
  exists vs. split; [exact Hvs | exact Hlen].
Defined.

(** C7 as stated fails when the text service answers with more entries
    than were asked for: the payload below parses to 21 prompts, every
    fetch succeeds, and the run completes with 21 assets although 20 were
    requested. *)
Lemma requested_count_claim_counterexample :
  generatePromptVariations sample_JSON_parse sample_object_length
    (always_text (json_text twenty_one_prompts)) sample_random
    "red balloon" STICKER requestedCount
  = Fulfilled (JArray (map JString twenty_one_prompts))
  /\ string_array (JArray (map JString twenty_one_prompts))
     = Some twenty_one_prompts
  /\ match fst (handleGenerate
                 (fun _ _ _ => Fulfilled twenty_one_prompts)
                 (fetch_from 0) sample_id sample_now "red balloon" STICKER)
     with
     | Fulfilled newAssets => length newAssets = 21
     | Rejected _ => False
     end
  /\ requestedCount = 20.
Proof.
  split; [vm_compute; reflexivity|].
  split; [vm_compute; reflexivity|].
  split; [vm_compute; reflexivity | reflexivity].
Qed.

(** ** The variation expander *)

(** A call that ends the retries of [withRetry]: it is within the five
    attempts, every call before it failed with an error that is retried,
    and it succeeds or fails with an error that is not. *)
Lemma withRetry_settles_at {T : Type} (fn : nat -> outcome T)
    (random : nat -> Q) (initialDelay : Q) (m : nat) :
  m < defaultMaxRetries ->
  (forall k, k < m ->
             exists e, fn k = Rejected e
                       /\ (isRateLimit e || isServerError e) = true) ->
  settles (fn m) = true ->
  withRetry fn random defaultMaxRetries initialDelay
  = (fn m, backoff_trace random initialDelay m 0).
Proof.
  intros Hm Hbefore Hsettles.
  destruct (withRetry_from_shape fn random defaultMaxRetries initialDelay
              defaultMaxRetries 0)
    as (m' & Hm' & Hres & Htr & Hprev & Hstop);
    [done | unfold defaultMaxRetries; lia |].
  cbn [delay_after] in Hres, Htr. rewrite Nat.sub_0_r in Htr.
  unfold defaultMaxRetries in *.
  assert (m' = m) as ->.
  { destruct (Nat.lt_trichotomy m' m) as [Hlt|[Heq|Hgt]]; [|done|].
    - exfalso. destruct (Hbefore m' Hlt) as (e & He & Hretry).
      specialize (Hstop ltac:(lia)). rewrite He in Hstop.
      cbn [settles] in Hstop. by rewrite Hretry in Hstop.
    - exfalso. destruct (Hprev m) as (e & He & Hretry); [lia|].
      rewrite He in Hsettles. cbn [settles] in Hsettles.
      by rewrite Hretry in Hsettles. }
  unfold withRetry.
  destruct (withRetry_from fn random 5 5 0 initialDelay) as [r tr].
  cbn [fst snd] in *. by subst.
Qed.

Lemma strings_of_strings (l : list string) :
  strings_of (map JString l) = Some l.
Proof. induction l as [|x l IH]; [done|]. cbn. by rewrite IH. Qed.

Lemma strings_of_length (items : list json) :
  forall vs, strings_of items = Some vs -> length vs = length items.
Proof.
  induction items as [|v items IH]; intros vs; cbn [strings_of].
  - by intros [= <-].
  - destruct v; try done. destruct (strings_of items) as [l|]; [|done].
    intros [= <-]. cbn [length]. by rewrite (IH l).
Qed.

Lemma map_repeat_string (x : string) (n : nat) :
  map JString (repeat x n) = repeat (JString x) n.
Proof. induction n as [|n IH]; [done|]. cbn. by rewrite IH. Qed.

Section ExpanderFacts.
Variable JSON_parse : string -> option json.
Variable object_length_positive : list (string * json) -> option bool.
Variable generateContent : nat -> outcome (option string).
Variable random : nat -> Q.
Variable basePrompt : string.
Variable type : AssetType.
Variable count : nat.

Abbreviation expand :=
  (generatePromptVariations JSON_parse object_length_positive
     generateContent random basePrompt type count).
Abbreviation parsed :=
  (parse_variations JSON_parse object_length_positive basePrompt count).
Abbreviation positive_length := (length_positive object_length_positive).

(** When the text call succeeds within the five attempts, every earlier
    attempt having failed with an error that is retried, the expander
    returns what the inner [try]/[catch] makes of that text. *)
Lemma expander_returns (m : nat) (text : option string) :
  m < defaultMaxRetries ->
  (forall k, k < m ->
             exists e, generateContent k = Rejected e
                       /\ (isRateLimit e || isServerError e) = true) ->
  generateContent m = Fulfilled text ->
  expand = Fulfilled (parsed text).
Proof.
  intros Hm Hbefore Hgc.
  unfold generatePromptVariations, generatePromptVariations_traced.
  rewrite (withRetry_settles_at _ _ _ m Hm).
  - cbn [fst]. unfold variations_attempt. by rewrite Hgc.
  - intros k Hk. destruct (Hbefore k Hk) as (e & He & Hretry).
    exists e. unfold variations_attempt. by rewrite He.
  - unfold variations_attempt. by rewrite Hgc.
Qed.

Lemma lookup_repeat (x q : string) (n k : nat) :
  repeat x n !! k = Some q -> q = x.
Proof.
  intros Hk. apply list_elem_of_lookup_2, list_elem_of_In in Hk.
  by apply repeat_spec in Hk.
Qed.

(** The loop run on [n] copies of the base prompt. *)
Lemma loop_on_copies (n : nat)
    (generateSingleAsset : nat -> string -> AssetType -> outcome string)
    (random_id : nat -> string) (now : nat -> Z) :
  (forall i p,
      CallGenerate i p
        ∈ snd (batches generateSingleAsset random_id now type
                 (repeat basePrompt n) (length (repeat basePrompt n)) 0 []) ->
      p = basePrompt)
  /\ (none_aborts generateSingleAsset random_id now type
        (repeat basePrompt n) 0 n ->
      length (calls (snd (batches generateSingleAsset random_id now type
                            (repeat basePrompt n)
                            (length (repeat basePrompt n)) 0 []))) = n).
Proof.
  rewrite batches_run_items by lia. rewrite drop_0. split.
  - intros i p Hin. apply items_call_iff in Hin as (k & _ & Hk & _).
    by apply lookup_repeat in Hk.
  - intros Hnone. rewrite items_calls, length_indexed, length_take.
    assert (Hall : length (repeat basePrompt n)
                   <= attempts generateSingleAsset random_id now type 0
                        (repeat basePrompt n)).
    { destruct (repeat basePrompt n) as [|p ps] eqn:Hrep; [cbn; lia|].
      rewrite <- Hrep in *.
      assert (Hlast : length (repeat basePrompt n) - 1
                      < attempts generateSingleAsset random_id now type 0
                          (repeat basePrompt n)).
      { apply attempts_spec. split; [rewrite Hrep; cbn; lia|].
        intros k' q Hk' Hq. apply (Hnone k' q); [|done].
        rewrite repeat_length in Hk'. lia. }
      lia. }
    rewrite repeat_length in *. lia.
Qed.

(** The loop run on the single base prompt. *)
Lemma loop_on_single
    (generateSingleAsset : nat -> string -> AssetType -> outcome string)
    (random_id : nat -> string) (now : nat -> Z) :
  calls (snd (batches generateSingleAsset random_id now type
                [basePrompt] 1 0 []))
  = [(0, basePrompt)].
Proof.
  rewrite (batches_run_items _ _ _ _ [basePrompt]) by (cbn; lia).
  rewrite drop_0, items_calls.
  cbn [attempts]. by destruct (settle_item _ _ _ type 0 basePrompt).
Qed.

(** C1 (as amended).  Let the text call succeed within the five attempts.
    If [JSON.parse] throws on the text (or gives [null], whose [length]
    cannot be read), the expander returns [count] copies of [basePrompt]:
    the orchestrator's loop then fetches with [basePrompt] only, and
    [count] times unless a fetch aborts the run.  If the text parses to an
    empty array (as does a missing text, read as "[]"), or to a value with
    no positive length (a boolean, a number, the empty string), the
    expander returns the single prompt [basePrompt], and the loop makes
    exactly one fetch.  Any other value is returned as the inner block
    leaves it. *)
Theorem expander_fallback (m : nat) (text : option string) :
  m < defaultMaxRetries ->
  (forall k, k < m ->
             exists e, generateContent k = Rejected e
                       /\ (isRateLimit e || isServerError e) = true) ->
  generateContent m = Fulfilled text ->
  match JSON_parse (or_default text "[]") with
  | None | Some JNull =>
      expand = Fulfilled (JArray (repeat (JString basePrompt) count))
      /\ string_array (JArray (repeat (JString basePrompt) count))
         = Some (repeat basePrompt count)
      /\ forall generateSingleAsset random_id now,
          (forall i p,
              CallGenerate i p
                ∈ snd (batches generateSingleAsset random_id now type
                         (repeat basePrompt count)
                         (length (repeat basePrompt count)) 0 []) ->
              p = basePrompt)
          /\ (none_aborts generateSingleAsset random_id now type
                (repeat basePrompt count) 0 count ->
              length (calls (snd (batches generateSingleAsset random_id
                                    now type (repeat basePrompt count)
                                    (length (repeat basePrompt count))
                                    0 [])))
              = count)
  | Some (JArray []) | Some (JBool _) | Some (JNumber _)
  | Some (JString EmptyString) =>
      expand = Fulfilled (JArray [JString basePrompt])
      /\ string_array (JArray [JString basePrompt]) = Some [basePrompt]
      /\ forall generateSingleAsset random_id now,
          calls (snd (batches generateSingleAsset random_id now type
                        [basePrompt] 1 0 []))
          = [(0, basePrompt)]
  | Some (JArray (v :: items)) => expand = Fulfilled (JArray (v :: items))
  | Some (JString s) => expand = Fulfilled (JString s)
  | Some (JObject fields) => expand = Fulfilled (parsed text)
  end.
Proof.
  intros Hm Hbefore Hgc.
  rewrite (expander_returns m text Hm Hbefore Hgc).
  unfold parse_variations.
  assert (Hcopies :
            string_array (JArray (repeat (JString basePrompt) count))
            = Some (repeat basePrompt count)
            /\ forall generateSingleAsset random_id now,
                (forall i p,
                    CallGenerate i p
                      ∈ snd (batches generateSingleAsset random_id now type
                               (repeat basePrompt count)
                               (length (repeat basePrompt count)) 0 []) ->
                    p = basePrompt)
                /\ (none_aborts generateSingleAsset random_id now type
                      (repeat basePrompt count) 0 count ->
                    length (calls (snd (batches generateSingleAsset random_id
                                          now type (repeat basePrompt count)
                                          (length (repeat basePrompt count))
                                          0 [])))
                    = count)).
  { split.
    - cbn [string_array]. rewrite <- map_repeat_string.
      apply strings_of_strings.
    - intros gsa rid nw. apply loop_on_copies. }
  assert (Hsingle :
            string_array (JArray [JString basePrompt]) = Some [basePrompt]
            /\ forall generateSingleAsset random_id now,
                calls (snd (batches generateSingleAsset random_id now type
                              [basePrompt] 1 0 []))
                = [(0, basePrompt)]).
  { split; [done|]. intros gsa rid nw. apply loop_on_single. }
  destruct (JSON_parse (or_default text "[]")) as [[|b|x|[|c s]|[|v items]|fields]|];
    cbn [length_positive String.length length Nat.ltb Nat.leb];
    try done.
Qed.

(** C10 (as amended).  For [count >= 1], when the text call succeeds
    within the five attempts the expander returns a value.  That value is
    a non-empty array (the parsed array when it is not empty, the single
    prompt [basePrompt], or [count] copies of [basePrompt]) in every case
    but one: a text that parses to a non-empty string, or to an object
    whose [length] compares greater than 0, is returned as it is.  When
    the value is an array of strings, as the declared type says, the
    orchestrator's loop run on it has a non-zero length to divide by and
    makes at least the fetch for the first prompt. *)
Theorem expander_nonempty (m : nat) (text : option string) :
  1 <= count ->
  m < defaultMaxRetries ->
  (forall k, k < m ->
             exists e, generateContent k = Rejected e
                       /\ (isRateLimit e || isServerError e) = true) ->
  generateContent m = Fulfilled text ->
  exists v,
    expand = Fulfilled v
    /\ ((exists items,
            v = JArray items
            /\ 0 < length items
            /\ (JSON_parse (or_default text "[]") = Some v
                \/ items = [JString basePrompt]
                \/ items = repeat (JString basePrompt) count))
        \/ (JSON_parse (or_default text "[]") = Some v
            /\ positive_length v = Some true
            /\ ((exists c s, v = JString (String c s))
                \/ exists fields, v = JObject fields)))
    /\ (forall vs,
          string_array v = Some vs ->
          vs <> []
          /\ 0 < length vs
          /\ forall generateSingleAsset random_id now,
              exists p,
                vs !! 0 = Some p
                /\ CallGenerate 0 p
                     ∈ snd (batches generateSingleAsset random_id now type
                              vs (length vs) 0 [])).
Proof.
  intros Hcount Hm Hbefore Hgc.
  exists (parsed text). split; [by apply (expander_returns m)|].
  assert (Hshape :
            (exists items,
                parsed text = JArray items
                /\ 0 < length items
                /\ (JSON_parse (or_default text "[]") = Some (parsed text)
                    \/ items = [JString basePrompt]
                    \/ items = repeat (JString basePrompt) count))
            \/ (JSON_parse (or_default text "[]") = Some (parsed text)
                /\ positive_length (parsed text) = Some true
                /\ ((exists c s, parsed text = JString (String c s))
                    \/ exists fields, parsed text = JObject fields))).
  { assert (Hcopies : exists items,
               JArray (repeat (JString basePrompt) count) = JArray items
               /\ 0 < length items
               /\ (JSON_parse (or_default text "[]")
                   = Some (JArray (repeat (JString basePrompt) count))
                   \/ items = [JString basePrompt]
                   \/ items = repeat (JString basePrompt) count)).
    { eexists. split; [done|]. rewrite repeat_length. split; [lia|]. auto. }
    assert (Hsingle : exists items,
               JArray [JString basePrompt] = JArray items
               /\ 0 < length items
               /\ (JSON_parse (or_default text "[]")
                   = Some (JArray [JString basePrompt])
                   \/ items = [JString basePrompt]
                   \/ items = repeat (JString basePrompt) count)).
    { eexists. split; [done|]. split; [cbn; lia|]. auto. }
    unfold parse_variations.
    destruct (JSON_parse (or_default text "[]"))
      as [[|b|x|[|c s]|[|v items]|fields]|] eqn:Hparse;
      cbn [length_positive String.length length Nat.ltb Nat.leb];
      try (by left).
    - right. split; [done|]. split; [done|]. left. by exists c, s.
    - left. exists (v :: items). split; [done|]. split; [cbn; lia|]. by left.
    - destruct (object_length_positive fields) as [[|]|] eqn:Hobj;
        [|by left|by left].
      right. split; [done|]. split; [done|]. right. by exists fields. }
  split; [exact Hshape|].
  intros vs Hvs.
  assert (Hlen : 0 < length vs).
  { destruct Hshape as [(items & Hv & Hitems & _)|(_ & _ & [(c & s & Hv)|(fields & Hv)])];
      rewrite Hv in Hvs; cbn [string_array] in Hvs; [|done|done].
    by rewrite (strings_of_length items vs Hvs). }
  split; [intros ->; cbn in Hlen; lia|]. split; [done|].
  intros gsa rid nw. destruct vs as [|p ps]; [cbn in Hlen; lia|].
  exists p. split; [done|].
  rewrite batches_run_items by lia. rewrite drop_0.
  apply items_call_iff. exists 0. split; [done|]. split; [done|].
  intros k' q' Hk'. lia.
Qed.

End ExpanderFacts.

(** The fallback at a concrete input: the service answers with prose, not
    JSON, and twenty prompts are asked for. *)
Lemma expander_fallback_witness :
  generatePromptVariations sample_JSON_parse sample_object_length
    (always_text "I cannot do that") sample_random "red balloon" STICKER 20
  = Fulfilled (JArray (repeat (JString "red balloon") 20))
  /\ string_array (JArray (repeat (JString "red balloon") 20))
     = Some (repeat "red balloon" 20).
Proof.
  assert (Hm : 0 < defaultMaxRetries) by (unfold defaultMaxRetries; lia).
  assert (Hbefore : forall k, k < 0 ->
            exists e, always_text "I cannot do that" k = Rejected e
                      /\ (isRateLimit e || isServerError e) = true)
    by (intros k Hk; lia).
  assert (Hgc : always_text "I cannot do that" 0
                = Fulfilled (Some "I cannot do that")) by reflexivity.
  pose proof (expander_fallback sample_JSON_parse sample_object_length
                (always_text "I cannot do that") sample_random
                "red balloon" STICKER 20 0 (Some "I cannot do that")
                Hm Hbefore Hgc) as H.
  change (sample_JSON_parse (or_default (Some "I cannot do that") "[]"))
    with (@None json) in H.
  destruct H as (Hrun & Hview & _).
  split; [exact Hrun | exact Hview].
Defined.

(** C1 as stated fails when the payload parses to an empty array (and
    likewise when the response has no text, which is read as "[]"): the
    expander returns one copy of the base prompt, not the 20 asked for, and
    the run makes a single fetch. *)
Lemma empty_payload_claim_counterexample :
  sample_JSON_parse "[]" = Some (JArray [])
  /\ generatePromptVariations sample_JSON_parse sample_object_length
       (always_text "[]") sample_random "red balloon" STICKER 20
     = Fulfilled (JArray [JString "red balloon"])
  /\ generatePromptVariations sample_JSON_parse sample_object_length
       (fun _ => Fulfilled None) sample_random "red balloon" STICKER 20
     = Fulfilled (JArray [JString "red balloon"])
  /\ string_array (JArray [JString "red balloon"]) = Some ["red balloon"]
  /\ length (repeat "red balloon" 20) = 20
  /\ ["red balloon"] <> repeat "red balloon" 20
  /\ calls (snd (handleGenerate
                   (fun _ _ _ => Fulfilled ["red balloon"])
                   (fetch_from 0) sample_id sample_now "red balloon" STICKER))
     = [(0, "red balloon")].
Proof.
  split; [reflexivity|]. split; [vm_compute; reflexivity|].
  split; [vm_compute; reflexivity|]. split; [reflexivity|].
  split; [reflexivity|].
  split; [discriminate|]. vm_compute; reflexivity.
Qed.

(** The expander's result at a concrete input: a payload of three
    prompts, given at the third call after two server errors. *)
Lemma expander_nonempty_witness :
  generatePromptVariations sample_JSON_parse sample_object_length
    (fun k => if k <? 2 then Rejected (Error_of "HTTP 500")
              else Fulfilled (Some (json_text ["red balloon from above";
                                               "red balloon in blue";
                                               "red balloon close up"])))
    sample_random "red balloon" STICKER 20
  = Fulfilled (JArray [JString "red balloon from above";
                       JString "red balloon in blue";
                       JString "red balloon close up"])
  /\ (forall generateSingleAsset random_id now,
        exists p,
          ["red balloon from above"; "red balloon in blue";
           "red balloon close up"] !! 0 = Some p
          /\ CallGenerate 0 p
               ∈ snd (batches generateSingleAsset random_id now STICKER
                        ["red balloon from above"; "red balloon in blue";
                         "red balloon close up"] 3 0 [])).
Proof.
  assert (Hcount : 1 <= 20) by lia.
  assert (Hm : 2 < defaultMaxRetries) by (unfold defaultMaxRetries; lia).
  assert (Hbefore : forall k, k < 2 ->
            exists e,
              (fun k => if k <? 2 then Rejected (Error_of "HTTP 500")
                        else Fulfilled
                               (Some (json_text ["red balloon from above";
                                                 "red balloon in blue";
                                                 "red balloon close up"])))
                k = Rejected e
              /\ (isRateLimit e || isServerError e) = true).
  { intros k Hk. exists (Error_of "HTTP 500").
    assert (Hcases : k = 0 \/ k = 1) by lia.
    destruct Hcases as [->| ->]; split; reflexivity. }
  destruct (expander_nonempty sample_JSON_parse sample_object_length
              (fun k => if k <? 2 then Rejected (Error_of "HTTP 500")
                        else Fulfilled
                               (Some (json_text ["red balloon from above";
                                                 "red balloon in blue";
                                                 "red balloon close up"])))
              sample_random "red balloon" STICKER 20 2 _
              Hcount Hm Hbefore eq_refl)
    as (v & Hrun & _ & Hloop).
  assert (Hv : v = JArray [JString "red balloon from above";
                           JString "red balloon in blue";
                           JString "red balloon close up"]).
  { assert (Hc : generatePromptVariations sample_JSON_parse
                   sample_object_length
                   (fun k => if k <? 2 then Rejected (Error_of "HTTP 500")
                             else Fulfilled
                                    (Some (json_text
                                             ["red balloon from above";
                                              "red balloon in blue";
                                              "red balloon close up"])))
                   sample_random "red balloon" STICKER 20
                 = Fulfilled (JArray [JString "red balloon from above";
                                      JString "red balloon in blue";
                                      JString "red balloon close up"]))
      by (vm_compute; reflexivity).
    rewrite Hc in Hrun. by injection Hrun as <-. }
  subst v. split; [exact Hrun|].
  destruct (Hloop ["red balloon from above"; "red balloon in blue";
                   "red balloon close up"] eq_refl) as (_ & _ & Hfirst).
  exact Hfirst.
Defined.

(** C10 as stated fails on a payload that is valid JSON but not an array.
    The text below is a string literal: it parses to a non-empty string,
    whose [length] is positive, so the expander returns the string itself,
    which is not a sequence of prompts. *)
Lemma string_payload_claim_counterexample :
  sample_JSON_parse (quoted "a red balloon") = Some (JString "a red balloon")
  /\ generatePromptVariations sample_JSON_parse sample_object_length
       (always_text (quoted "a red balloon")) sample_random
       "red balloon" STICKER 20
     = Fulfilled (JString "a red balloon")
  /\ string_array (JString "a red balloon") = None
  /\ match JString "a red balloon" with
     | JArray _ => False
     | _ => True
     end.
Proof.
  split; [vm_compute; reflexivity|]. split; [vm_compute; reflexivity|].
  split; [reflexivity | exact I].
Qed.

(** * Further properties *)

(** ** Strings *)

Lemma append_cons (c : ascii) (a b : string) :
  (String c a ++ b)%string = String c (a ++ b)%string.
Proof. reflexivity. Qed.

Lemma substring_app_mid (pre s post : string) :
  substring (String.length pre) (String.length s) (pre ++ s ++ post)%string = s.
Proof.
  induction pre as [|c pre IH]; [|exact IH].
  change (EmptyString ++ s ++ post)%string with (s ++ post)%string.
  cbn [String.length]. induction s as [|c s IHs].
  - by destruct post.
  - rewrite append_cons. cbn [String.length substring]. by rewrite IHs.
Qed.

(** A string that is built around [s] includes [s]. *)
Lemma includes_app_mid (pre s post : string) :
  includes (pre ++ s ++ post)%string s = true.
Proof.
  unfold includes.
  destruct (String.index 0 s (pre ++ s ++ post)%string) as [m|] eqn:Hidx;
    [done|].
  destruct s as [|c s].
  - apply index_correct4 in Hidx. lia.
  - exfalso.
    apply (index_correct3 0 (String.length pre)) in Hidx; [|done|lia].
    apply Hidx, substring_app_mid.
Qed.

Lemma has_char_app (c : ascii) (a b : string) :
  has_char c (a ++ b)%string = has_char c a || has_char c b.
Proof.
  unfold has_char. induction a as [|x a IH]; [done|].
  rewrite append_cons. cbn [list_ascii_of_string existsb].
  by rewrite IH, orb_assoc.
Qed.

Lemma has_char_substring (c : ascii) (s : string) :
  forall n m, has_char c (substring n m s) = true -> has_char c s = true.
Proof.
  unfold has_char.
  induction s as [|x s IH]; intros n m.
  - by destruct n, m.
  - destruct n as [|n].
    + destruct m as [|m]; [done|]. cbn.
      destruct (Ascii.eqb c x); [done|]. cbn. apply IH.
    + cbn. intros H. apply IH in H. rewrite H. apply orb_true_r.
Qed.

(** Every character of an included string occurs in the string. *)
Lemma includes_has_char (s sub : string) (c : ascii) :
  includes s sub = true -> has_char c sub = true -> has_char c s = true.
Proof.
  unfold includes.
  destruct (String.index 0 sub s) as [m|] eqn:Hidx; [|done].
  intros _ Hc. apply index_correct1 in Hidx. rewrite <- Hidx in Hc.
  by apply has_char_substring in Hc.
Qed.

(** ** Prompt templates *)

(** X1.  Whatever the asset type, the prompt sent to the model contains
    the user's prompt word for word. *)
Theorem getSystemPrompt_keeps_prompt (type : AssetType) (userPrompt : string) :
  includes (getSystemPrompt type userPrompt) userPrompt = true.
Proof. destruct type; apply includes_app_mid. Qed.

Lemma string_app_assoc (a b c : string) :
  ((a ++ b) ++ c)%string = (a ++ b ++ c)%string.
Proof.
  induction a as [|x a IH]; [done|].
  rewrite !append_cons. by rewrite IH.
Qed.

Lemma includes_app_inner (a u b s c : string) :
  includes (a ++ u ++ b ++ s ++ c)%string s = true.
Proof.
  replace (a ++ u ++ b ++ s ++ c)%string
    with ((a ++ u ++ b) ++ s ++ c)%string
    by (by rewrite !string_app_assoc).
  apply includes_app_mid.
Qed.

Lemma excludes_without_char (a u c s : string) (x : ascii) :
  has_char x s = true ->
  has_char x a = false -> has_char x u = false -> has_char x c = false ->
  includes (a ++ u ++ c)%string s = false.
Proof.
  intros Hs Ha Hu Hc.
  destruct (includes (a ++ u ++ c)%string s) eqn:Hin; [|done].
  apply (includes_has_char _ _ x) in Hin; [|done].
  by rewrite !has_char_app, Ha, Hu, Hc in Hin.
Qed.

(** X2.  The template asks for a plain white background exactly for the
    types whose image is then passed through [removeWhiteBackground]
    (for a user prompt that has no "#" of its own, the clause naming the
    colour as "#FFFFFF"). *)
Theorem isolation_clause_iff_transparent (type : AssetType)
    (userPrompt : string) :
  has_char "#" userPrompt = false ->
  includes (getSystemPrompt type userPrompt) isolationInstruction
  = is_transparent type.
Proof.
  intros Hclean.
  destruct type; cbn [getSystemPrompt];
    first [ apply includes_app_inner
          | by apply (excludes_without_char _ _ _ _ "#") ].
Qed.

Lemma isolation_clause_iff_transparent_witness :
  has_char "#" "red balloon" = false
  /\ includes (getSystemPrompt STICKER "red balloon") isolationInstruction = true
  /\ includes (getSystemPrompt PHOTO "red balloon") isolationInstruction = false.
Proof.
  assert (H : has_char "#" "red balloon" = false) by reflexivity.
  split; [exact H|]. split.
  - exact (isolation_clause_iff_transparent STICKER "red balloon" H).
  - exact (isolation_clause_iff_transparent PHOTO "red balloon" H).
Defined.

(** ** The asset fetcher *)

Section RetryUses.
Context {T : Type}.
Variable fn : nat -> outcome T.
Variable random : nat -> Q.

(** A first call that succeeds, or fails with an error that is not
    retried, is the only call. *)
Lemma withRetry_first_settles (initialDelay : Q) :
  settles (fn 0) = true ->
  withRetry fn random defaultMaxRetries initialDelay = (fn 0, [Invoke 0]).
Proof.
  unfold withRetry, defaultMaxRetries, settles. cbn [withRetry_from].
  destruct (fn 0) as [v|e]; [done|].
  intros He. apply negb_true_iff in He. by rewrite He.
Qed.

(** Five failures that are each retried use up the wrapper: the fifth
    error is the result. *)
Lemma withRetry_exhausted (initialDelay : Q) (e : nat -> Error) :
  (forall k, k < defaultMaxRetries ->
             fn k = Rejected (e k)
             /\ (isRateLimit (e k) || isServerError (e k)) = true) ->
  fst (withRetry fn random defaultMaxRetries initialDelay) = Rejected (e 4)
  /\ invocations (snd (withRetry fn random defaultMaxRetries initialDelay))
     = [0; 1; 2; 3; 4].
Proof.
  intros Hall.
  destruct (withRetry_from_shape fn random defaultMaxRetries initialDelay
              defaultMaxRetries 0)
    as (m & Hm & Hres & Htr & _ & Hstop); [done | unfold defaultMaxRetries; lia |].
  cbn [delay_after] in Hres, Htr. rewrite Nat.sub_0_r in Htr.
  unfold withRetry. rewrite Hres, Htr, invocations_backoff_trace.
  assert (m = 4) as ->.
  { destruct (decide (m = 4)) as [|Hne]; [done|]. exfalso.
    destruct (Hall m) as [Hfn Hretry]; [lia|].
    unfold defaultMaxRetries in *.
    rewrite Hfn in Hstop. cbn [settles] in Hstop. rewrite Hretry in Hstop.
    specialize (Hstop ltac:(lia)). done. }
  destruct (Hall 4) as [-> _]; [unfold defaultMaxRetries; lia|]. done.
Qed.

End RetryUses.

Section FetcherFacts.
Variable hasSelectedApiKey : outcome bool.
Variable openSelectKey : outcome unit.
Variable API_KEY : option string.
Variable generateVideos : string -> nat -> outcome Genai.Operation.
Variable getVideosOperation : nat -> nat -> outcome Genai.Operation.
Variable generateContent : string -> nat -> outcome Genai.Response.
Variable random : service_call -> nat -> Q.
Variable fetch_object_url : string -> outcome string.
Variable decode : string -> decoded.
Variable toDataURL : ImageData -> string.

Abbreviation fetch_asset :=
  (generateSingleAsset hasSelectedApiKey openSelectKey API_KEY generateVideos
     getVideosOperation generateContent random fetch_object_url decode
     toDataURL).
Abbreviation image :=
  (generate_image generateContent random decode toDataURL).
Abbreviation video :=
  (generate_video API_KEY generateVideos getVideosOperation random
     fetch_object_url).
Abbreviation polling := (poll_until_done getVideosOperation random).

Lemma count_image_calls (tr : list retry_event) :
  count_events is_image_call (map (Retried ImageRequest) tr)
  = length (invocations tr).
Proof.
  unfold count_events, invocations.
  induction tr as [|[k|ms] tr IH]; [done| |]; cbn; by rewrite <- ?IH.
Qed.

Lemma retried_shape {T : Type} (c : service_call) (fn : nat -> outcome T) :
  exists m,
    m < defaultMaxRetries
    /\ fst (retried random c fn) = fn m
    /\ invocations
         (snd (withRetry fn (random c) defaultMaxRetries defaultInitialDelay))
       = seq 0 (S m)
    /\ snd (retried random c fn)
       = map (Retried c)
           (snd (withRetry fn (random c) defaultMaxRetries defaultInitialDelay))
    /\ (forall k, k < m ->
                  exists e, fn k = Rejected e
                            /\ (isRateLimit e || isServerError e) = true)
    /\ (settles (fn m) = true \/ S m = defaultMaxRetries).
Proof.
  destruct (withRetry_from_shape fn (random c) defaultMaxRetries
              defaultInitialDelay defaultMaxRetries 0)
    as (m & Hm & Hres & Htr & Hprev & Hstop); [done | unfold defaultMaxRetries; lia |].
  cbn [delay_after] in Hres, Htr. rewrite Nat.sub_0_r in Htr.
  exists m. unfold retried, withRetry.
  destruct (withRetry_from fn (random c) defaultMaxRetries defaultMaxRetries 0
              defaultInitialDelay) as [r tr].
  cbn [fst snd] in *. subst.
  split; [lia|]. split; [done|].
  split; [apply invocations_backoff_trace|]. split; [done|].
  split; [intros k Hk; apply Hprev; lia|].
  destruct (decide (S m = defaultMaxRetries)) as [|Hne]; [by right|].
  left. apply Hstop. unfold defaultMaxRetries in *. lia.
Qed.

(** For a type other than the motion type the fetch is the still branch,
    whatever the fuel. *)
Lemma generateSingleAsset_still (fuel : nat) (prompt : string)
    (type : AssetType) :
  AssetType_eqb type GIF = false ->
  fetch_asset fuel prompt type
  = Some (image (getSystemPrompt type prompt) type).
Proof. intros H. unfold generateSingleAsset. by rewrite H. Qed.

(** X3.  Fetching a still asset.  The image model is called [m + 1 <= 5]
    times, every call before the last having failed with an error that
    the wrapper retries.  If the last call fails, its error is the
    result.  If it answers without inline data the result is the error
    "Failed to generate image data", which is raised after the wrapper and
    so is never retried.  Otherwise the result is the data URL made of
    the first inline part, passed through [removeWhiteBackground] exactly
    for the transparent types. *)
Theorem still_fetch_contract (fuel : nat) (prompt : string)
    (type : AssetType) :
  AssetType_eqb type GIF = false ->
  exists m r tr,
    fetch_asset fuel prompt type = Some (r, tr)
    /\ m < defaultMaxRetries
    /\ count_events is_image_call tr = S m
    /\ (forall k, k < m ->
                  exists e,
                    generateContent (getSystemPrompt type prompt) k = Rejected e
                    /\ (isRateLimit e || isServerError e) = true)
    /\ match generateContent (getSystemPrompt type prompt) m with
       | Rejected e => r = Rejected e
       | Fulfilled response =>
           match first_inline (response_parts response) with
           | None => r = Rejected (Error_of msg_no_image_data)
           | Some d =>
               let imageUrl :=
                 ("data:image/png;base64,"
                    ++ interpolate (Genai.data d))%string in
               r = Fulfilled
                     (if is_transparent type
                      then removeWhiteBackground decode toDataURL imageUrl
                      else imageUrl)
           end
       end.
Proof.
  intros Hstill. rewrite (generateSingleAsset_still fuel prompt type Hstill).
  destruct (retried_shape ImageRequest
              (generateContent (getSystemPrompt type prompt)))
    as (m & Hm & Hres & Hcalls & Htr & Hprev & _).
  unfold generate_image.
  destruct (retried random ImageRequest
              (generateContent (getSystemPrompt type prompt))) as [r0 tr0].
  cbn [fst snd] in Hres, Htr. subst r0 tr0.
  assert (Hcount : count_events is_image_call
                     (map (Retried ImageRequest)
                        (snd (withRetry
                                (generateContent (getSystemPrompt type prompt))
                                (random ImageRequest) defaultMaxRetries
                                defaultInitialDelay))) = S m).
  { by rewrite count_image_calls, Hcalls, length_seq. }
  destruct (generateContent (getSystemPrompt type prompt) m)
    as [response|e] eqn:Hlast.
  - destruct (first_inline (response_parts response)) as [d|] eqn:Hd;
      [destruct (is_transparent type)|];
      eexists m, _, _; (split; [done|]); (split; [lia|]);
      (split; [exact Hcount|]); (split; [exact Hprev|]);
      by rewrite Hlast, Hd.
  - eexists m, _, _. split; [done|]. split; [lia|].
    split; [exact Hcount|]. split; [exact Hprev|]. by rewrite Hlast.
Qed.

End FetcherFacts.

Lemma still_fetch_contract_witness :
  AssetType_eqb PHOTO GIF = false
  /\ exists m r tr,
      generateSingleAsset (Fulfilled true) (Fulfilled tt) None
        (fun _ _ => Rejected no_image) (fun _ _ => Rejected no_image)
        (fun _ k => if k <? 2 then Rejected (Error_of "500 Internal")
                    else Fulfilled (image_response "iVBORw0KGgo="))
        sample_jitter (fun _ => Rejected no_image) no_decoder no_encoder
        0 "red balloon" PHOTO = Some (r, tr)
      /\ m < defaultMaxRetries
      /\ count_events is_image_call tr = S m.
Proof.
  assert (H : AssetType_eqb PHOTO GIF = false) by reflexivity.
  split; [exact H|].
  destruct (still_fetch_contract (Fulfilled true) (Fulfilled tt) None
              (fun _ _ => Rejected no_image) (fun _ _ => Rejected no_image)
              (fun _ k => if k <? 2 then Rejected (Error_of "500 Internal")
                          else Fulfilled (image_response "iVBORw0KGgo="))
              sample_jitter (fun _ => Rejected no_image) no_decoder no_encoder
              0 "red balloon" PHOTO H)
    as (m & r & tr & Hrun & Hm & Hcount & _).
  exists m, r, tr. split; [exact Hrun|]. split; [exact Hm | exact Hcount].
Defined.

(** ** Runs that fetch still assets from the service *)

Section StillRuns.
Variable generatePromptVariations
  : string -> AssetType -> nat -> outcome (list string).
Variable generateContent : nat -> string -> nat -> outcome Genai.Response.
Variable random : nat -> service_call -> nat -> Q.
Variable decode : string -> decoded.
Variable toDataURL : ImageData -> string.
Variable random_id : nat -> string.
Variable now : nat -> Z.
Variable basePrompt : string.
Variable type : AssetType.

Abbreviation fetch := (still_asset generateContent random decode toDataURL).
Abbreviation run :=
  (handleGenerate generatePromptVariations fetch random_id now basePrompt type).
Abbreviation items := (run_items fetch random_id now type).
Abbreviation settle := (settle_item fetch random_id now type).

(** A run in which every fetch is skipped gets through all the prompts
    and appends nothing. *)
Lemma items_all_skipped (n : nat) (ps : list string) :
  forall i acc,
    (forall k p, ps !! k = Some p -> exists e, settle (i + k) p = Skipped e) ->
    fst (items n i ps acc) = Fulfilled acc
    /\ appended (snd (items n i ps acc)) = []
    /\ length (calls (snd (items n i ps acc))) = length ps.
Proof.
  induction ps as [|p ps IH]; intros i acc Hall; [done|].
  cbn [run_items].
  destruct (Hall 0 p eq_refl) as [e He]. rewrite Nat.add_0_r in He.
  rewrite He. cbn [got]. rewrite app_nil_r.
  destruct (IH (S i) acc) as (Hres & Happ & Hcalls).
  { intros k q Hq. rewrite Nat.add_succ_comm. by apply (Hall (S k) q). }
  destruct (items n (S i) ps acc) as [res rest]. cbn [fst snd] in *.
  split; [done|].
  rewrite appended_app, calls_app, appended_item_events, calls_item_events.
  split; [done|]. cbn [length app got]. by rewrite Hcalls.
Qed.

(** X4.  A run for a still type in which the image model answers every
    prompt, at its first call, without inline image data.  Every prompt is
    fetched, each failure is skipped, nothing is appended, and the run ends
    with the error "Could not forge any elements. ...", which is the
    message shown. *)
Theorem run_without_images (s0 : AppState) (vs : list string) :
  generatePromptVariations basePrompt type requestedCount = Fulfilled vs ->
  AssetType_eqb type GIF = false ->
  (forall i p, vs !! i = Some p ->
               exists response,
                 generateContent i (getSystemPrompt type p) 0
                 = Fulfilled response
                 /\ first_inline (response_parts response) = None) ->
  fst run = Rejected (Error_of msg_nothing_forged)
  /\ length (calls (snd run)) = length vs
  /\ appended (snd run) = []
  /\ error (state_after s0 (snd run)) = Some msg_nothing_forged.
Proof.
  intros Hvs Hstill Hnone.
  destruct (items_all_skipped (length vs) vs 0 []) as (Hres & Happ & Hcalls).
  { intros k p Hp. cbn [Nat.add].
    destruct (Hnone k p Hp) as (response & Hfirst & Hinline).
    exists (Error_of msg_no_image_data). apply settle_skipped.
    split; [|done].
    unfold still_asset, generate_image, retried.
    rewrite withRetry_first_settles by (by rewrite Hfirst).
    by rewrite Hfirst, Hinline. }
  rewrite (run_with_variations _ _ _ _ _ _ vs Hvs). cbn [fst snd].
  rewrite Hres. cbn [check_forged length Nat.eqb].
  split; [done|].
  rewrite !calls_app, !appended_app, Happ.
  rewrite (calls_quiet prologue), (calls_quiet (epilogue _)),
    (appended_quiet prologue), (appended_quiet (epilogue _)).
  - rewrite app_nil_r. split; [done|]. split; [done|].
    rewrite app_assoc, state_after_app. apply error_after_epilogue.
  - intros ev Hev. by apply epilogue_quiet in Hev as [_ ?].
  - intros ev Hev. by apply prologue_quiet in Hev as [_ ?].
  - intros ev Hev. by apply epilogue_quiet in Hev as [? _].
  - intros ev Hev. by apply prologue_quiet in Hev as [? _].
Qed.

(** X5.  When all five attempts for a fetched item of a still type fail
    with an error whose message contains "429", the fifth error leaves the
    retry wrapper and aborts the run: it is the result of the run, the
    trace ends with that fetch, its log line, and the [catch] and
    [finally] blocks, and the message shown is the rate-limit one (the
    authentication one when the text of the error also says "Requested
    entity was not found"). *)
Theorem exhausted_rate_limit_aborts (s0 : AppState) (i : nat) (p : string)
    (e : nat -> Error) :
  CallGenerate i p ∈ snd run ->
  AssetType_eqb type GIF = false ->
  (forall k, k < defaultMaxRetries ->
             generateContent i (getSystemPrompt type p) k = Rejected (e k)
             /\ message_includes (e k) "429" = true) ->
  fst run = Rejected (e 4)
  /\ (exists before,
        snd run
        = before ++ CallGenerate i p :: ConsoleError
            :: epilogue (Rejected (e 4)))
  /\ error (state_after s0 (snd run))
     = Some (if message_includes (e 4) "Requested entity was not found"
             then msg_authentication else msg_rate_limit).
Proof.
  intros Hin Hstill Hall.
  assert (Hfetch : fetch i p type = Rejected (e 4)).
  { unfold still_asset, generate_image, retried.
    destruct (withRetry_exhausted
                (generateContent i (getSystemPrompt type p))
                (random i ImageRequest) defaultInitialDelay e) as [Hres _].
    { intros k Hk. destruct (Hall k Hk) as [Hfn H429]. split; [done|].
      unfold isRateLimit. by rewrite H429. }
    destruct (withRetry _ _ _ _) as [r tr]. cbn [fst] in Hres. by subst r. }
  assert (H429 : message_includes (e 4) "429" = true).
  { apply Hall. unfold defaultMaxRetries. lia. }
  assert (Hs : settle i p = Aborted (e 4)) by by apply settle_aborted.
  destruct (call_in_run _ _ _ _ _ _ _ _ Hin) as (vs & Hvs & Hloop).
  destruct (items_abort_last _ _ _ _ _ _ _ _ _ _ _ Hloop Hs)
    as (Hres & before & Htr).
  rewrite (run_with_variations _ _ _ _ _ _ vs Hvs). cbn [fst snd].
  rewrite Hres, Htr. cbn [check_forged].
  split; [done|]. split.
  { exists (prologue ++ before). by rewrite <- !app_assoc. }
  rewrite !app_assoc, state_after_app, error_after_epilogue.
  unfold shown_message. by rewrite H429.
Qed.

End StillRuns.

(** ** Fetching a motion asset *)

Lemma count_events_app (f : service_event -> bool)
    (a b : list service_event) :
  count_events f (a ++ b) = count_events f a + count_events f b.
Proof. unfold count_events. by rewrite List.filter_app, length_app. Qed.

Lemma count_events_retried (f : service_event -> bool) (c : service_call)
    (tr : list retry_event) :
  (forall e, f (Retried c e) = false) ->
  count_events f (map (Retried c) tr) = 0.
Proof.
  intros Hf. unfold count_events.
  induction tr as [|e tr IH]; [done|]. cbn. by rewrite Hf.
Qed.

Section VideoFacts.
Variable hasSelectedApiKey : outcome bool.
Variable openSelectKey : outcome unit.
Variable API_KEY : option string.
Variable generateVideos : string -> nat -> outcome Genai.Operation.
Variable getVideosOperation : nat -> nat -> outcome Genai.Operation.
Variable generateContent : string -> nat -> outcome Genai.Response.
Variable random : service_call -> nat -> Q.
Variable fetch_object_url : string -> outcome string.
Variable decode : string -> decoded.
Variable toDataURL : ImageData -> string.

Abbreviation fetch_asset :=
  (generateSingleAsset hasSelectedApiKey openSelectKey API_KEY generateVideos
     getVideosOperation generateContent random fetch_object_url decode
     toDataURL).
Abbreviation video :=
  (generate_video API_KEY generateVideos getVideosOperation random
     fetch_object_url).
Abbreviation polling := (poll_until_done getVideosOperation random).
(** What the [j]-th status poll gives once [withRetry] is through with
    it. *)
Abbreviation poll_result :=
  (fun j => fst (retried random (VideoPoll j) (getVideosOperation j))).

Lemma retried_quiet {T : Type} (f : service_event -> bool)
    (c : service_call) (fn : nat -> outcome T) :
  (forall c e, f (Retried c e) = false) ->
  count_events f (snd (retried random c fn)) = 0.
Proof.
  intros Hf. unfold retried. destruct (withRetry fn (random c) _ _) as [r tr].
  cbn [snd]. by apply count_events_retried.
Qed.

Abbreviation rounds := (polls_from getVideosOperation random).

Lemma count_waits_polls_from (n : nat) :
  forall j, count_events is_poll_wait (rounds j n) = n.
Proof.
  induction n as [|n IH]; intros j; [done|].
  cbn [polls_from].
  change (PollWait 15000 :: ?a ++ ?b) with ([PollWait 15000] ++ a ++ b).
  rewrite !count_events_app, retried_quiet, IH by done. done.
Qed.

Lemma count_quiet_polls_from (f : service_event -> bool) (n : nat) :
  (forall c e, f (Retried c e) = false) ->
  (forall ms, f (PollWait ms) = false) ->
  forall j, count_events f (rounds j n) = 0.
Proof.
  intros Hretried Hwait. induction n as [|n IH]; intros j; [done|].
  cbn [polls_from].
  change (PollWait 15000 :: ?a ++ ?b) with ([PollWait 15000] ++ a ++ b).
  rewrite !count_events_app, retried_quiet, IH by done.
  unfold count_events. cbn [List.filter]. by rewrite Hwait.
Qed.

(** The loop ends at the first operation that is done: it has then made
    one round per poll, each a wait of 15000 ms followed by the poll. *)
Lemma polling_completes (n : nat) (ops : nat -> Genai.Operation) :
  forall fuel j,
    n <= fuel ->
    (forall k, k < n ->
               Genai.done (ops (j + k)) = false
               /\ poll_result (j + k) = Fulfilled (ops (j + S k))) ->
    Genai.done (ops (j + n)) = true ->
    polling fuel j (ops j) = Some (Fulfilled (ops (j + n)), rounds j n).
Proof.
  induction n as [|n IH]; intros fuel j Hfuel Hpending Hdone.
  - rewrite Nat.add_0_r in *.
    destruct fuel; cbn [poll_until_done]; by rewrite Hdone.
  - destruct fuel as [|fuel]; [lia|].
    destruct (Hpending 0) as [Hnot Hpoll]; [lia|].
    rewrite Nat.add_0_r in Hnot, Hpoll.
    cbn [poll_until_done polls_from]. rewrite Hnot.
    destruct (retried random (VideoPoll j) (getVideosOperation j))
      as [r tr]. cbn [fst snd] in *. subst r.
    replace (j + 1) with (S j) by lia.
    rewrite (IH fuel (S j)).
    + by replace (S j + n) with (j + S n) by lia.
    + lia.
    + intros k Hk. replace (S j + k) with (j + S k) by lia.
      replace (S j + S k) with (j + S (S k)) by lia.
      apply Hpending. lia.
    + by replace (S j + n) with (j + S n) by lia.
Qed.

(** As long as the polls answer "not done", the loop goes on. *)
Lemma polling_goes_on (fuel : nat) :
  forall j operation,
    Genai.done operation = false ->
    (forall k, exists operation',
          poll_result k = Fulfilled operation'
          /\ Genai.done operation' = false) ->
    polling fuel j operation = None.
Proof.
  induction fuel as [|fuel IH]; intros j operation Hnot Hpending;
    cbn [poll_until_done]; rewrite Hnot; [done|].
  destruct (Hpending j) as (operation' & Hpoll & Hnot').
  destruct (retried random (VideoPoll j) (getVideosOperation j)) as [r tr].
  cbn [fst] in Hpoll. subst r. by rewrite IH.
Qed.

(** X6.  Fetching a motion asset when the [n]-th status poll is the first
    to report the operation done.  The fetch does this and nothing else,
    in this order: the key is queried, and selected when none was; the job
    is submitted (through [withRetry]); [n] times, the loop waits 15000 ms
    and then polls (through [withRetry]); and the video is downloaded,
    from the operation's [uri] followed by "&key=" and the API key.  So
    there are [n] waits, each before its poll, and one download, after the
    last poll.  Neither the [uri] nor the key is checked: one that is
    missing is written "undefined" into the URL. *)
Theorem video_fetch_completes (fuel n : nat) (prompt : string) (asked : bool)
    (ops : nat -> Genai.Operation) :
  hasSelectedApiKey = Fulfilled asked ->
  (asked = false -> openSelectKey = Fulfilled tt) ->
  fst (retried random VideoSubmit
         (generateVideos (getSystemPrompt GIF prompt))) = Fulfilled (ops 0) ->
  (forall k, k < n ->
             Genai.done (ops k) = false
             /\ poll_result k = Fulfilled (ops (S k))) ->
  Genai.done (ops n) = true ->
  n <= fuel ->
  fetch_asset fuel prompt GIF
  = Some (fetch_object_url
            (interpolate (Genai.uri (ops n)) ++ "&key="
               ++ interpolate API_KEY)%string,
          KeyQuery
            :: (if asked then [] else [KeySelect])
            ++ snd (retried random VideoSubmit
                      (generateVideos (getSystemPrompt GIF prompt)))
            ++ rounds 0 n
            ++ [Download (interpolate (Genai.uri (ops n)) ++ "&key="
                            ++ interpolate API_KEY)%string])
  /\ count_events is_poll_wait (rounds 0 n) = n
  /\ count_events is_download (rounds 0 n) = 0
  /\ count_events is_key_select (rounds 0 n) = 0.
Proof.
  intros Hkey Hselect Hsubmit Hpending Hdone Hfuel.
  pose proof (polling_completes n ops fuel 0 Hfuel Hpending Hdone) as Hpoll.
  cbn [Nat.add] in Hpoll.
  assert (Hvideo : video fuel (getSystemPrompt GIF prompt)
                   = Some (fetch_object_url
                             (interpolate (Genai.uri (ops n)) ++ "&key="
                                ++ interpolate API_KEY)%string,
                           snd (retried random VideoSubmit
                                  (generateVideos (getSystemPrompt GIF prompt)))
                             ++ rounds 0 n
                             ++ [Download
                                   (interpolate (Genai.uri (ops n)) ++ "&key="
                                      ++ interpolate API_KEY)%string])).
  { unfold generate_video.
    destruct (retried random VideoSubmit
                (generateVideos (getSystemPrompt GIF prompt))) as [r tr0].
    cbn [fst snd] in *. subst r. by rewrite Hpoll. }
  split.
  { unfold generateSingleAsset. cbn [AssetType_eqb]. rewrite Hkey.
    destruct asked; [by rewrite Hvideo|].
    by rewrite (Hselect eq_refl), Hvideo. }
  split; [apply count_waits_polls_from|].
  split; by apply count_quiet_polls_from.
Qed.

(** X7.  The polling loop has no limit of its own: if the job is
    submitted and every status poll answers "not done", the fetch never
    returns, however many polls are allowed. *)
Theorem video_polling_has_no_limit (fuel : nat) (prompt : string)
    (asked : bool) (operation : Genai.Operation) :
  hasSelectedApiKey = Fulfilled asked ->
  (asked = false -> openSelectKey = Fulfilled tt) ->
  fst (retried random VideoSubmit
         (generateVideos (getSystemPrompt GIF prompt))) = Fulfilled operation ->
  Genai.done operation = false ->
  (forall k, exists operation',
        poll_result k = Fulfilled operation'
        /\ Genai.done operation' = false) ->
  fetch_asset fuel prompt GIF = None.
Proof.
  intros Hkey Hselect Hsubmit Hnot Hpending.
  assert (Hvideo : video fuel (getSystemPrompt GIF prompt) = None).
  { unfold generate_video.
    destruct (retried random VideoSubmit
                (generateVideos (getSystemPrompt GIF prompt))) as [r tr0].
    cbn [fst] in Hsubmit. subst r.
    by rewrite (polling_goes_on fuel 0 operation Hnot Hpending). }
  unfold generateSingleAsset. cbn [AssetType_eqb]. rewrite Hkey.
  destruct asked; [by rewrite Hvideo|].
  by rewrite (Hselect eq_refl), Hvideo.
Qed.

End VideoFacts.

(** The sample run over three prompts for photos, the image model
    answering with text only. *)
Lemma run_without_images_witness :
  fst (handleGenerate sample_variations
         (still_asset (fun _ _ _ => Fulfilled text_only_response)
            (fun _ => sample_jitter) no_decoder no_encoder)
         sample_id sample_now "red balloon" PHOTO)
  = Rejected (Error_of msg_nothing_forged)
  /\ length (calls
               (snd (handleGenerate sample_variations
                       (still_asset (fun _ _ _ => Fulfilled text_only_response)
                          (fun _ => sample_jitter) no_decoder no_encoder)
                       sample_id sample_now "red balloon" PHOTO))) = 3.
Proof.
  assert (Hvs : sample_variations "red balloon" PHOTO requestedCount
                = Fulfilled ["red balloon from above"; "red balloon in blue";
                             "red balloon close up"]) by reflexivity.
  assert (Hstill : AssetType_eqb PHOTO GIF = false) by reflexivity.
  assert (Hnone : forall (i : nat) (p : string),
            ["red balloon from above"; "red balloon in blue";
             "red balloon close up"] !! i = Some p ->
            exists response,
              (fun (_ : nat) (_ : string) (_ : nat) =>
                 Fulfilled text_only_response) i (getSystemPrompt PHOTO p) 0
              = Fulfilled response
              /\ first_inline (response_parts response) = None).
  { intros i p _. by exists text_only_response. }
  destruct (run_without_images sample_variations
              (fun _ _ _ => Fulfilled text_only_response)
              (fun _ => sample_jitter) no_decoder no_encoder
              sample_id sample_now "red balloon" PHOTO initial_state
              _ Hvs Hstill Hnone) as (Hres & Hcalls & _).
  split; [exact Hres | exact Hcalls].
Defined.

(** The sample run for photos in which every attempt for the second
    prompt is answered "429". *)
Lemma exhausted_rate_limit_aborts_witness :
  fst (handleGenerate sample_variations
         (still_asset
            (fun i _ _ => if i =? 1 then Rejected too_many_requests
                          else Fulfilled (image_response "iVBORw0KGgo="))
            (fun _ => sample_jitter) no_decoder no_encoder)
         sample_id sample_now "red balloon" PHOTO)
  = Rejected too_many_requests
  /\ error (state_after initial_state
              (snd (handleGenerate sample_variations
                      (still_asset
                         (fun i _ _ =>
                            if i =? 1 then Rejected too_many_requests
                            else Fulfilled (image_response "iVBORw0KGgo="))
                         (fun _ => sample_jitter) no_decoder no_encoder)
                      sample_id sample_now "red balloon" PHOTO)))
     = Some msg_rate_limit.
Proof.
  assert (Hvs : sample_variations "red balloon" PHOTO requestedCount
                = Fulfilled ["red balloon from above"; "red balloon in blue";
                             "red balloon close up"]) by reflexivity.
  assert (Hin : CallGenerate 1 "red balloon in blue"
                ∈ snd (handleGenerate sample_variations
                         (still_asset
                            (fun i _ _ =>
                               if i =? 1 then Rejected too_many_requests
                               else Fulfilled (image_response "iVBORw0KGgo="))
                            (fun _ => sample_jitter) no_decoder no_encoder)
                         sample_id sample_now "red balloon" PHOTO)).
  { apply (run_call_iff _ _ _ _ _ _ _ 1 "red balloon in blue" Hvs).
    split; [reflexivity|].
    intros k q Hk Hq. assert (k = 0) as -> by lia.
    injection Hq as <-. reflexivity. }
  assert (Hstill : AssetType_eqb PHOTO GIF = false) by reflexivity.
  assert (Hall : forall k, k < defaultMaxRetries ->
            (fun (i : nat) (_ : string) (_ : nat) =>
               if i =? 1 then Rejected too_many_requests
               else Fulfilled (image_response "iVBORw0KGgo="))
              1 (getSystemPrompt PHOTO "red balloon in blue") k
            = Rejected ((fun _ : nat => too_many_requests) k)
            /\ message_includes ((fun _ : nat => too_many_requests) k) "429"
               = true).
  { intros k _. split; reflexivity. }
  destruct (exhausted_rate_limit_aborts sample_variations
              (fun i _ _ => if i =? 1 then Rejected too_many_requests
                            else Fulfilled (image_response "iVBORw0KGgo="))
              (fun _ => sample_jitter) no_decoder no_encoder
              sample_id sample_now "red balloon" PHOTO initial_state
              1 "red balloon in blue" (fun _ => too_many_requests)
              Hin Hstill Hall) as (Hres & _ & Herr).
  split; [exact Hres | exact Herr].
Defined.

(** A motion asset fetched without an API key at hand: the link is
    followed by "&key=undefined". *)
Lemma video_fetch_completes_witness :
  generateSingleAsset (Fulfilled false) (Fulfilled tt) None
    (fun _ _ => Fulfilled (sample_video_operation 0))
    (fun j _ => Fulfilled (sample_video_operation (S j)))
    (fun _ _ => Rejected no_image) sample_jitter sample_object_url
    no_decoder no_encoder 5 "red balloon" GIF
  = Some (Fulfilled "blob:https://video.example/v1&key=undefined",
          [KeyQuery; KeySelect;
           Retried VideoSubmit (Invoke 0);
           PollWait 15000; Retried (VideoPoll 0) (Invoke 0);
           PollWait 15000; Retried (VideoPoll 1) (Invoke 0);
           Download "https://video.example/v1&key=undefined"]).
Proof.
  assert (Hpending : forall k, k < 2 ->
            Genai.done (sample_video_operation k) = false
            /\ fst (retried sample_jitter (VideoPoll k)
                      ((fun j (_ : nat) =>
                          Fulfilled (sample_video_operation (S j))) k))
               = Fulfilled (sample_video_operation (S k))).
  { intros k Hk. assert (Hcases : k = 0 \/ k = 1) by lia.
    destruct Hcases as [->| ->]; split; reflexivity. }
  exact (proj1 (video_fetch_completes (Fulfilled false) (Fulfilled tt) None
                  (fun _ _ => Fulfilled (sample_video_operation 0))
                  (fun j _ => Fulfilled (sample_video_operation (S j)))
                  (fun _ _ => Rejected no_image) sample_jitter
                  sample_object_url no_decoder no_encoder 5 2 "red balloon"
                  false sample_video_operation eq_refl (fun _ => eq_refl)
                  eq_refl Hpending eq_refl ltac:(lia))).
Defined.

(** A job that is never reported done: seven polls do not end the
    fetch. *)
Lemma video_polling_has_no_limit_witness :
  generateSingleAsset (Fulfilled true) (Fulfilled tt) None
    (fun _ _ => Fulfilled (sample_video_operation 0))
    (fun _ _ => Fulfilled (sample_video_operation 0))
    (fun _ _ => Rejected no_image) sample_jitter sample_object_url
    no_decoder no_encoder 7 "red balloon" GIF
  = None.
Proof.
  assert (Hpending : forall k, exists operation',
            fst (retried sample_jitter (VideoPoll k)
                   ((fun (_ _ : nat) =>
                       Fulfilled (sample_video_operation 0)) k))
            = Fulfilled operation'
            /\ Genai.done operation' = false).
  { intros k. exists (sample_video_operation 0). split; reflexivity. }
  exact (video_polling_has_no_limit (Fulfilled true) (Fulfilled tt) None
           (fun _ _ => Fulfilled (sample_video_operation 0))
           (fun _ _ => Fulfilled (sample_video_operation 0))
           (fun _ _ => Rejected no_image) sample_jitter sample_object_url
           no_decoder no_encoder 7 "red balloon" true
           (sample_video_operation 0) eq_refl
           (fun H => False_ind _ (Bool.diff_true_false H)) eq_refl eq_refl
           Hpending).
Defined.

(** * The HTTP endpoints *)

Lemma falsy_or_default (x : option string) :
  falsy x = false ->
  x = Some (or_default x EmptyString)
  /\ or_default x EmptyString <> EmptyString.
Proof. by destruct x as [[|c s]|]. Qed.

Lemma AssetType_value_truthy (type : AssetType) :
  falsy (Some (AssetType_value type)) = false.
Proof. by destruct type. Qed.

Section EndpointFacts.
Variable JSON_parse : string -> option json.
Variable generateVariations : nat -> string -> outcome (option string).
Variable generateImage : string -> outcome Genai.Response.

Abbreviation variations_endpoint :=
  (variations_handler JSON_parse generateVariations).
Abbreviation image_endpoint := (generate_handler generateImage).

(** X8.  The variations endpoint.  It answers 200, 400, 405 or 500.
    It answers 200 exactly along one path: a POST whose prompt is not
    empty, the model answering, and its text (or "[]" when there is none)
    parsing; the payload then carries the parsed value, whatever it is
    ([null] or a string as well as an array: nothing checks it), and no
    error.  Every other answer carries one of three fixed messages and no
    [variations].  The model is asked at most once, only for such a POST,
    with the prompt as sent and the count of the request (10 when none is
    given). *)
Theorem variations_endpoint_contract
    (req : Http.Request Http.VariationsBody) :
  let res := fst (variations_endpoint req) in
  let tr := snd (variations_endpoint req) in
  (Http.status res = 200 \/ Http.status res = 400
   \/ Http.status res = 405 \/ Http.status res = 500)
  /\ (Http.status res = 200 ->
      Http.method req = "POST"
      /\ Http.error (Http.json res) = None
      /\ exists p text v,
          Http.body req ≫= Http.prompt = Some p /\ p <> EmptyString
          /\ generateVariations (default 10 (Http.body req ≫= Http.count)) p
             = Fulfilled text
          /\ JSON_parse (or_default text "[]") = Some v
          /\ Http.variations (Http.json res) = Some v)
  /\ (Http.status res <> 200 ->
      Http.variations (Http.json res) = None
      /\ exists msg,
          Http.error (Http.json res) = Some msg
          /\ (msg = "Method not allowed" \/ msg = "Missing prompt"
              \/ msg = "Variation generation failed"))
  /\ (forall e, e ∈ tr -> is_upstream e = true ->
                Http.method req = "POST"
                /\ exists p, Http.body req ≫= Http.prompt = Some p /\ p <> EmptyString
                  /\ e = UpstreamVariations
                           (default 10 (Http.body req ≫= Http.count)) p)
  /\ length (List.filter is_upstream tr) <= 1.
Proof.
  unfold variations_handler.
  destruct (String.eqb_spec (Http.method req) "POST") as [Hpost|Hpost];
    cbn [negb].
  2:{ cbn. refine (conj _ (conj _ (conj _ (conj _ _)))); auto; try done.
      - intros _. split; [done|]. exists "Method not allowed". auto.
      - by intros e He%elem_of_nil. }
  destruct (falsy (Http.body req ≫= Http.prompt)) eqn:Hprompt.
  { cbn. refine (conj _ (conj _ (conj _ (conj _ _)))); auto; try done.
    - intros _. split; [done|]. exists "Missing prompt". auto.
    - by intros e He%elem_of_nil. }
  destruct (falsy_or_default _ Hprompt) as [Hp Hne].
  set (p := or_default (Http.body req ≫= Http.prompt) EmptyString) in *.
  set (count := default 10 (Http.body req ≫= Http.count)).
  assert (Hcall : forall e l, e ∈ UpstreamVariations count p :: l ->
                    (forall e', e' ∈ l -> is_upstream e' = false) ->
                    is_upstream e = true ->
                    Http.method req = "POST"
                    /\ exists p0, Http.body req ≫= Http.prompt = Some p0
                                  /\ p0 <> EmptyString
                                  /\ e = UpstreamVariations count p0).
  { intros e l [->|He]%elem_of_cons Hl Hup.
    - split; [done|]. by exists p.
    - by rewrite (Hl e He) in Hup. }
  assert (Hlogged : forall e', e' ∈ [Logged] -> is_upstream e' = false).
  { by intros e' ->%list_elem_of_singleton. }
  assert (Hnil : forall e' : api_event, e' ∈ [] -> is_upstream e' = false).
  { by intros e' He'%elem_of_nil. }
  destruct (generateVariations count p) as [text|err] eqn:Hgen;
    [destruct (JSON_parse (or_default text "[]")) as [v|] eqn:Hparse|];
    cbn; refine (conj _ (conj _ (conj _ (conj _ _)))); auto; try done.
  - intros _. split; [done|]. split; [done|]. by exists p, text, v.
  - intros e He Hup. by apply (Hcall e [] He).
  - intros _. split; [done|]. exists "Variation generation failed". auto.
  - intros e He Hup. by apply (Hcall e [Logged] He).
  - intros _. split; [done|]. exists "Variation generation failed". auto.
  - intros e He Hup. by apply (Hcall e [Logged] He).
Qed.

(** X9.  The image endpoint.  It answers 200, 400, 405 or 500.  It
    answers 200 exactly along one path: a POST with a prompt and a type
    that are not empty, the model answering, and the first part with
    inline data carrying data that is not empty; the payload is then
    "data:image/png;base64," followed by that data.  Every other answer
    carries one of four fixed messages and no image.  The model is asked
    at most once, only for such a POST, and with the prompt exactly as it
    was sent: no template is applied and the type is not used. *)
Theorem image_endpoint_contract (req : Http.Request Http.GenerateBody) :
  let res := fst (image_endpoint req) in
  let tr := snd (image_endpoint req) in
  (Http.status res = 200 \/ Http.status res = 400
   \/ Http.status res = 405 \/ Http.status res = 500)
  /\ (Http.status res = 200 ->
      Http.method req = "POST"
      /\ Http.error (Http.json res) = None
      /\ exists p ty response d,
          Http.body req ≫= Http.gprompt = Some p /\ p <> EmptyString
          /\ Http.body req ≫= Http.gtype = Some ty /\ ty <> EmptyString
          /\ generateImage p = Fulfilled response
          /\ first_inline_data (response_parts response) = Some d
          /\ d <> EmptyString
          /\ Http.image (Http.json res)
             = Some ("data:image/png;base64," ++ d)%string)
  /\ (Http.status res <> 200 ->
      Http.image (Http.json res) = None
      /\ exists msg,
          Http.error (Http.json res) = Some msg
          /\ (msg = "Method not allowed" \/ msg = "Missing prompt or type"
              \/ msg = "Generation failed" \/ msg = "No image generated"))
  /\ (forall e, e ∈ tr -> is_upstream e = true ->
                Http.method req = "POST"
                /\ exists p, Http.body req ≫= Http.gprompt = Some p
                             /\ p <> EmptyString /\ e = UpstreamImage p)
  /\ length (List.filter is_upstream tr) <= 1.
Proof.
  unfold generate_handler.
  destruct (String.eqb_spec (Http.method req) "POST") as [Hpost|Hpost];
    cbn [negb].
  2:{ cbn. refine (conj _ (conj _ (conj _ (conj _ _)))); auto; try done.
      - intros _. split; [done|]. exists "Method not allowed". auto.
      - by intros e He%elem_of_nil. }
  destruct (falsy (Http.body req ≫= Http.gprompt)) eqn:Hprompt; cbn [orb].
  { cbn. refine (conj _ (conj _ (conj _ (conj _ _)))); auto; try done.
    - intros _. split; [done|]. exists "Missing prompt or type". auto.
    - by intros e He%elem_of_nil. }
  destruct (falsy (Http.body req ≫= Http.gtype)) eqn:Htype.
  { cbn. refine (conj _ (conj _ (conj _ (conj _ _)))); auto; try done.
    - intros _. split; [done|]. exists "Missing prompt or type". auto.
    - by intros e He%elem_of_nil. }
  destruct (falsy_or_default _ Hprompt) as [Hp Hne].
  destruct (falsy_or_default _ Htype) as [Hty Htyne].
  set (p := or_default (Http.body req ≫= Http.gprompt) EmptyString) in *.
  assert (Hcall : forall e l, e ∈ UpstreamImage p :: l ->
                    (forall e', e' ∈ l -> is_upstream e' = false) ->
                    is_upstream e = true ->
                    Http.method req = "POST"
                    /\ exists p0, Http.body req ≫= Http.gprompt = Some p0
                                  /\ p0 <> EmptyString /\ e = UpstreamImage p0).
  { intros e l [->|He]%elem_of_cons Hl Hup.
    - split; [done|]. by exists p.
    - by rewrite (Hl e He) in Hup. }
  assert (Hlogged : forall e', e' ∈ [Logged] -> is_upstream e' = false).
  { by intros e' ->%list_elem_of_singleton. }
  assert (Hnil : forall e' : api_event, e' ∈ [] -> is_upstream e' = false).
  { by intros e' He'%elem_of_nil. }
  destruct (generateImage p) as [response|err] eqn:Hgen;
    [destruct (falsy (first_inline_data (response_parts response)))
       eqn:Hdata|];
    cbn; refine (conj _ (conj _ (conj _ (conj _ _)))); auto; try done.
  - intros _. split; [done|]. exists "No image generated". auto.
  - intros e He Hup. by apply (Hcall e [] He).
  - intros _. split; [done|]. split; [done|].
    destruct (falsy_or_default _ Hdata) as [Hd Hdne].
    by eexists p, _, response, _.
  - intros e He Hup. by apply (Hcall e [] He).
  - intros _. split; [done|]. exists "Generation failed". auto.
  - intros e He Hup. by apply (Hcall e [Logged] He).
Qed.

(** X10.  The client's [generateSingleAsset] over the image endpoint.
    It resolves, to "data:image/png;base64," followed by data that is not
    empty, exactly when the prompt is not empty, the model answers and the
    first part with inline data has data; in every other case the error of
    the endpoint is replaced by "Failed to generate asset".  The right-hand
    side does not mention the type: every type gives the same result. *)
Theorem client_asset_over_endpoint (prompt : string) (type : AssetType) :
  client_generateSingleAsset (in_process image_endpoint) prompt type
  = match prompt, generateImage prompt with
    | String _ _, Fulfilled response =>
        match first_inline_data (response_parts response) with
        | Some (String c d) =>
            Fulfilled (Some ("data:image/png;base64," ++ String c d)%string)
        | _ => Rejected (Error_of "Failed to generate asset")
        end
    | _, _ => Rejected (Error_of "Failed to generate asset")
    end.
Proof.
  unfold client_generateSingleAsset, in_process, generate_handler.
  cbn [Http.method Http.body String.eqb Ascii.eqb negb mbind option_bind
       Http.gprompt Http.gtype].
  change (String.eqb "POST" "POST") with true. cbn [negb].
  rewrite AssetType_value_truthy, orb_false_r.
  destruct prompt as [|c0 p0]; cbn.
  { by destruct (generateImage EmptyString); cbn. }
  destruct (generateImage (String c0 p0)) as [response|err]; [|by cbn].
  by destruct (first_inline_data (response_parts response)) as [[|c d]|];
    cbn.
Qed.

(** X11.  The client's [generatePromptVariations] over the variations
    endpoint.  When the prompt is not empty, the model answers and its
    text parses, it resolves to the parsed value as it comes over the
    wire, whatever it is: an empty array, [null] or a string as well as an
    array of prompts, the client having neither a check nor a fallback of
    its own.  In every other case the error is "Failed to generate
    variations".  The type is not used. *)
Theorem client_variations_over_endpoint (prompt : string) (type : AssetType)
    (count : option nat) :
  client_generatePromptVariations (in_process variations_endpoint)
    prompt type count
  = match prompt, generateVariations (default 10 count) prompt with
    | String _ _, Fulfilled text =>
        match JSON_parse (or_default text "[]") with
        | Some v => Fulfilled (Some (on_the_wire v))
        | None => Rejected (Error_of "Failed to generate variations")
        end
    | _, _ => Rejected (Error_of "Failed to generate variations")
    end.
Proof.
  unfold client_generatePromptVariations, in_process, variations_handler.
  cbn [Http.method Http.body negb mbind option_bind option_ret
       Http.prompt Http.count from_option id].
  change (String.eqb "POST" "POST") with true. cbn [negb].
  destruct prompt as [|c0 p0]; cbn.
  { by destruct (generateVariations (default 10 count) EmptyString); cbn. }
  destruct (generateVariations (default 10 count) (String c0 p0))
    as [text|err]; [|by cbn].
  by destruct (JSON_parse (or_default text "[]")); cbn.
Qed.

End EndpointFacts.

(** ** Pauses and the busy flag of a run *)


Lemma at_calls_app (P : AppState -> bool) (a b : list ui_event) :
  forall s,
    at_calls P s (a ++ b) = at_calls P s a && at_calls P (state_after s a) b.
Proof.
  induction a as [|e a IH]; intros s; [done|].
  cbn [app at_calls]. rewrite IH. unfold state_after. cbn [fold_left].
  by rewrite andb_assoc.
Qed.

Lemma at_calls_quiet (P : AppState -> bool) (tr : list ui_event) :
  forall s, (forall ev, ev ∈ tr -> is_call ev = false) -> at_calls P s tr = true.
Proof.
  induction tr as [|e tr IH]; intros s Hq; [done|].
  cbn [at_calls]. rewrite (Hq e) by left. cbn [andb].
  apply IH. intros ev Hin. apply Hq. by right.
Qed.

Lemma busy_kept (s : AppState) (e : ui_event) :
  is_flag e = false -> busy (apply_event s e) = busy s.
Proof. by destruct e. Qed.

Lemma at_calls_busy (tr : list ui_event) :
  forall s,
    busy s = true -> Forall (fun e => is_flag e = false) tr ->
    at_calls busy s tr = true /\ busy (state_after s tr) = true.
Proof.
  induction tr as [|e tr IH]; intros s Hs Hall; [done|].
  apply Forall_cons in Hall as [He Hall].
  cbn [at_calls]. rewrite Hs.
  destruct (IH (apply_event s e)) as [Hcalls Hend]; [|done|].
  { by rewrite busy_kept. }
  split; [|done]. rewrite Hcalls. by destruct (is_call e).
Qed.

Lemma at_calls_split (P : AppState -> bool) (before after : list ui_event)
    (c : ui_event) (s : AppState) :
  at_calls P s (before ++ c :: after) = true -> is_call c = true ->
  P (state_after s before) = true.
Proof.
  rewrite at_calls_app. cbn [at_calls]. intros H Hc. rewrite Hc in H.
  by apply andb_prop in H as [_ [H _]%andb_prop].
Qed.

Section PauseFacts.
Variable generatePromptVariations
  : string -> AssetType -> nat -> outcome (list string).
Variable generateSingleAsset : nat -> string -> AssetType -> outcome string.
Variable random_id : nat -> string.
Variable now : nat -> Z.
Variable basePrompt : string.
Variable type : AssetType.

Abbreviation run :=
  (handleGenerate generatePromptVariations generateSingleAsset random_id now
     basePrompt type).
Abbreviation items := (run_items generateSingleAsset random_id now type).
Abbreviation settle := (settle_item generateSingleAsset random_id now type).
Abbreviation tried := (attempts generateSingleAsset random_id now type).



Lemma items_no_flags (n : nat) (ps : list string) :
  forall i acc,
    Forall (fun e => is_flag e = false) (snd (items n i ps acc)).
Proof.
  induction ps as [|p ps IH]; intros i acc; [by constructor|].
  cbn [run_items].
  destruct (settle i p) as [a|err|err].
  3:{ cbn. by repeat constructor. }
  all: at_recursive_call IH; apply Forall_app; split; [|done];
    cbn [item_events]; destruct (S i <? n); by repeat constructor.
Qed.



Lemma run_at_calls (s0 : AppState) :
  at_calls busy s0 (snd run) = true.
Proof.
  assert (Hstart : forall s, busy (state_after s prologue) = true) by done.
  assert (Hpro : forall s, at_calls busy s prologue = true) by done.
  assert (Hepi : forall r s, at_calls busy s (epilogue r) = true).
  { intros r s. apply at_calls_quiet. intros ev Hin.
    by apply epilogue_quiet in Hin as [? _]. }
  destruct (generatePromptVariations basePrompt type requestedCount)
    as [vs|err] eqn:Hvs.
  - rewrite (run_with_variations _ _ _ _ _ _ vs Hvs). cbn [snd].
    rewrite !at_calls_app, Hpro, Hepi, andb_true_r. cbn [andb].
    by apply at_calls_busy; [|apply items_no_flags].
  - rewrite (run_without_variations _ _ _ _ _ _ err Hvs). cbn [snd].
    by rewrite at_calls_app, Hpro, Hepi.
Qed.

Lemma idle_after_epilogue (r : outcome (list GeneratedAsset)) (s : AppState) :
  isGenerating (state_after s (epilogue r)) = false.
Proof.
  unfold epilogue. rewrite state_after_app. done.
Qed.

(** X13.  The busy flag of a run, from whatever state it starts.  Each
    fetch is made with [isGenerating] set and the error cleared; when the
    run is over, [isGenerating] is reset; and after a run that ends with
    assets no error is shown. *)
Theorem run_busy_flag (s0 : AppState) :
  (forall before after i p,
      snd run = before ++ CallGenerate i p :: after ->
      isGenerating (state_after s0 before) = true
      /\ error (state_after s0 before) = None)
  /\ isGenerating (state_after s0 (snd run)) = false
  /\ (forall newAssets,
        fst run = Fulfilled newAssets ->
        error (state_after s0 (snd run)) = None).
Proof.
  split; [|split].
  - intros before after i p Hrun.
    pose proof (run_at_calls s0) as H. rewrite Hrun in H.
    apply at_calls_split in H; [|done]. unfold busy in H.
    apply andb_prop in H as [H1 H2]. split; [done|].
    by destruct (error (state_after s0 before)).
  - destruct (generatePromptVariations basePrompt type requestedCount)
      as [vs|err] eqn:Hvs.
    + rewrite (run_with_variations _ _ _ _ _ _ vs Hvs). cbn [snd].
      rewrite app_assoc, state_after_app. apply idle_after_epilogue.
    + rewrite (run_without_variations _ _ _ _ _ _ err Hvs). cbn [snd].
      rewrite state_after_app. apply idle_after_epilogue.
  - intros newAssets Hres.
    destruct (generatePromptVariations basePrompt type requestedCount)
      as [vs|err] eqn:Hvs.
    + rewrite (run_with_variations _ _ _ _ _ _ vs Hvs) in Hres |- *.
      cbn [fst snd] in *. rewrite Hres. unfold epilogue. cbn [app].
      rewrite !state_after_app.
      destruct (at_calls_busy (snd (items (length vs) 0 vs []))
                  (state_after s0 prologue)) as [_ Hb];
        [done|apply items_no_flags|].
      unfold busy in Hb. apply andb_prop in Hb as [_ Hb].
      set (s1 := state_after (state_after s0 prologue) _) in *.
      change (error (state_after s1 finally_block)) with (error s1).
      by destruct (error s1).
    + by rewrite (run_without_variations _ _ _ _ _ _ err Hvs) in Hres.
Qed.

End PauseFacts.

(** ** The daily allowance of the form *)

Lemma generations_app (a b : list form_effect) :
  generations (a ++ b) = generations a ++ generations b.
Proof. apply omap_app. Qed.

Lemma alerts_app (a b : list form_effect) :
  alerts (a ++ b) = alerts a ++ alerts b.
Proof. apply omap_app. Qed.

Section FormFacts.
Variable parseInt : string -> float.
Variable toString : float -> string.
Variable trim : string -> string.

Abbreviation submit_one := (handleSubmit toString trim).
Abbreviation submit := (submit_all toString trim).
Abbreviation requested := (requests trim).
Abbreviation opened := (mount parseInt).
Abbreviation valid := (passes trim).

Lemma requests_cons (sub : Submission) (subs : list Submission) :
  requested (sub :: subs)
  = if valid sub then (typed sub, selected sub) :: requested subs
    else requested subs.
Proof. unfold requests. cbn [List.filter]. by destruct (valid sub). Qed.

Lemma handleSubmit_ignored (sub : Submission) (st : FormState) :
  valid sub = false -> submit_one sub st = (st, []).
Proof.
  unfold passes, handleSubmit. by destruct (_ || _).
Qed.

Lemma handleSubmit_refused (sub : Submission) (st : FormState) :
  valid sub = true -> clicks st = float_of_nat 3 ->
  submit_one sub st = (st, [Alert msg_allowance]).
Proof.
  unfold passes, handleSubmit. destruct (_ || _); [done|].
  by intros _ ->.
Qed.

Lemma handleSubmit_counted (sub : Submission) (st : FormState) (k : nat) :
  valid sub = true -> k < 3 -> clicks st = float_of_nat k ->
  submit_one sub st
  = ({| clicks := float_of_nat (S k);
        localStorage :=
          <["daily_clicks" := toString (float_of_nat (S k))]>
            (localStorage st) |},
     [OnGenerate (typed sub) (selected sub)]).
Proof.
  unfold passes, handleSubmit. destruct (_ || _); [done|].
  intros _ Hk ->.
  assert (Hcases : k = 0 \/ k = 1 \/ k = 2) by lia.
  by destruct Hcases as [->|[->| ->]].
Qed.

(** What a session makes of a form that has counted [k] clicks, [k] being
    at most 3. *)
Lemma submit_all_counted (subs : list Submission) :
  forall k st,
    k <= 3 -> clicks st = float_of_nat k ->
    generations (snd (submit subs st)) = take (3 - k) (requested subs)
    /\ length (alerts (snd (submit subs st)))
       = length (requested subs) - (3 - k)
    /\ clicks (fst (submit subs st))
       = float_of_nat (k + Nat.min (3 - k) (length (requested subs)))
    /\ localStorage (fst (submit subs st)) !! "last_date"
       = localStorage st !! "last_date"
    /\ localStorage (fst (submit subs st)) !! "daily_clicks"
       = if Nat.min (3 - k) (length (requested subs)) =? 0
         then localStorage st !! "daily_clicks"
         else Some (toString
                      (float_of_nat
                         (k + Nat.min (3 - k) (length (requested subs))))).
Proof.
  induction subs as [|sub subs IH]; intros k st Hk Hclicks.
  { cbn. rewrite Nat.min_0_r, Nat.add_0_r, take_nil. by rewrite Hclicks. }
  cbn [submit_all]. rewrite requests_cons.
  destruct (valid sub) eqn:Hsub.
  2:{ rewrite handleSubmit_ignored by done.
      specialize (IH k st Hk Hclicks).
      by destruct (submit subs st) as [st' rest]. }
  destruct (decide (k = 3)) as [->|Hlt].
  { rewrite handleSubmit_refused by done.
    specialize (IH 3 st Hk Hclicks).
    destruct (submit subs st) as [st' rest]. cbn [fst snd] in *.
    destruct IH as (Hg & Ha & Hc & Hd & Hs).
    cbn [length Nat.sub Nat.min Nat.eqb take] in *.
    rewrite Nat.sub_0_r in Ha.
    refine (conj Hg (conj _ (conj Hc (conj Hd Hs)))).
    change (alerts ([Alert msg_allowance] ++ rest))
      with (msg_allowance :: alerts rest).
    cbn [length]. rewrite Ha. lia. }
  rewrite (handleSubmit_counted sub st k) by (done || lia).
  set (st1 := {| clicks := float_of_nat (S k); localStorage := _ |}).
  specialize (IH (S k) st1).
  destruct (submit subs st1) as [st' rest]. cbn [fst snd] in *.
  destruct IH as (Hg & Ha & Hc & Hd & Hs); [lia|done|].
  cbn [length]. set (n := length (requested subs)) in *.
  replace (3 - k) with (S (3 - S k)) by lia.
  replace (Nat.min (S (3 - S k)) (S n)) with (S (Nat.min (3 - S k) n))
    by lia.
  replace (k + S (Nat.min (3 - S k) n)) with (S k + Nat.min (3 - S k) n)
    by lia.
  cbn [Nat.eqb].
  refine (conj _ (conj _ (conj Hc (conj _ _)))).
  - change (generations ([OnGenerate (typed sub) (selected sub)] ++ rest))
      with ((typed sub, selected sub) :: generations rest).
    by rewrite Hg.
  - change (alerts ([OnGenerate (typed sub) (selected sub)] ++ rest))
      with (alerts rest).
    rewrite Ha. lia.
  - rewrite Hd. subst st1. cbn [localStorage].
    by rewrite lookup_insert_ne.
  - rewrite Hs. subst st1. cbn [localStorage]. rewrite lookup_insert.
    destruct (Nat.min (3 - S k) n) as [|m]; [|done].
    cbn [Nat.eqb]. by rewrite Nat.add_0_r.
Qed.

(** X14.  The form opened on a day other than the stored one (or with no
    stored day).  Of the submissions that have a prompt and are made while
    no run is in progress, the first three reach [onGenerate], in order
    and with their prompt and type; each later one raises the alert
    instead; and the day is stored. *)
Theorem allowance_on_a_new_day (today : string)
    (storage : gmap string string) (subs : list Submission) :
  storage !! "last_date" <> Some today ->
  generations (snd (submit subs (opened today storage)))
  = take 3 (requested subs)
  /\ length (alerts (snd (submit subs (opened today storage))))
     = length (requested subs) - 3
  /\ localStorage (fst (submit subs (opened today storage))) !! "last_date"
     = Some today.
Proof.
  intros Hdate.
  pose proof (submit_all_counted subs 0 (opened today storage)) as H.
  unfold mount in *. destruct (decide _) as [Heq|_]; [done|].
  destruct H as (Hg & Ha & _ & Hd & _); [lia|done|].
  refine (conj Hg (conj Ha _)). rewrite Hd. cbn [localStorage].
  by rewrite lookup_insert.
Qed.

Lemma or_default_filled (s dflt : string) :
  s <> EmptyString -> or_default (Some s) dflt = s.
Proof. by destruct s. Qed.

(** X15.  The allowance survives reopening the form on the same day:
    what reaches [onGenerate] in the two sessions together is the first
    three submissions that pass, and each later one raises the alert.
    This holds provided the stored count is read back as it was written:
    [parseInt] gives 0 on "0", and inverts [toString] on 1, 2 and 3. *)
Theorem allowance_survives_reload (today : string)
    (storage : gmap string string) (subs1 subs2 : list Submission) :
  storage !! "last_date" <> Some today ->
  parseInt "0" = float_of_nat 0 ->
  (forall k, 1 <= k <= 3 ->
             toString (float_of_nat k) <> EmptyString
             /\ parseInt (toString (float_of_nat k)) = float_of_nat k) ->
  let first := submit subs1 (opened today storage) in
  let second := submit subs2 (opened today (localStorage (fst first))) in
  generations (snd first) ++ generations (snd second)
  = take 3 (requested subs1 ++ requested subs2)
  /\ length (alerts (snd first)) + length (alerts (snd second))
     = length (requested subs1 ++ requested subs2) - 3.
Proof.
  intros Hdate Hzero Hround first second. subst first second.
  destruct (submit_all_counted subs1 0 (opened today storage))
    as (Hg1 & Ha1 & _ & Hd1 & Hs1).
  { lia. }
  { unfold mount. by destruct (decide _). }
  set (st1 := fst (submit subs1 (opened today storage))) in *.
  set (n1 := length (requested subs1)) in *.
  assert (Hd : localStorage st1 !! "last_date" = Some today).
  { rewrite Hd1. unfold mount. destruct (decide _) as [|_]; [done|].
    cbn [localStorage]. by rewrite lookup_insert. }
  assert (Hs : clicks (opened today (localStorage st1))
               = float_of_nat (Nat.min 3 n1)).
  { unfold mount at 1. destruct (decide _) as [_|]; [|done].
    cbn [clicks]. rewrite Hs1. cbn [Nat.sub Nat.add].
    destruct (Nat.min 3 n1) as [|m] eqn:Hmin; cbn [Nat.eqb].
    - unfold mount. destruct (decide _) as [|_]; [done|].
      cbn [localStorage].
      rewrite lookup_insert_ne, lookup_insert by done. exact Hzero.
    - destruct (Hround (S m)) as [Hne Hparse]; [lia|].
      by rewrite or_default_filled. }
  destruct (submit_all_counted subs2 (Nat.min 3 n1)
              (opened today (localStorage st1)))
    as (Hg2 & Ha2 & _); [lia|done|].
  rewrite Hg1, Hg2, Ha1, Ha2. cbn [Nat.sub].
  rewrite take_app, length_app. fold n1.
  split; [f_equal; f_equal; lia | lia].
Qed.

Lemma submit_all_uncounted (subs : list Submission) :
  forall st,
    clicks st = PrimFloat.nan ->
    generations (snd (submit subs st)) = requested subs
    /\ alerts (snd (submit subs st)) = []
    /\ clicks (fst (submit subs st)) = PrimFloat.nan.
Proof.
  induction subs as [|sub subs IH]; intros st Hclicks; [done|].
  cbn [submit_all]. rewrite requests_cons.
  destruct (valid sub) eqn:Hsub.
  2:{ rewrite handleSubmit_ignored by done.
      specialize (IH st Hclicks).
      by destruct (submit subs st) as [st' rest]. }
  unfold passes in Hsub. unfold handleSubmit.
  destruct (_ || _); [done|]. rewrite Hclicks.
  change (PrimFloat.leb 3 PrimFloat.nan) with false. cbv iota.
  change (PrimFloat.add PrimFloat.nan 1) with PrimFloat.nan.
  set (st1 := {| clicks := PrimFloat.nan; localStorage := _ |}).
  specialize (IH st1 eq_refl).
  destruct (submit subs st1) as [st' rest]. cbn [fst snd] in *.
  destruct IH as (Hg & Ha & Hc).
  change (generations ([OnGenerate (typed sub) (selected sub)] ++ rest))
    with ((typed sub, selected sub) :: generations rest).
  change (alerts ([OnGenerate (typed sub) (selected sub)] ++ rest))
    with (alerts rest).
  by rewrite Hg, Ha.
Qed.

(** X16.  A stored count that [parseInt] cannot read lifts the
    allowance.  When the form is opened on the stored day and the count
    parses to NaN, every submission that passes reaches [onGenerate] and
    no alert is raised, since NaN is never at least 3 and stays NaN when
    1 is added. *)
Theorem unreadable_count_lifts_allowance (today : string)
    (storage : gmap string string) (subs : list Submission) :
  storage !! "last_date" = Some today ->
  parseInt (or_default (storage !! "daily_clicks") "0") = PrimFloat.nan ->
  generations (snd (submit subs (opened today storage))) = requested subs
  /\ alerts (snd (submit subs (opened today storage))) = [].
Proof.
  intros Hdate Hnan.
  destruct (submit_all_uncounted subs (opened today storage))
    as (Hg & Ha & _); [|done].
  unfold mount. by destruct (decide _).
Qed.

End FormFacts.

Lemma allowance_on_a_new_day_witness :
  generations
    (snd (submit_all sample_toString sample_trim sample_submissions
            (mount sample_parseInt "Mon Nov 02 2026" ∅)))
  = [("cats", STICKER); ("dogs", PHOTO); ("bees", GIF)]
  /\ length (alerts
               (snd (submit_all sample_toString sample_trim
                       sample_submissions
                       (mount sample_parseInt "Mon Nov 02 2026" ∅)))) = 1.
Proof.
  assert (H : (∅ : gmap string string) !! "last_date"
              <> Some "Mon Nov 02 2026") by done.
  destruct (allowance_on_a_new_day sample_parseInt sample_toString
              sample_trim "Mon Nov 02 2026" ∅ sample_submissions H)
    as (Hg & Ha & _).
  split; [exact Hg | exact Ha].
Defined.

Lemma allowance_survives_reload_witness :
  generations
    (snd (submit_all sample_toString sample_trim (take 3 sample_submissions)
            (mount sample_parseInt "Mon Nov 02 2026" ∅)))
  ++ generations
       (snd (submit_all sample_toString sample_trim
               (drop 3 sample_submissions)
               (mount sample_parseInt "Mon Nov 02 2026"
                  (localStorage
                     (fst (submit_all sample_toString sample_trim
                             (take 3 sample_submissions)
                             (mount sample_parseInt "Mon Nov 02 2026"
                                ∅)))))))
  = [("cats", STICKER); ("dogs", PHOTO); ("bees", GIF)].
Proof.
  assert (H : (∅ : gmap string string) !! "last_date"
              <> Some "Mon Nov 02 2026") by done.
  assert (Hzero : sample_parseInt "0" = float_of_nat 0) by reflexivity.
  assert (Hround : forall k, 1 <= k <= 3 ->
            sample_toString (float_of_nat k) <> EmptyString
            /\ sample_parseInt (sample_toString (float_of_nat k))
               = float_of_nat k).
  { intros k Hk.
    assert (Hcases : k = 1 \/ k = 2 \/ k = 3) by lia.
    by destruct Hcases as [->|[->| ->]]. }
  exact (proj1 (allowance_survives_reload sample_parseInt sample_toString
                  sample_trim "Mon Nov 02 2026" ∅
                  (take 3 sample_submissions) (drop 3 sample_submissions)
                  H Hzero Hround)).
Defined.

Lemma unreadable_count_lifts_allowance_witness :
  generations
    (snd (submit_all sample_toString sample_trim sample_submissions
            (mount sample_parseInt "Mon Nov 02 2026"
               (<["daily_clicks" := "three"]>
                  (<["last_date" := "Mon Nov 02 2026"]> ∅)))))
  = [("cats", STICKER); ("dogs", PHOTO); ("bees", GIF); ("ants", STAMP)].
Proof.
  assert (Hdate : (<["daily_clicks" := "three"]>
                     (<["last_date" := "Mon Nov 02 2026"]> ∅)
                   : gmap string string) !! "last_date"
                  = Some "Mon Nov 02 2026") by done.
  assert (Hnan : sample_parseInt
                   (or_default
                      ((<["daily_clicks" := "three"]>
                          (<["last_date" := "Mon Nov 02 2026"]> ∅)
                        : gmap string string) !! "daily_clicks") "0")
                 = PrimFloat.nan) by done.
  exact (proj1 (unreadable_count_lifts_allowance sample_parseInt
                  sample_toString sample_trim "Mon Nov 02 2026" _
                  sample_submissions Hdate Hnan)).
Defined.

(** ** Further facts on [withRetry] and on the white filter *)

(** X17.  [withRetry] for any [maxRetries] and initial delay.  The
    operation is called [m + 1] times with [m < max(1, maxRetries)], one
    sleep between two calls, and the result is that of the last call.  So
    [maxRetries] bounds the calls, not the retries: with 1 the operation
    is called once and never retried, and with 0 it is still called
    once. *)
Theorem withRetry_any_budget {T : Type} (fn : nat -> outcome T)
    (random : nat -> Q) (maxRetries : nat) (initialDelay : Q) :
  (exists m,
      m < Nat.max 1 maxRetries
      /\ withRetry fn random maxRetries initialDelay
         = (fn m, backoff_trace random initialDelay m 0)
      /\ invocations (snd (withRetry fn random maxRetries initialDelay))
         = seq 0 (S m))
  /\ (maxRetries <= 1 ->
      withRetry fn random maxRetries initialDelay = (fn 0, [Invoke 0])).
Proof.
  assert (Hshape : exists m,
             m < Nat.max 1 maxRetries
             /\ withRetry fn random maxRetries initialDelay
                = (fn m, backoff_trace random initialDelay m 0)).
  { destruct maxRetries as [|n] eqn:Hn.
    - exists 0. split; [lia|]. done.
    - destruct (withRetry_from_shape fn random (S n) initialDelay (S n) 0)
        as (m & Hm & Hres & Htr & _); [lia | lia |].
      cbn [delay_after] in Hres, Htr. rewrite Nat.sub_0_r in Htr.
      exists m. split; [lia|]. unfold withRetry.
      destruct (withRetry_from fn random (S n) (S n) 0 initialDelay)
        as [r tr].
      cbn [fst snd] in *. by subst. }
  destruct Hshape as (m & Hm & Hrun).
  split.
  - exists m. split; [done|]. split; [done|].
    rewrite Hrun. apply invocations_backoff_trace.
  - intros Hle. rewrite Hrun. assert (m = 0) as -> by lia. done.
Qed.

Lemma keyed_strip_white (data : list Z) (p : nat) :
  keyed (strip_white data) p = keyed data p.
Proof.
  unfold keyed.
  pose proof (strip_white_lookup data p 0) as H0.
  pose proof (strip_white_lookup data p 1) as H1.
  pose proof (strip_white_lookup data p 2) as H2.
  rewrite Nat.add_0_r in H0.
  rewrite H0, H1, H2 by lia. done.
Qed.

(** X18.  The white filter is idempotent: applied to its own output it
    changes nothing. *)
Theorem strip_white_idempotent (data : list Z) :
  strip_white (strip_white data) = strip_white data.
Proof.
  apply list_eq. intros j.
  rewrite (Nat.div_mod_eq j 4).
  assert (Hc : j mod 4 < 4) by (apply Nat.mod_upper_bound; lia).
  set (p := j / 4). set (c := j mod 4) in *.
  rewrite (strip_white_lookup (strip_white data)) by done.
  rewrite keyed_strip_white.
  rewrite (strip_white_lookup data) by done.
  destruct ((c =? 3) && keyed data p); [|done].
  by destruct (data !! (4 * p + c)).
Qed.
